(** * ClaraVerse service orchestration core: a shallow embedding

    The development follows three source files:
    - the service registry ([SERVICE_DEFINITIONS], [getEnabledServices],
      [applyPlatformOverrides], [getServiceConfiguration],
      [validateServiceConfiguration], [isServiceModeSupported],
      [getSupportedDeploymentModes], [getPlatformCompatibility],
      [getCompatibleServices], [getHealthCheckTimeout],
      [createManualHealthCheck]);
    - the remote deployment service ([ClaraCoreRemoteService]: [execCommand],
      [execCommandWithOutput], [detectHardware], the setup steps,
      [testSetup], [deploy], [monitorRemoteServices]);
    - the local container service ([ClaraCoreDockerService]: [detectGPU],
      [start], [stop], [remove], [restart], [getStatus] and their helpers).

    JavaScript strings are modelled as [string] (ASCII text), JavaScript
    objects used as dictionaries as association lists in [Object.keys]
    order, promises as explicit outcomes, and the remote host and the
    container engine as arbitrary state machines. *)

From Stdlib Require Import String Ascii List Bool Arith ZArith NArith Lia.
From Stdlib Require Import DecimalString Relations.
Import ListNotations.
Local Open Scope list_scope.
Local Open Scope string_scope.

(** ** JavaScript string primitives *)

Module Js.

Definition dq : string := String (ascii_of_nat 34) EmptyString.
Definition nl : string := String (ascii_of_nat 10) EmptyString.

(** Truthiness of a string: only the empty string is falsy. *)
Definition truthy (s : string) : bool :=
  match s with EmptyString => false | String _ _ => true end.

(** Truthiness of a possibly [null]/[undefined] string. *)
Definition truthy_opt (o : option string) : bool :=
  match o with Some s => truthy s | None => false end.

(** [a || b] on strings. *)
Definition or_else (a b : string) : string := if truthy a then a else b.

Definition startsWith (s pre : string) : bool := String.prefix pre s.

(** [s.includes(sub)]. *)
Fixpoint includes (s sub : string) : bool :=
  String.prefix sub s ||
  match s with
  | EmptyString => false
  | String _ s' => includes s' sub
  end.

(** [arr.includes(x)] on an array of strings. *)
Definition array_includes (arr : list string) (x : string) : bool :=
  existsb (String.eqb x) arr.

(** White space as matched by [trim] and by the regular expression class
    [\s], restricted to ASCII. *)
Definition is_space (c : ascii) : bool :=
  match nat_of_ascii c with
  | 9 | 10 | 11 | 12 | 13 | 32 => true
  | _ => false
  end.

Fixpoint trimStart (s : string) : string :=
  match s with
  | EmptyString => EmptyString
  | String c s' => if is_space c then trimStart s' else s
  end.

Fixpoint trimEnd (s : string) : string :=
  match s with
  | EmptyString => EmptyString
  | String c s' =>
      let r := trimEnd s' in
      if is_space c && negb (truthy r) then EmptyString else String c r
  end.

Definition trim (s : string) : string := trimEnd (trimStart s).

Fixpoint drop (n : nat) (s : string) : string :=
  match n, s with
  | 0, _ => s
  | S _, EmptyString => EmptyString
  | S k, String _ s' => drop k s'
  end.

(** [s.replace(pat, rep)] with a string pattern: first occurrence only. *)
Fixpoint replaceFirst (pat rep s : string) : string :=
  if String.prefix pat s then rep ++ drop (String.length pat) s
  else match s with
       | EmptyString => EmptyString
       | String c s' => String c (replaceFirst pat rep s')
       end.

(** [s.replace(/pat/g, rep)] for a literal, non-empty pattern: every
    non-overlapping occurrence, left to right.  [skip] counts the
    characters of a match still to be consumed. *)
Fixpoint replaceAll_from (pat rep : string) (skip : nat) (s : string) : string :=
  match s with
  | EmptyString => EmptyString
  | String c s' =>
      match skip with
      | S k => replaceAll_from pat rep k s'
      | 0 =>
          if String.prefix pat s
          then rep ++ replaceAll_from pat rep (String.length pat - 1) s'
          else String c (replaceAll_from pat rep 0 s')
      end
  end.

Definition replaceAll (pat rep s : string) : string := replaceAll_from pat rep 0 s.

(** [s.split(sep)] for a one-character separator. *)
Fixpoint split (sep : ascii) (s : string) : list string :=
  match s with
  | EmptyString => [EmptyString]
  | String c s' =>
      if Ascii.eqb c sep then EmptyString :: split sep s'
      else match split sep s' with
           | h :: t => String c h :: t
           | [] => [String c EmptyString]
           end
  end.

(** [s.split(/\s+/)]: maximal runs of white space separate the pieces. *)
Fixpoint splitSpaces_from (inrun : bool) (s : string) : list string :=
  match s with
  | EmptyString => [EmptyString]
  | String c s' =>
      if is_space c then
        if inrun then splitSpaces_from true s'
        else EmptyString :: splitSpaces_from true s'
      else match splitSpaces_from false s' with
           | h :: t => String c h :: t
           | [] => [String c EmptyString]
           end
  end.

Definition splitSpaces (s : string) : list string := splitSpaces_from false s.

Definition lower_ascii (c : ascii) : ascii :=
  let n := nat_of_ascii c in
  if Nat.leb 65 n && Nat.leb n 90 then ascii_of_nat (n + 32) else c.

Fixpoint toLowerCase (s : string) : string :=
  match s with
  | EmptyString => EmptyString
  | String c s' => String (lower_ascii c) (toLowerCase s')
  end.

Definition upper_ascii (c : ascii) : ascii :=
  let n := nat_of_ascii c in
  if Nat.leb 97 n && Nat.leb n 122 then ascii_of_nat (n - 32) else c.

Fixpoint toUpperCase (s : string) : string :=
  match s with
  | EmptyString => EmptyString
  | String c s' => String (upper_ascii c) (toUpperCase s')
  end.

(** [s.substring(0, n)]. *)
Definition take (n : nat) (s : string) : string := String.substring 0 n s.

(** Decimal rendering of an integer inside a template string. *)
Definition show_Z (z : Z) : string := NilZero.string_of_int (Z.to_int z).

(** Property lookup [obj[key]] on an association list. *)
Fixpoint lookup {A : Type} (key : string) (obj : list (string * A)) : option A :=
  match obj with
  | [] => None
  | (k, v) :: rest => if String.eqb key k then Some v else lookup key rest
  end.

Definition keys {A : Type} (obj : list (string * A)) : list string := map fst obj.

(** The names of the properties that every plain object inherits from
    [Object.prototype]: [obj[name]] is truthy for them, a function or
    (for [__proto__]) the prototype itself, although [name] is no key of
    [obj]. *)
Definition object_prototype_names : list string :=
  [ "constructor"; "__defineGetter__"; "__defineSetter__"; "hasOwnProperty";
    "__lookupGetter__"; "__lookupSetter__"; "isPrototypeOf";
    "propertyIsEnumerable"; "toString"; "valueOf"; "__proto__";
    "toLocaleString" ].

Definition inherits (name : string) : bool :=
  array_includes object_prototype_names name.

(** [o === s] for a possibly [null]/[undefined] string [o]. *)
Definition opt_is (o : option string) (s : string) : bool :=
  match o with Some x => String.eqb x s | None => false end.

End Js.

Import Js.

(** ** The service registry *)

Module Registry.

(** The fields of a service definition that the registry functions read.
    The launch specifications and the health-check closures are not read by
    any function modelled here. *)
Record ServiceDef := {
  name : string;
  type : string;
  critical : bool;
  autoRestart : bool;
  priority : nat;
  dependencies : option (list string);
  deploymentModes : option (list string);
  platformSupport : option (list (string * list string))
}.

Definition all_platforms : list string := ["win32"; "darwin"; "linux"].

Definition SERVICE_DEFINITIONS : list (string * ServiceDef) :=
  [ ("docker",
     {| name := "Docker Engine"; type := "docker-daemon";
        critical := true; autoRestart := true; priority := 1;
        dependencies := Some [];
        deploymentModes := None; platformSupport := None |});
    ("python-backend",
     {| name := "Python Backend Service"; type := "docker-container";
        critical := true; autoRestart := true; priority := 2;
        dependencies := Some ["docker"];
        deploymentModes := Some ["docker"; "manual"; "remote"];
        platformSupport := Some [ ("docker", all_platforms);
                                  ("manual", all_platforms);
                                  ("remote", all_platforms) ] |});
    ("claracore",
     {| name := "Clara Core AI Engine"; type := "binary";
        critical := true; autoRestart := true; priority := 3;
        dependencies := Some ["docker"];
        deploymentModes := Some ["local"; "remote"; "docker"];
        platformSupport := Some [ ("local", all_platforms);
                                  ("remote", all_platforms);
                                  ("docker", ["win32"; "linux"]) ] |});
    ("comfyui",
     {| name := "ComfyUI Image Generation"; type := "docker-container";
        critical := false; autoRestart := true; priority := 4;
        dependencies := Some ["docker"; "python-backend"];
        deploymentModes := Some ["docker"; "manual"; "remote"];
        platformSupport := Some [ ("docker", ["win32"]);
                                  ("manual", all_platforms);
                                  ("remote", all_platforms) ] |});
    ("n8n",
     {| name := "N8N Workflow Engine"; type := "docker-container";
        critical := false; autoRestart := true; priority := 5;
        dependencies := Some ["docker"];
        deploymentModes := Some ["docker"; "manual"; "remote"];
        platformSupport := Some [ ("docker", all_platforms);
                                  ("manual", all_platforms);
                                  ("remote", all_platforms) ] |});
    ("mcp",
     {| name := "Model Context Protocol"; type := "service";
        critical := false; autoRestart := true; priority := 6;
        dependencies := Some ["python-backend"];
        deploymentModes := None; platformSupport := None |});
    ("mcp-proxy",
     {| name := "MCP HTTP Proxy"; type := "http-service";
        critical := false; autoRestart := true; priority := 7;
        dependencies := Some ["mcp"];
        deploymentModes := None; platformSupport := None |}) ].

(** [isServiceModeSupported(serviceName, deploymentMode, targetPlatform)].
    Every [platformSupport] of the table is an object keyed by mode, so the
    [typeof ... === 'object'] branch is the one taken; a mode without an
    entry yields [undefined], which is falsy.  A name that the table only
    inherits (such as [constructor]) yields an object without
    [deploymentModes] and so behaves like a name without entry. *)
Definition isServiceModeSupported
    (serviceName deploymentMode targetPlatform : string) : bool :=
  match lookup serviceName SERVICE_DEFINITIONS with
  | None => String.eqb deploymentMode "docker"
  | Some service =>
      match deploymentModes service with
      | None => String.eqb deploymentMode "docker"
      | Some modes =>
          if negb (array_includes modes deploymentMode) then false
          else
            match platformSupport service with
            | Some support =>
                match lookup deploymentMode support with
                | Some supportedPlatforms =>
                    array_includes supportedPlatforms targetPlatform
                | None => false
                end
            | None => true
            end
      end
  end.

(** [getSupportedDeploymentModes(serviceName, targetPlatform)]. *)
Definition getSupportedDeploymentModes
    (serviceName targetPlatform : string) : list string :=
  match lookup serviceName SERVICE_DEFINITIONS with
  | None => ["docker"]
  | Some service =>
      match deploymentModes service with
      | None => ["docker"]
      | Some modes =>
          filter (fun mode => isServiceModeSupported serviceName mode targetPlatform)
                 modes
      end
  end.

(** *** Dependency validation *)

(** The state threaded through the depth-first traversal: the error list
    of the enclosing function and the two local sets.  A JavaScript [Set]
    keeps insertion order, so both are lists; [visited] has the most
    recently finished node first. *)
Record Traversal := {
  errors : list string;
  visited : list string;
  temp : list string
}.

Inductive Outcome :=
| Done (st : Traversal)
| Thrown (errs : list string) (message : string)
| Exhausted.

Definition set_has (s : list string) (x : string) : bool := array_includes s x.
Definition set_add (x : string) (s : list string) : list string :=
  if set_has s x then s else x :: s.
Definition set_delete (x : string) (s : list string) : list string :=
  filter (fun y => negb (String.eqb x y)) s.

(** [arr.forEach(f)] for a callback that may throw. *)
Fixpoint forEach (f : string -> Traversal -> Outcome)
    (arr : list string) (st : Traversal) : Outcome :=
  match arr with
  | [] => Done st
  | x :: rest =>
      match f x st with
      | Done st' => forEach f rest st'
      | other => other
      end
  end.

Definition undefined_forEach : string :=
  "Cannot read properties of undefined (reading 'forEach')".

Definition forEach_not_a_function : string :=
  "dependencies[node].forEach is not a function".

(** The [TypeError] raised by [dependencies[node].forEach(visit)] when
    [node] is no key of [dependencies]: the property is [undefined], or an
    inherited one without a method [forEach]. *)
Definition no_dependencies (node : string) : string :=
  if inherits node then forEach_not_a_function else undefined_forEach.

Definition cycle_prefix : string := "Circular dependency detected involving ".

(** The closure [visit] of [validateServiceConfiguration].  [fuel] bounds
    the depth of the call stack. *)
Fixpoint visit (deps : list (string * list string)) (fuel : nat)
    (node : string) (st : Traversal) : Outcome :=
  match fuel with
  | 0 => Exhausted
  | S fuel' =>
      if set_has (temp st) node then
        Done {| errors := List.app (errors st) [cycle_prefix ++ node];
                visited := visited st; temp := temp st |}
      else if negb (set_has (visited st) node) then
        let st1 := {| errors := errors st; visited := visited st;
                      temp := set_add node (temp st) |} in
        match lookup node deps with
        | None => Thrown (errors st1) (no_dependencies node)
        | Some ds =>
            match forEach (visit deps fuel') ds st1 with
            | Done st2 =>
                Done {| errors := errors st2;
                        visited := set_add node (visited st2);
                        temp := set_delete node (temp st2) |}
            | other => other
            end
        end
      else Done st
  end.

(** The object [dependencies] built from [services]. *)
Definition dependency_table (services : list (string * ServiceDef))
  : list (string * list string) :=
  map (fun entry => (fst entry,
                     match dependencies (snd entry) with
                     | Some ds => ds
                     | None => []
                     end)) services.

Definition stack_overflow : string := "Maximum call stack size exceeded".

(** [Object.keys(dependencies).forEach(visit)] with fresh sets. *)
Definition search (deps : list (string * list string)) : Outcome :=
  forEach (visit deps (S (List.length deps))) (keys deps)
          {| errors := []; visited := []; temp := [] |}.

(** The first half of the function: the guarded cycle search. *)
Definition cycle_errors (services : list (string * ServiceDef)) : list string :=
  match search (dependency_table services) with
  | Done st => errors st
  | Thrown errs message =>
      List.app errs ["Dependency validation failed: " ++ message]
  | Exhausted => ["Dependency validation failed: " ++ stack_overflow]
  end.

(** [!services[dep]]: [dep] is neither a key of [services] nor the name
    of a property that [services] inherits. *)
Definition falsy_in (services : list (string * ServiceDef)) (dep : string) : bool :=
  match lookup dep services with
  | Some _ => false
  | None => negb (inherits dep)
  end.

(** The second half: every dependency for which [services[dep]] is
    falsy. *)
Definition missing_errors (services : list (string * ServiceDef)) : list string :=
  flat_map
    (fun entry =>
       match dependencies (snd entry) with
       | None => []
       | Some ds =>
           flat_map
             (fun dep =>
                if falsy_in services dep
                then ["Service " ++ fst entry ++ " depends on " ++ dep
                        ++ " which is not enabled"]
                else []) ds
       end) services.

(** [validateServiceConfiguration(services)].  The keys of [services] are
    service names: an association list does not stand for an object with
    an own key [__proto__], which [dependencies[name] = ...] would turn
    into the prototype of [dependencies]. *)
Definition validateServiceConfiguration (services : list (string * ServiceDef))
  : list string :=
  List.app (cycle_errors services) (missing_errors services).

Definition is_cycle_error (e : string) : bool := startsWith e cycle_prefix.
Definition is_missing_error (e : string) : bool :=
  startsWith e "Service " && includes e " which is not enabled".

(** *** Vocabulary of the statements *)

(** A name falls back to the default when the table has no entry for it or
    when its entry declares no [deploymentModes]. *)
Definition defaults_to_docker (serviceName : string) : Prop :=
  lookup serviceName SERVICE_DEFINITIONS = None \/
  exists service,
    lookup serviceName SERVICE_DEFINITIONS = Some service /\
    deploymentModes service = None.

(** An edge of the dependency graph over the enabled services. *)
Definition depends_on (services : list (string * ServiceDef)) (a b : string) : Prop :=
  exists service deps,
    lookup a services = Some service /\
    dependencies service = Some deps /\
    In b deps.

(** Every declared dependency names an enabled service. *)
Definition all_resolved (services : list (string * ServiceDef)) : Prop :=
  forall service_name service deps dep,
    In (service_name, service) services ->
    dependencies service = Some deps ->
    In dep deps ->
    lookup dep services <> None.

(** An edge of the dependency table built by the validation. *)
Definition edge (deps : list (string * list string)) (a b : string) : Prop :=
  exists ds, lookup a deps = Some ds /\ In b ds.

(** Every node of the table has its successors in the table. *)
Definition closed (deps : list (string * list string)) : Prop :=
  forall a b, edge deps a b -> lookup b deps <> None.

(** A list of nodes, most recently finished first, in which every node has
    all its successors strictly behind it. *)
Fixpoint finished_in_order (deps : list (string * list string))
    (l : list string) : Prop :=
  match l with
  | [] => True
  | v :: rest =>
      finished_in_order deps rest /\ ~ In v rest /\
      forall d, edge deps v d -> In d rest
  end.

(** The errors carried by an outcome of the traversal. *)
Definition outcome_errors (o : Outcome) : option (list string) :=
  match o with
  | Done st => Some (errors st)
  | Thrown errs _ => Some errs
  | Exhausted => None
  end.

(** Errors are only appended, and the traversal itself appends nothing but
    circular-dependency errors. *)
Definition appends (before : list string) (o : Outcome) : Prop :=
  match outcome_errors o with
  | Some after =>
      exists more, after = List.app before more /\
                   Forall (fun e => is_cycle_error e = true) more
  | None => True
  end.

(** The nodes on [temp] are distinct keys, and the remaining fuel covers
    the keys not yet on it. *)
Definition stack_fits (deps : list (string * list string)) (fuel : nat)
    (st : Traversal) : Prop :=
  NoDup (temp st) /\ incl (temp st) (keys deps) /\
  List.length (keys deps) < fuel + List.length (temp st).

Definition acyclic (deps : list (string * list string)) : Prop :=
  forall a, ~ clos_trans string (edge deps) a a.

(** Every node on [temp] reaches [node]. *)
Definition below (deps : list (string * list string)) (st : Traversal)
    (node : string) : Prop :=
  forall t, In t (temp st) -> clos_trans string (edge deps) t node.

(** A visit of [x] keeps [visited] in finishing order and puts [x] in it. *)
Definition finishes (deps : list (string * list string)) (x : string)
    (st st' : Traversal) : Prop :=
  finished_in_order deps (visited st) ->
  finished_in_order deps (visited st') /\ In x (visited st') /\
  incl (visited st) (visited st').

(** [service.dependencies || []]. *)
Definition deps_of (service : ServiceDef) : list string :=
  match dependencies service with Some ds => ds | None => [] end.

(** A cycle among the enabled services. *)
Definition has_cycle (services : list (string * ServiceDef)) : Prop :=
  exists a, clos_trans string (depends_on services) a a.

(** *** Service selection *)

(** The feature flags read by [getEnabledServices]. *)
Record Features := {
  comfyUI : bool;
  n8n : bool
}.

Definition coreServices : list string := ["docker"; "python-backend"; "claracore"].

(** The entry [name: SERVICE_DEFINITIONS[name]], present when the table
    defines [name]. *)
Definition definition_of (serviceName : string) : list (string * ServiceDef) :=
  match lookup serviceName SERVICE_DEFINITIONS with
  | Some definition => [(serviceName, definition)]
  | None => []
  end.

(** [getEnabledServices(selectedFeatures)]: the optional services are
    assigned first, then the core services; the table defines both
    optional services. *)
Definition getEnabledServices (selectedFeatures : Features)
  : list (string * ServiceDef) :=
  List.app (if comfyUI selectedFeatures then definition_of "comfyui" else [])
    (List.app (if n8n selectedFeatures then definition_of "n8n" else [])
              (flat_map definition_of coreServices)).

(** The effect of spreading the properties of an override object over a
    service definition. *)
Definition Override : Type := ServiceDef -> ServiceDef.

Definition PLATFORM_OVERRIDES : list (string * list (string * Override)) :=
  [ ("darwin", []); ("linux", []); ("win32", []) ].

(** [obj[key] = f(obj[key])] for a key of [obj]. *)
Definition update_entry (key : string) (f : Override)
    (obj : list (string * ServiceDef)) : list (string * ServiceDef) :=
  map (fun entry => if String.eqb (fst entry) key
                    then (fst entry, f (snd entry)) else entry) obj.

(** [applyPlatformOverrides(services)] on the platform [platform]. *)
Definition applyPlatformOverrides (platform : string)
    (services : list (string * ServiceDef)) : list (string * ServiceDef) :=
  let platformOverrides :=
    match lookup platform PLATFORM_OVERRIDES with
    | Some overrides => overrides
    | None => []
    end in
  fold_left
    (fun result override =>
       match lookup (fst override) result with
       | Some _ => update_entry (fst override) (snd override) result
       | None => result
       end)
    platformOverrides services.

(** [getServiceConfiguration(selectedFeatures)]. *)
Definition getServiceConfiguration (platform : string)
    (selectedFeatures : Features) : list (string * ServiceDef) :=
  applyPlatformOverrides platform (getEnabledServices selectedFeatures).

Definition HEALTH_CHECK_TIMEOUTS : list (string * N) :=
  [ ("docker-daemon", 10000%N); ("docker-container", 15000%N);
    ("binary", 5000%N); ("service", 3000%N) ].

(** What [getHealthCheckTimeout] returns: a number of milliseconds or,
    for a type that names a property inherited by the table, that
    property, which is no number. *)
Inductive TimeoutValue :=
| Milliseconds (n : N)
| InheritedProperty (name : string).

(** [getHealthCheckTimeout(service)]: [HEALTH_CHECK_TIMEOUTS[service.type]
    || 5000]. *)
Definition getHealthCheckTimeout (service : ServiceDef) : TimeoutValue :=
  match lookup (type service) HEALTH_CHECK_TIMEOUTS with
  | Some 0%N => Milliseconds 5000
  | Some timeout => Milliseconds timeout
  | None =>
      if inherits (type service) then InheritedProperty (type service)
      else Milliseconds 5000
  end.

(** *** Compatibility *)

(** The property [manual] of a service definition. *)
Record ManualConfig := {
  urlRequired : bool;
  defaultUrl : string;
  healthEndpoint : string;
  configKey : string;
  description : string
}.

(** [SERVICE_DEFINITIONS[serviceName].manual] on the platform [platform]:
    the default URL of the Python backend depends on [isLinux]. *)
Definition manual_of (platform serviceName : string) : option ManualConfig :=
  if String.eqb serviceName "python-backend" then
    Some {| urlRequired := true;
            defaultUrl := "http://localhost:"
                            ++ (if String.eqb platform "linux" then "5000" else "5001");
            healthEndpoint := "/health";
            configKey := "python_backend_url";
            description := "Bring Your Own Python Backend - Connect to external Python Backend instance" |}
  else if String.eqb serviceName "claracore" then
    Some {| urlRequired := true;
            defaultUrl := "http://localhost:8091";
            healthEndpoint := "/health";
            configKey := "claracore_url";
            description := "Connect to external ClaraCore instance (local, remote, or docker)" |}
  else if String.eqb serviceName "comfyui" then
    Some {| urlRequired := true;
            defaultUrl := "http://localhost:8188";
            healthEndpoint := "/";
            configKey := "comfyui_url";
            description := "Bring Your Own ComfyUI - Connect to external ComfyUI instance" |}
  else if String.eqb serviceName "n8n" then
    Some {| urlRequired := true;
            defaultUrl := "http://localhost:5678";
            healthEndpoint := "/healthz";
            configKey := "n8n_url";
            description := "Bring Your Own N8N - Connect to external N8N instance" |}
  else None.

(** An entry of the object returned by [getPlatformCompatibility]. *)
Record Compatibility := {
  compat_name : string;
  compat_critical : bool;
  supportedModes : list string;
  dockerSupported : bool;
  manualSupported : bool;
  manualConfig : option ManualConfig
}.

(** [getPlatformCompatibility(targetPlatform)]. *)
Definition getPlatformCompatibility (platform targetPlatform : string)
  : list (string * Compatibility) :=
  map (fun entry =>
         let serviceName := fst entry in
         let service := snd entry in
         (serviceName,
          {| compat_name := name service;
             compat_critical := critical service;
             supportedModes := getSupportedDeploymentModes serviceName targetPlatform;
             dockerSupported := isServiceModeSupported serviceName "docker" targetPlatform;
             manualSupported := isServiceModeSupported serviceName "manual" targetPlatform;
             manualConfig := manual_of platform serviceName |}))
      SERVICE_DEFINITIONS.

(** The body of the loop of [getCompatibleServices] for one service: the
    entry [{...service, deploymentMode}] it adds, if any. *)
Definition assign_mode (serviceName : string) (service : ServiceDef)
    (preferredMode targetPlatform : string)
  : list (string * (ServiceDef * string)) :=
  if isServiceModeSupported serviceName preferredMode targetPlatform then
    [(serviceName, (service, preferredMode))]
  else
    match getSupportedDeploymentModes serviceName targetPlatform with
    | first_mode :: _ => [(serviceName, (service, first_mode))]
    | [] => []
    end.

(** [getCompatibleServices(selectedFeatures, preferredMode,
    targetPlatform)]; each service of the result is paired with its
    [deploymentMode]. *)
Definition getCompatibleServices (platform : string)
    (selectedFeatures : Features) (preferredMode targetPlatform : string)
  : list (string * (ServiceDef * string)) :=
  flat_map
    (fun entry => assign_mode (fst entry) (snd entry) preferredMode targetPlatform)
    (applyPlatformOverrides platform (getEnabledServices selectedFeatures)).

(** The deployment mode assigned to each service of a result of
    [getCompatibleServices]. *)
Definition assigned_modes (compatible : list (string * (ServiceDef * string)))
  : list (string * string) :=
  map (fun entry => (fst entry, snd (snd entry))) compatible.

(** The platforms that the registry names. *)
Definition known_platform (targetPlatform : string) : Prop :=
  In targetPlatform all_platforms.

(** The message reported for a dependency that is not enabled. *)
Definition missing_message (serviceName dep : string) : string :=
  "Service " ++ serviceName ++ " depends on " ++ dep ++ " which is not enabled".

(** *** Manual health checks *)

(** [s.replace(/\/+/g, '/')]: every run of slashes becomes one slash;
    [inrun] tells whether the previous character was a slash. *)
Fixpoint collapse_slashes_from (inrun : bool) (s : string) : string :=
  match s with
  | EmptyString => EmptyString
  | String c s' =>
      if Ascii.eqb c "/"%char then
        if inrun then collapse_slashes_from true s'
        else String c (collapse_slashes_from true s')
      else String c (collapse_slashes_from false s')
  end.

Definition collapse_slashes (s : string) : string :=
  collapse_slashes_from false s.

(** The address probed by the function that [createManualHealthCheck]
    returns. *)
Definition health_endpoint (serviceUrl healthEndpoint : string) : string :=
  replaceFirst ":/" "://" (collapse_slashes (serviceUrl ++ healthEndpoint)).

(** A text without the character [c]. *)
Definition without (c : ascii) (s : string) : Prop :=
  includes s (String c EmptyString) = false.

End Registry.

(** ** The remote deployment service *)

Module Remote.

(** *** The remote machine *)

(** An error object of the SSH client: [message], [level] and [code]. *)
Record SshError := {
  err_message : string;
  err_level : option string;
  err_code : option string
}.

(** What [conn.exec] can lead to: the callback receives an error; the
    stream closes with an exit code after emitting the given stdout and
    stderr chunks; or the connection emits ['error'] while the command is
    pending. *)
Inductive Reply :=
| ExecFailed (message : string)
| StreamClosed (code : option Z) (stdout stderr : list string)
| ConnectionLost (err : SshError).

(** A reply arrives after [ms] milliseconds, or never. *)
Inductive Response :=
| NoReply
| ReplyAfter (ms : N) (r : Reply).

Inductive Handshake :=
| Ready (ms : N)
| Refused (ms : N) (err : SshError)
| Silent.

Record ConnectOptions := {
  opt_host : string;
  opt_port : N;
  opt_username : string;
  opt_password : option string;
  opt_readyTimeout : N
}.

(** The remote machine as seen through the SSH client: an arbitrary state
    machine answering connection attempts and commands. *)
Record Target (H : Type) := {
  on_connect : ConnectOptions -> H -> H * Handshake;
  on_exec : string -> H -> H * Response
}.
Arguments on_connect {H}.
Arguments on_exec {H}.

Record Config := {
  host : string;
  port : option N;
  username : string;
  password : option string;
  hardwareType : string
}.

(** [config.port || 22]. *)
Definition port_or_22 (config : Config) : N :=
  match port config with
  | Some 0%N | None => 22%N
  | Some p => p
  end.

(** *** Results *)

Record Details := {
  docker : bool;
  nvidia : bool;
  rocm : bool;
  strix : bool;
  architecture : string;
  dockerVersion : option string;
  gpuInfo : option string;
  cudaVersion : option string;
  rocmVersion : option string;
  cpuModel : option string
}.

Record Hardware := {
  detected : string;
  confidence : string;
  details : Details;
  error : option string;
  unsupportedReason : option string
}.

Inductive SetupResult :=
| SetupOk (hardware : Hardware)
| SetupFailed (error : string).

(** The properties of a successful result; [deployedHardwareType] is its
    property [hardwareType]. *)
Record Deployment := {
  url : string;
  containerName : string;
  deployedHardwareType : string;
  gpuAvailable : bool;
  fallbackToCpu : bool;
  message : string
}.

(** [{success: true, ...}] or [{success: false, error}]. *)
Inductive DeployResult :=
| Deployed (d : Deployment)
| DeployFailed (error : string).

Definition success (r : DeployResult) : bool :=
  match r with Deployed _ => true | DeployFailed _ => false end.

Record ServiceStatus := {
  svc_name : string;
  svc_hardwareType : string;
  svc_status : string;
  svc_isHealthy : bool;
  svc_ports : string;
  svc_url : option string
}.

Record MonitorResult := {
  mon_host : string;
  services : list ServiceStatus;
  totalServices : nat;
  runningServices : nat;
  healthyServices : nat;
  timestamp : N
}.

(** How the promise returned by a public operation settles. *)
Inductive Settled (A : Type) :=
| Resolved (value : A)
| Rejected (message : string).
Arguments Resolved {A}.
Arguments Rejected {A}.

(** *** The command monad *)

(** While an asynchronous handler waits at an [await], another callback of
    the enclosing promise can run: the timer or the ['error'] listener. *)
Inductive Interrupt :=
| TimerFired
| ErrorEvent (err : SshError).

Inductive Out (A : Type) :=
| Ok (a : A)
| Throw (message : string)
| Suspended (i : Interrupt).
Arguments Ok {A}.
Arguments Throw {A}.
Arguments Suspended {A}.

Section WithTarget.

Context {H : Type} (T : Target H).

(** The service instance together with its surroundings: the remote
    machine, a virtual clock in milliseconds, the expiry time of the timer
    armed by the running operation, the field [this.sudoPassword], and the
    commands handed to [conn.exec] so far. *)
Record World := {
  remote : H;
  now : N;
  deadline : N;
  sudoPassword : option string;
  sent : list string
}.

Definition M (A : Type) : Type := World -> World * Out A.

Definition ret {A} (a : A) : M A := fun w => (w, Ok a).
Definition throw {A} (message : string) : M A := fun w => (w, Throw message).

Definition bind {A B} (m : M A) (k : A -> M B) : M B :=
  fun w =>
    match m w with
    | (w', Ok a) => k a w'
    | (w', Throw e) => (w', Throw e)
    | (w', Suspended i) => (w', Suspended i)
    end.

(** [try { m } catch (error) { handler(error.message) }]. *)
Definition try_catch {A} (m : M A) (handler : string -> M A) : M A :=
  fun w =>
    match m w with
    | (w', Throw e) => handler e w'
    | other => other
    end.

Notation "x <- m ;; k" := (bind m (fun x => k))
  (at level 61, m at next level, right associativity).
Notation "m ;;; k" := (bind m (fun _ => k))
  (at level 61, right associativity).

Fixpoint forM {A B} (xs : list A) (f : A -> M B) : M (list B) :=
  match xs with
  | [] => ret []
  | x :: rest => y <- f x ;; ys <- forM rest f ;; ret (y :: ys)
  end.

Definition set_now (t : N) (w : World) : World :=
  {| remote := remote w; now := t; deadline := deadline w;
     sudoPassword := sudoPassword w; sent := sent w |}.

Definition set_deadline (t : N) (w : World) : World :=
  {| remote := remote w; now := now w; deadline := t;
     sudoPassword := sudoPassword w; sent := sent w |}.

Definition set_sudoPassword (p : option string) (w : World) : World :=
  {| remote := remote w; now := now w; deadline := deadline w;
     sudoPassword := p; sent := sent w |}.

Definition set_remote (h : H) (w : World) : World :=
  {| remote := h; now := now w; deadline := deadline w;
     sudoPassword := sudoPassword w; sent := sent w |}.

Definition record_sent (command : string) (h : H) (w : World) : World :=
  {| remote := h; now := now w; deadline := deadline w;
     sudoPassword := sudoPassword w; sent := List.app (sent w) [command] |}.

(** Waiting [ms] milliseconds: the timer fires first when it expires no
    later than the wait ends. *)
Definition wait (ms : N) : M unit :=
  fun w =>
    if (deadline w <=? now w + ms)%N
    then (set_now (deadline w) w, Suspended TimerFired)
    else (set_now (now w + ms) w, Ok tt).

(** [this.sleep(ms)]. *)
Definition sleep (ms : N) : M unit := wait ms.

(** [conn.exec(command, callback)] up to the close of the stream. *)
Definition conn_exec (command : string)
  : M (option Z * list string * list string) :=
  fun w =>
    let (h, resp) := on_exec T command (remote w) in
    let w1 := record_sent command h w in
    match resp with
    | NoReply => (set_now (deadline w1) w1, Suspended TimerFired)
    | ReplyAfter ms r =>
        match wait ms w1 with
        | (w2, Ok _) =>
            match r with
            | ExecFailed e => (w2, Throw e)
            | StreamClosed code out err => (w2, Ok (code, out, err))
            | ConnectionLost err => (w2, Suspended (ErrorEvent err))
            end
        | (w2, Throw e) => (w2, Throw e)
        | (w2, Suspended i) => (w2, Suspended i)
        end
    end.

Definition single_quote_escape (s : string) : string :=
  replaceAll "'" "'\''" s.

(** [command.replace(/^sudo\s+/, 'sudo -S ')]. *)
Definition replace_leading_sudo (command : string) : string :=
  if startsWith command "sudo" then
    let rest := drop 4 command in
    match rest with
    | String c _ =>
        if is_space c then "sudo -S " ++ trimStart rest else command
    | EmptyString => command
    end
  else command.

(** The command line actually sent: how [execCommand] and
    [execCommandWithOutput] feed the stored password to [sudo]. *)
Definition sudo_wrap (stored : option string) (command : string) : string :=
  match stored with
  | Some pw =>
      if truthy pw && includes command "sudo" then
        let escapedPassword := single_quote_escape pw in
        if includes command "|" && includes command "sudo" then
          "bash -c " ++ dq ++ "echo '" ++ escapedPassword ++ "' | "
            ++ replaceAll "sudo" "sudo -S" command ++ dq
        else if startsWith (trim command) "sudo " then
          "echo '" ++ escapedPassword ++ "' | " ++ replace_leading_sudo command
        else command
      else command
  | None => command
  end.

Definition concat_chunks (chunks : list string) : string :=
  fold_right String.append EmptyString chunks.

(** [execCommand(conn, command)]: resolves with [output || errorOutput]
    whatever the exit code; rejects only when [conn.exec] reports an
    error. *)
Definition execCommand (command : string) : M string :=
  fun w =>
    (r <- conn_exec (sudo_wrap (sudoPassword w) command) ;;
     let '(_, out, err) := r in
     ret (or_else (concat_chunks out) (concat_chunks err))) w.

Definition stderr_capture (chunks : list string) : string :=
  concat_chunks
    (map (fun chunk => trim chunk ++ nl)
         (filter (fun chunk => truthy (trim chunk)) chunks)).

Definition show_code (code : option Z) : string :=
  match code with Some z => show_Z z | None => "null" end.

(** [execCommandWithOutput(conn, command)]: resolves on exit code 0 and
    rejects otherwise with the captured stderr. *)
Definition execCommandWithOutput (command : string) : M unit :=
  fun w =>
    (r <- conn_exec (sudo_wrap (sudoPassword w) command) ;;
     let '(code, _, err) := r in
     match code with
     | Some 0%Z => ret tt
     | _ =>
         let stderrOutput := stderr_capture err in
         if truthy stderrOutput
         then throw ("Command failed with code " ++ show_code code ++ ": "
                       ++ stderrOutput)
         else throw ("Command failed with code " ++ show_code code)
     end) w.

(** *** Hardware detection *)

Definition cmd_arch : string := "uname -m".
Definition cmd_docker_version : string := "docker --version 2>/dev/null".
Definition cmd_nvidia : string :=
  "nvidia-smi --query-gpu=name --format=csv,noheader 2>/dev/null".
Definition cmd_nvcc : string :=
  "nvcc --version 2>/dev/null | grep " ++ dq ++ "release" ++ dq
    ++ " | awk '{print $5}'".
Definition cmd_rocm : string := "rocm-smi --showproductname 2>/dev/null".
Definition cmd_rocm_version : string := "cat /opt/rocm/.info/version 2>/dev/null".
Definition cmd_lscpu : string := "lscpu | grep " ++ dq ++ "Model name" ++ dq.

Definition absent (out : string) : bool := includes out "command not found".

Definition isARM (arch : string) : bool :=
  includes arch "arm" || includes arch "aarch".

Definition arm_message (arch : string) : string :=
  "ARM architecture (" ++ arch ++ ") is not supported yet. ClaraCore Docker "
    ++ "images are currently only available for x86_64/amd64 architecture.".

(** [detectHardware(conn)].  The surrounding [try]/[catch] only logs and
    rethrows. *)
Definition detectHardware : M Hardware :=
  archInfo <- execCommand cmd_arch ;;
  let arch := if truthy archInfo then trim archInfo else "unknown" in
  dockerOut <- execCommand cmd_docker_version ;;
  let hasDocker := truthy dockerOut && negb (absent dockerOut) in
  nvidiaInfo <- execCommand cmd_nvidia ;;
  let hasNvidia :=
    truthy nvidiaInfo && negb (absent nvidiaInfo) && truthy (trim nvidiaInfo) in
  cuda <- (if hasNvidia then
             cudaOut <- execCommand cmd_nvcc ;;
             ret (if truthy cudaOut && truthy (trim cudaOut)
                  then Some (replaceFirst "," EmptyString (trim cudaOut))
                  else None)
           else ret None) ;;
  rocmInfo <- execCommand cmd_rocm ;;
  let hasRocm :=
    truthy rocmInfo && negb (absent rocmInfo) && truthy (trim rocmInfo) in
  rocmVer <- (if hasRocm then
                rocmOut <- execCommand cmd_rocm_version ;;
                ret (if truthy rocmOut && truthy (trim rocmOut)
                     then Some (trim rocmOut) else None)
              else ret None) ;;
  cpuInfo <- execCommand cmd_lscpu ;;
  let hasStrix :=
    truthy cpuInfo &&
    (includes cpuInfo "Ryzen AI Max" || includes cpuInfo "Strix"
     || includes cpuInfo "8040") in
  let d := {| docker := hasDocker; nvidia := hasNvidia; rocm := hasRocm;
              strix := hasStrix; architecture := arch;
              dockerVersion := if hasDocker then Some (trim dockerOut) else None;
              gpuInfo := if hasNvidia then Some (trim nvidiaInfo) else None;
              cudaVersion := cuda; rocmVersion := rocmVer;
              cpuModel := if truthy cpuInfo
                          then Some (trim (replaceFirst "Model name:" EmptyString cpuInfo))
                          else None |} in
  if isARM (architecture d) then
    ret {| detected := "unsupported"; confidence := "high"; details := d;
           error := Some (arm_message (architecture d));
           unsupportedReason := Some "arm" |}
  else if nvidia d then
    ret {| detected := "cuda";
           confidence := if truthy_opt (cudaVersion d) then "high" else "medium";
           details := d; error := None; unsupportedReason := None |}
  else if strix d then
    ret {| detected := "strix"; confidence := "high"; details := d;
           error := None; unsupportedReason := None |}
  else if rocm d then
    ret {| detected := "rocm"; confidence := "high"; details := d;
           error := None; unsupportedReason := None |}
  else
    ret {| detected := "cpu"; confidence := "high"; details := d;
           error := None; unsupportedReason := None |}.

(** *** Prerequisites *)

(** [checkDocker(conn)]. *)
Definition checkDocker : M bool :=
  try_catch
    (result <- execCommand cmd_docker_version ;;
     ret (truthy result && negb (absent result)))
    (fun _ => ret false).

(** [detectDistro(osRelease)]. *)
Definition detectDistro (osRelease : string) : string :=
  if includes osRelease "Ubuntu" then "Ubuntu"
  else if includes osRelease "Debian" then "Debian"
  else if includes osRelease "Fedora" then "Fedora"
  else if includes osRelease "CentOS" then "CentOS"
  else if includes osRelease "Red Hat" then "RHEL"
  else if includes osRelease "Arch" then "Arch Linux"
  else "Unknown Linux".

(** [installDocker(conn)]. *)
Definition installDocker : M unit :=
  try_catch
    (osRelease <- execCommand "cat /etc/os-release" ;;
     let distro := detectDistro osRelease in
     execCommand "curl -fsSL https://get.docker.com -o /tmp/get-docker.sh" ;;;
     execCommandWithOutput "sudo sh /tmp/get-docker.sh" ;;;
     execCommand "rm /tmp/get-docker.sh" ;;;
     username <- execCommand "whoami" ;;
     let user := or_else (trim username) "ubuntu" in
     execCommand ("sudo usermod -aG docker " ++ user) ;;;
     execCommand "sudo systemctl start docker" ;;;
     execCommand "sudo systemctl enable docker" ;;;
     ret tt)
    (fun e => throw ("Failed to install Docker: " ++ e)).

Definition nvidia_apt_commands : list string :=
  [ "curl -fsSL https://nvidia.github.io/libnvidia-container/gpgkey | sudo gpg --dearmor -o /usr/share/keyrings/nvidia-container-toolkit-keyring.gpg";
    "curl -s -L https://nvidia.github.io/libnvidia-container/stable/deb/nvidia-container-toolkit.list | sed 's#deb https://#deb [signed-by=/usr/share/keyrings/nvidia-container-toolkit-keyring.gpg] https://#g' | sudo tee /etc/apt/sources.list.d/nvidia-container-toolkit.list";
    "sudo apt-get update";
    "sudo apt-get install -y nvidia-container-toolkit" ].

Definition nvidia_yum_commands : list string :=
  [ "curl -s -L https://nvidia.github.io/libnvidia-container/stable/rpm/nvidia-container-toolkit.repo | sudo tee /etc/yum.repos.d/nvidia-container-toolkit.repo";
    "sudo yum install -y nvidia-container-toolkit" ].

(** [installNvidiaToolkitApt(conn)]. *)
Definition installNvidiaToolkitApt : M unit :=
  forM nvidia_apt_commands execCommandWithOutput ;;; ret tt.

(** [installNvidiaToolkitYum(conn)]. *)
Definition installNvidiaToolkitYum : M unit :=
  forM nvidia_yum_commands execCommandWithOutput ;;; ret tt.

Definition no_nvidia_drivers : string :=
  "NVIDIA drivers not found. Please install NVIDIA drivers first.".

(** [setupCuda(conn)].  The surrounding [try]/[catch] only logs and
    rethrows. *)
Definition setupCuda : M unit :=
  nvidiaCheck <- execCommand "nvidia-smi 2>/dev/null" ;;
  (if negb (truthy nvidiaCheck) || absent nvidiaCheck
   then throw no_nvidia_drivers else ret tt) ;;;
  hasToolkit <- execCommand "which nvidia-ctk 2>/dev/null" ;;
  (if negb (truthy hasToolkit) || negb (truthy (trim hasToolkit)) then
     hasApt <- execCommand "which apt-get 2>/dev/null" ;;
     hasYum <- execCommand "which yum 2>/dev/null" ;;
     if truthy hasApt && truthy (trim hasApt) then installNvidiaToolkitApt
     else if truthy hasYum && truthy (trim hasYum) then installNvidiaToolkitYum
     else throw "Unsupported package manager. Only apt and yum are supported."
   else ret tt) ;;;
  execCommand "sudo nvidia-ctk runtime configure --runtime=docker" ;;;
  execCommand "sudo systemctl daemon-reload" ;;;
  execCommand "sudo systemctl restart docker" ;;;
  sleep 3000 ;;;
  dockerContext <- execCommand "docker context show 2>/dev/null" ;;
  (if truthy dockerContext && includes dockerContext "desktop-linux" then
     execCommand "docker context use default" ;;;
     username <- execCommand "whoami" ;;
     let user := trim username in
     execCommand ("sudo usermod -aG docker " ++ user) ;;;
     ret tt
   else ret tt) ;;;
  execCommand "docker info 2>/dev/null | grep -i runtime" ;;;
  ret tt.

Definition cmd_test_kfd : string :=
  "test -e /dev/kfd && echo " ++ dq ++ "exists" ++ dq ++ " || echo "
    ++ dq ++ "missing" ++ dq.
Definition cmd_test_dri : string :=
  "test -e /dev/dri && echo " ++ dq ++ "exists" ++ dq ++ " || echo "
    ++ dq ++ "missing" ++ dq.

(** [setupRocm(conn)]. *)
Definition setupRocm : M unit :=
  kfdCheck <- execCommand cmd_test_kfd ;;
  (if String.eqb (trim kfdCheck) "missing" then
     throw ("ROCm device /dev/kfd not found. Please install ROCm drivers first."
              ++ nl ++ nl ++ "Installation guide: https://rocmdocs.amd.com/en/latest/Installation_Guide/Installation-Guide.html")
   else ret tt) ;;;
  driCheck <- execCommand cmd_test_dri ;;
  (if String.eqb (trim driCheck) "missing" then
     throw "Device /dev/dri not found. AMD GPU drivers may not be installed correctly."
   else ret tt) ;;;
  username <- execCommand "whoami" ;;
  let user := trim username in
  execCommand ("sudo usermod -a -G video,render " ++ user) ;;;
  ret tt.

(** [setupStrix(conn)]. *)
Definition setupStrix : M unit :=
  driCheck <- execCommand cmd_test_dri ;;
  (if String.eqb (trim driCheck) "missing" then
     throw ("Device /dev/dri not found. AMD GPU drivers (amdgpu) may not be installed."
              ++ nl ++ nl ++ "Please ensure the Linux kernel has amdgpu drivers loaded.")
   else ret tt) ;;;
  vulkanCheck <- execCommand "which vulkaninfo 2>/dev/null" ;;
  (if negb (truthy vulkanCheck) || negb (truthy (trim vulkanCheck)) then
     osRelease <- execCommand "cat /etc/os-release" ;;
     let distro := detectDistro osRelease in
     (if includes osRelease "Ubuntu" || includes osRelease "Debian" then
        execCommandWithOutput "sudo apt-get update" ;;;
        execCommandWithOutput "sudo apt-get install -y mesa-vulkan-drivers vulkan-tools libvulkan1"
      else if includes osRelease "Fedora" || includes osRelease "Red Hat"
              || includes osRelease "CentOS" then
        execCommandWithOutput "sudo dnf install -y mesa-vulkan-drivers vulkan-tools vulkan-loader"
      else if includes osRelease "Arch" then
        execCommandWithOutput "sudo pacman -S --noconfirm vulkan-radeon vulkan-tools"
      else
        throw ("Unsupported distribution: " ++ distro
                 ++ ". Please install mesa-vulkan-drivers and vulkan-tools manually.")) ;;;
     execCommand ("vulkaninfo --summary 2>&1 | grep -i " ++ dq
                    ++ "Vulkan Instance Version" ++ dq ++ " || echo " ++ dq
                    ++ "failed" ++ dq) ;;;
     ret tt
   else
     execCommand ("vulkaninfo --summary 2>&1 | grep -i " ++ dq ++ "deviceName"
                    ++ dq ++ " || echo " ++ dq ++ "none" ++ dq) ;;;
     ret tt) ;;;
  username <- execCommand "whoami" ;;
  let user := trim username in
  execCommand ("sudo usermod -a -G video,render " ++ user) ;;;
  ret tt.

(** [buildDockerRunCommand(hardwareType, containerName, imageName)]. *)
Definition buildDockerRunCommand (hardwareType containerName imageName : string)
  : string :=
  let baseCmd :=
    "docker run -d --name " ++ containerName
      ++ " --network clara_network --restart unless-stopped -p 8091:5890 -p 5890:5890 --add-host=host.docker.internal:172.17.0.1" in
  let volume := "-v claracore-" ++ hardwareType ++ "-downloads:/app/downloads" in
  if String.eqb hardwareType "cuda" then
    baseCmd ++ " --gpus all " ++ volume ++ " " ++ imageName
  else if String.eqb hardwareType "rocm" then
    baseCmd ++ " --device=/dev/kfd --device=/dev/dri --group-add video --ipc=host --cap-add=SYS_PTRACE --security-opt seccomp=unconfined "
      ++ volume ++ " " ++ imageName
  else if String.eqb hardwareType "strix" then
    baseCmd ++ " --device=/dev/dri --group-add video --security-opt seccomp=unconfined "
      ++ volume ++ " " ++ imageName
  else
    baseCmd ++ " " ++ volume ++ " " ++ imageName.

(** *** Deployment *)

Definition clear_password : M unit :=
  fun w => (set_sudoPassword None w, Ok tt).

Definition echo_fallback (text : string) : string :=
  " 2>&1 || echo " ++ dq ++ text ++ dq.

Definition cmd_network_ls : string :=
  "docker network ls --filter name=clara_network --format " ++ dq
    ++ "{{.Name}}" ++ dq.

(** Step 2 of the deployment: the hardware-specific prerequisites.  The
    result is the pair [(actualHardwareType, gpuAvailable)]. *)
Definition prepare_hardware (hardwareType : string) : M (string * bool) :=
  if negb (String.eqb hardwareType "cpu") then
    try_catch
      (if String.eqb hardwareType "cuda" then
         setupCuda ;;; ret (hardwareType, true)
       else if String.eqb hardwareType "rocm" then
         setupRocm ;;; ret (hardwareType, true)
       else if String.eqb hardwareType "strix" then
         setupStrix ;;; ret (hardwareType, true)
       else ret (hardwareType, false))
      (fun _ => ret ("cpu", false))
  else ret (hardwareType, false).

(** The body of the [try] block of the ['ready'] listener of [deploy]. *)
Definition deployment (config : Config) : M DeployResult :=
  let hardwareType := hardwareType config in
  let imageName := "clara17verse/claracore:" ++ hardwareType in
  let containerName := "claracore-" ++ hardwareType in
  hasDocker <- checkDocker ;;
  (if negb hasDocker then installDocker else ret tt) ;;;
  networkCheck <- execCommand cmd_network_ls ;;
  (if negb (truthy networkCheck) || negb (includes networkCheck "clara_network")
   then execCommand "docker network create clara_network --driver bridge --subnet 172.25.0.0/16" ;;; ret tt
   else ret tt) ;;;
  prepared <- prepare_hardware hardwareType ;;
  let actualHardwareType := fst prepared in
  let gpuAvailable := snd prepared in
  let finalImageName := "clara17verse/claracore:" ++ actualHardwareType in
  let finalContainerName := "claracore-" ++ actualHardwareType in
  execCommand ("docker stop " ++ finalContainerName ++ " 2>/dev/null || true") ;;;
  execCommand ("docker rm " ++ finalContainerName ++ " 2>/dev/null || true") ;;;
  execCommandWithOutput ("docker pull " ++ finalImageName) ;;;
  let runCommand :=
    buildDockerRunCommand actualHardwareType finalContainerName finalImageName in
  try_catch (execCommand runCommand)
            (fun e => throw ("Failed to start container: " ++ e)) ;;;
  sleep 5000 ;;;
  isRunning <- execCommand ("docker ps -q -f name=" ++ containerName) ;;
  (if negb (truthy isRunning) || negb (truthy (trim isRunning)) then
     logs <- execCommand ("docker logs " ++ containerName
                            ++ echo_fallback "No logs available") ;;
     inspectResult <- execCommand
       ("docker inspect " ++ containerName
          ++ " --format='{{.State.Status}}: {{.State.Error}}'"
          ++ echo_fallback "Container not found") ;;
     throw ("Container failed to start." ++ nl ++ nl ++ "Status: "
              ++ inspectResult ++ nl ++ nl ++ "Logs:" ++ nl ++ take 500 logs)
   else ret tt) ;;;
  execCommand ("curl -sf http://localhost:5890/health"
                 ++ echo_fallback "Health check not available") ;;;
  clear_password ;;;
  ret (Deployed
         {| url := "http://" ++ host config ++ ":5890";
            containerName := finalContainerName;
            deployedHardwareType := actualHardwareType;
            gpuAvailable := gpuAvailable;
            fallbackToCpu := negb (String.eqb hardwareType "cpu")
                             && String.eqb actualHardwareType "cpu";
            message :=
              if gpuAvailable
              then "Successfully deployed with " ++ toUpperCase actualHardwareType
                     ++ " acceleration"
              else "Deployed in CPU mode"
                     ++ (if negb (String.eqb hardwareType "cpu")
                         then " (GPU unavailable)" else EmptyString) |}).

(** The message rewriting of the [catch] block of the ['ready'] listener. *)
Definition deployment_error_message (e : string) : string :=
  if includes e "incorrect password" then
    "Incorrect sudo password. Please verify your SSH password and try again."
  else if includes e "Permission denied" then
    "SSH authentication failed. Please check your credentials."
  else e.

(** The ['ready'] listener of [deploy]: the [try] block and its [catch]. *)
Definition deploy_on_ready (config : Config) : M (Settled DeployResult) :=
  try_catch (result <- deployment config ;; ret (Resolved result))
    (fun e => clear_password ;;;
              ret (Resolved (DeployFailed (deployment_error_message e)))).

(** The message rewriting of the ['error'] listener of [deploy]. *)
Definition connection_error_message (err : SshError) : string :=
  if opt_is (err_level err) "client-authentication" then
    "SSH authentication failed. Please check your username and password."
  else if opt_is (err_code err) "ECONNREFUSED" then
    "Connection refused. Please check the host and port."
  else if opt_is (err_code err) "ETIMEDOUT" || opt_is (err_code err) "ENOTFOUND" then
    "Connection timeout. Please check the host address and your network connection."
  else err_message err.

(** The ['error'] listener of [deploy]. *)
Definition deploy_on_error (err : SshError) (w : World)
  : World * Settled DeployResult :=
  (set_sudoPassword None w,
   Resolved (DeployFailed (connection_error_message err))).

(** The timer callback of [deploy]: it marks the promise as settled, ends
    the connection and rejects. *)
Definition deploy_on_timeout (w : World) : World * Settled DeployResult :=
  (set_now (deadline w) w, Rejected "Deployment timeout after 5 minutes").

Definition connect_options (config : Config) (readyTimeout : N) : ConnectOptions :=
  {| opt_host := host config; opt_port := port_or_22 config;
     opt_username := username config; opt_password := password config;
     opt_readyTimeout := readyTimeout |}.

(** The error that the SSH client emits when the handshake has not
    completed [readyTimeout] milliseconds after [connect]. *)
Definition handshake_timeout : SshError :=
  {| err_message := "Timed out while waiting for handshake";
     err_level := Some "client-timeout"; err_code := None |}.

(** The first event that the client emits, and when. *)
Inductive ClientEvent :=
| ReadyEvent (ms : N)
| FirstError (ms : N) (err : SshError).

(** What the client makes of the handshake under the option
    [readyTimeout]: it gives up with [handshake_timeout] when neither
    ['ready'] nor an error has come by then. *)
Definition client_event (readyTimeout : N) (handshake : Handshake) : ClientEvent :=
  match handshake with
  | Ready ms =>
      if (ms <? readyTimeout)%N then ReadyEvent ms
      else FirstError readyTimeout handshake_timeout
  | Refused ms err =>
      if (ms <? readyTimeout)%N then FirstError ms err
      else FirstError readyTimeout handshake_timeout
  | Silent => FirstError readyTimeout handshake_timeout
  end.

(** The skeleton common to the three public operations: arm the timer,
    register the listeners, connect, and let whichever callback comes first
    settle the promise; the timer of the operation, armed before the
    connection attempt, comes first when both are due.  An exception
    escaping the asynchronous ['ready'] listener settles nothing, so the
    timer settles the promise later. *)
Definition connect_and_run {A} (config : Config) (timer readyTimeout : N)
    (on_ready : M (Settled A))
    (on_error : SshError -> World -> World * Settled A)
    (on_timeout : World -> World * Settled A)
    (w0 : World) : World * Settled A :=
  let w := set_deadline (now w0 + timer) w0 in
  let (h, handshake) := on_connect T (connect_options config readyTimeout) (remote w) in
  let w := set_remote h w in
  match client_event readyTimeout handshake with
  | FirstError ms err =>
      match wait ms w with
      | (w', Ok _) => on_error err w'
      | (w', _) => on_timeout w'
      end
  | ReadyEvent ms =>
      match wait ms w with
      | (w', Ok _) =>
          match on_ready w' with
          | (w'', Ok settled) => (w'', settled)
          | (w'', Throw _) => on_timeout w''
          | (w'', Suspended TimerFired) => on_timeout w''
          | (w'', Suspended (ErrorEvent err)) => on_error err w''
          end
      | (w', _) => on_timeout w'
      end
  end.

(** [deploy(config)]: the state of the instance and of its surroundings at
    the moment the returned promise settles, and how it settles. *)
Definition deploy (config : Config) (w : World) : World * Settled DeployResult :=
  connect_and_run config 300000 30000
    (deploy_on_ready config) deploy_on_error deploy_on_timeout
    (set_sudoPassword (password config) w).

(** *** Connection test *)

Definition testSetup_on_ready : M (Settled SetupResult) :=
  try_catch (hardware <- detectHardware ;; ret (Resolved (SetupOk hardware)))
            (fun e => ret (Resolved (SetupFailed e))).

(** [testSetup(config)]. *)
Definition testSetup (config : Config) (w : World) : World * Settled SetupResult :=
  connect_and_run config 30000 30000
    testSetup_on_ready
    (fun err w' => (w', Resolved (SetupFailed (err_message err))))
    (fun w' => (set_now (deadline w') w',
                Rejected "Connection timeout after 30 seconds"))
    w.

(** *** Fleet monitoring *)

Definition cmd_container_list : string :=
  "docker ps -a --filter " ++ dq ++ "name=claracore-" ++ dq ++ " --format "
    ++ dq ++ "{{.Names}}|{{.Status}}|{{.Ports}}" ++ dq.

Definition undefined_toLowerCase : string :=
  "Cannot read properties of undefined (reading 'toLowerCase')".

(** The body of the [for] loop of [monitorRemoteServices] for one line. *)
Definition monitor_line (config : Config) (line : string) : M ServiceStatus :=
  let parts := split "|"%char line in
  let name := nth 0 parts EmptyString in
  let hardwareType := replaceFirst "claracore-" EmptyString name in
  match nth_error parts 1 with
  | None => throw undefined_toLowerCase
  | Some status =>
      let isRunning := includes (toLowerCase status) "up" in
      isHealthy <-
        (if isRunning then
           try_catch
             (healthCheck <- execCommand "curl -sf http://localhost:5890/health 2>&1" ;;
              ret (truthy healthCheck
                   && negb (includes healthCheck "Failed to connect")))
             (fun _ => ret false)
         else ret false) ;;
      ret {| svc_name := name;
             svc_hardwareType := hardwareType;
             svc_status := if isRunning then "running" else "stopped";
             svc_isHealthy := if isRunning then isHealthy else false;
             svc_ports := match nth_error parts 2 with
                          | Some ports => or_else ports "N/A"
                          | None => "N/A"
                          end;
             svc_url := if isRunning
                        then Some ("http://" ++ host config ++ ":5890")
                        else None |}
  end.

(** The [try] block of the ['ready'] listener of [monitorRemoteServices].
    The wall-clock [timestamp] is the virtual clock. *)
Definition monitoring (config : Config) : M MonitorResult :=
  containerList <- execCommand cmd_container_list ;;
  found <- (if truthy containerList && truthy (trim containerList)
            then forM (split (ascii_of_nat 10) (trim containerList))
                      (monitor_line config)
            else ret []) ;;
  fun w =>
    ret {| mon_host := host config;
           services := found;
           totalServices := List.length found;
           runningServices :=
             List.length (filter (fun s => String.eqb (svc_status s) "running") found);
           healthyServices := List.length (filter svc_isHealthy found);
           timestamp := now w |} w.

(** [monitorRemoteServices(config)]: the [catch] block and the ['error']
    listener both reject. *)
Definition monitorRemoteServices (config : Config) (w : World)
  : World * Settled MonitorResult :=
  connect_and_run config 15000 15000
    (try_catch (result <- monitoring config ;; ret (Resolved result))
               (fun e => ret (Rejected e)))
    (fun err w' => (w', Rejected (err_message err)))
    (fun w' => (set_now (deadline w') w',
                Rejected "Monitor timeout after 15 seconds"))
    w.

End WithTarget.

(** *** Vocabulary of the statements *)

(** The machine answers every command, within [bound] milliseconds, by
    closing the stream. *)
Definition responsive {H : Type} (T : Target H) (bound : N) : Prop :=
  forall command h, exists h' ms code out err,
    on_exec T command h = (h', ReplyAfter ms (StreamClosed code out err)) /\
    (ms <= bound)%N.

(** In its current state the machine answers the architecture query with
    the given text. *)
Definition answers_arch {H : Type} (T : Target H) (w : World) (text : string)
  : Prop :=
  exists h ms code out err,
    on_exec T cmd_arch (remote w) = (h, ReplyAfter ms (StreamClosed code out err)) /\
    or_else (concat_chunks out) (concat_chunks err) = text.

(** What the machine in state [h] tells [execCommand] in reply to
    [command] when it closes the stream, and the state it is left in. *)
Definition told {H : Type} (T : Target H) (command : string) (h : H)
  : H * string :=
  let (h', response) := on_exec T command h in
  (h', match response with
       | ReplyAfter _ (StreamClosed _ out err) =>
           or_else (concat_chunks out) (concat_chunks err)
       | _ => EmptyString
       end).

(** A probe finds its tool when the answer is neither empty nor blank and
    is not the complaint of the shell about a missing command. *)
Definition finds (answer : string) : bool :=
  truthy answer && negb (absent answer) && truthy (trim answer).

(** The answers that the machine gives to the probes, in the order of the
    queries; the toolkit version and the ROCm version are asked for only
    once the tool itself has been found. *)
Record Answers := {
  said_arch : string;
  said_docker : string;
  said_nvidia : string;
  said_nvcc : option string;
  said_rocm : string;
  said_rocm_version : option string;
  said_lscpu : string
}.

Definition answers {H : Type} (T : Target H) (h : H) : Answers :=
  let (h1, archInfo) := told T cmd_arch h in
  let (h2, dockerOut) := told T cmd_docker_version h1 in
  let (h3, nvidiaInfo) := told T cmd_nvidia h2 in
  let (h4, cudaOut) :=
    if finds nvidiaInfo
    then let (h', out) := told T cmd_nvcc h3 in (h', Some out)
    else (h3, None) in
  let (h5, rocmInfo) := told T cmd_rocm h4 in
  let (h6, rocmOut) :=
    if finds rocmInfo
    then let (h', out) := told T cmd_rocm_version h5 in (h', Some out)
    else (h5, None) in
  let (_, cpuInfo) := told T cmd_lscpu h6 in
  {| said_arch := archInfo; said_docker := dockerOut;
     said_nvidia := nvidiaInfo; said_nvcc := cudaOut;
     said_rocm := rocmInfo; said_rocm_version := rocmOut;
     said_lscpu := cpuInfo |}.

(** A version text that is neither absent nor blank. *)
Definition version_read (clean : string -> string) (answer : option string)
  : option string :=
  match answer with
  | Some out => if truthy out && truthy (trim out) then Some (clean (trim out))
                else None
  | None => None
  end.

(** The capability descriptor that a set of answers amounts to: the
    engine is present when its version query is answered by something
    else than the complaint of the shell; NVIDIA and ROCm when their tool
    is found; Strix when the CPU model carries one of its names. *)
Definition findings (a : Answers) : Details :=
  let engine := truthy (said_docker a) && negb (absent (said_docker a)) in
  {| docker := engine;
     nvidia := finds (said_nvidia a);
     rocm := finds (said_rocm a);
     strix := truthy (said_lscpu a) &&
              (includes (said_lscpu a) "Ryzen AI Max"
               || includes (said_lscpu a) "Strix"
               || includes (said_lscpu a) "8040");
     architecture := if truthy (said_arch a) then trim (said_arch a)
                     else "unknown";
     dockerVersion := if engine then Some (trim (said_docker a)) else None;
     gpuInfo := if finds (said_nvidia a) then Some (trim (said_nvidia a))
                else None;
     cudaVersion := version_read (replaceFirst "," EmptyString) (said_nvcc a);
     rocmVersion := version_read (fun v => v) (said_rocm_version a);
     cpuModel := if truthy (said_lscpu a)
                 then Some (trim (replaceFirst "Model name:" EmptyString
                                    (said_lscpu a)))
                 else None |}.

(** The recommendation that the precedence NVIDIA, Strix, ROCm, CPU
    assigns to a set of flags. *)
Definition by_precedence (d : Details) : string :=
  if nvidia d then "cuda"
  else if strix d then "strix"
  else if rocm d then "rocm"
  else "cpu".

(** NVIDIA wins and no toolkit version was retrieved. *)
Definition nvidia_without_toolkit (d : Details) : bool :=
  nvidia d && negb (truthy_opt (cudaVersion d)).

(** What a run of the detection amounts to, told apart by the flags it
    collects. *)
Record detection_run {H : Type} (w w' : World (H := H)) (text : string)
    (r : Hardware) : Prop := {
  run_architecture :
    architecture (details r) = if truthy text then trim text else "unknown";
  run_unsupported :
    isARM (architecture (details r)) = true ->
    detected r = "unsupported" /\ confidence r = "high" /\
    error r = Some (arm_message (architecture (details r))) /\
    unsupportedReason r = Some "arm";
  run_recommendation :
    isARM (architecture (details r)) = false ->
    detected r = by_precedence (details r) /\
    confidence r = (if nvidia_without_toolkit (details r)
                    then "medium" else "high");
  run_probes :
    exists extra,
      sent w' = List.app (sent w)
                  (cmd_arch :: cmd_docker_version :: cmd_nvidia :: extra) /\
      In cmd_rocm extra /\ In cmd_lscpu extra
}.

(** A computation that leaves [this.sudoPassword] as it found it,
    however it ends. *)
Definition keeps {H : Type} {A : Type} (m : M (H := H) A) : Prop :=
  forall w w' o, m w = (w', o) -> sudoPassword w' = sudoPassword w.

(** A computation that leaves the timer of the running operation as it
    was armed, however it ends. *)
Definition steady {H : Type} {A : Type} (m : M (H := H) A) : Prop :=
  forall w w' o, m w = (w', o) -> deadline w' = deadline w.

(** A computation that has cleared the field whenever it completes, and
    has left it alone whenever it is interrupted. *)
Definition clears {H : Type} {A : Type} (m : M (H := H) A) : Prop :=
  forall w w' o, m w = (w', o) ->
    match o with
    | Ok _ => sudoPassword w' = None
    | Throw _ => sudoPassword w' = sudoPassword w
    | Suspended _ => sudoPassword w' = sudoPassword w
    end.

(** The machine meets every connection attempt with the same handshake. *)
Definition greets {H : Type} (T : Target H) (w : World)
    (handshake : Handshake) : Prop :=
  forall options, exists h, on_connect T options (remote w) = (h, handshake).

(** A computation whose normal results all satisfy [P]. *)
Definition yields {H : Type} {A : Type} (P : A -> Prop) (m : M (H := H) A)
  : Prop :=
  forall w w' a, m w = (w', Ok a) -> P a.

(** A computation that hands to [conn.exec] only commands satisfying
    [allowed], however it ends. *)
Definition sends_only {H : Type} {A : Type} (allowed : string -> Prop)
    (m : M (H := H) A) : Prop :=
  forall w w' o, m w = (w', o) ->
    exists more, sent w' = List.app (sent w) more /\ Forall allowed more.

(** The same for a public operation. *)
Definition operation_sends_only {H : Type} {A : Type} (allowed : string -> Prop)
    (operation : World (H := H) -> World (H := H) * Settled A) : Prop :=
  forall w, exists more,
    sent (fst (operation w)) = List.app (sent w) more /\ Forall allowed more.

(** The commands of the hardware detection. *)
Definition probe_commands : list string :=
  [cmd_arch; cmd_docker_version; cmd_nvidia; cmd_nvcc; cmd_rocm;
   cmd_rocm_version; cmd_lscpu].

(** The health probe of the fleet monitor. *)
Definition cmd_health : string := "curl -sf http://localhost:5890/health 2>&1".

Definition monitor_commands : list string := [cmd_container_list; cmd_health].

(** The hardware types that have a setup step. *)
Definition gpu_types : list string := ["cuda"; "rocm"; "strix"].

(** The setup step of a hardware type, for the types that have one. *)
Definition setup_of {H : Type} (T : Target H) (hw : string)
  : option (M (H := H) unit) :=
  if String.eqb hw "cuda" then Some (setupCuda T)
  else if String.eqb hw "rocm" then Some (setupRocm T)
  else if String.eqb hw "strix" then Some (setupStrix T)
  else None.

(** What every entry of a monitoring result satisfies. *)
Record consistent_status (config : Config) (s : ServiceStatus) : Prop := {
  status_known : svc_status s = "running" \/ svc_status s = "stopped";
  healthy_runs : svc_isHealthy s = true -> svc_status s = "running";
  url_when_running :
    svc_url s = if String.eqb (svc_status s) "running"
                then Some ("http://" ++ host config ++ ":5890") else None;
  ports_shown : svc_ports s <> EmptyString;
  type_from_name :
    svc_hardwareType s = replaceFirst "claracore-" EmptyString (svc_name s)
}.

(** What every monitoring result satisfies. *)
Record consistent_report (config : Config) (r : MonitorResult) : Prop := {
  report_host : mon_host r = host config;
  report_entries : Forall (consistent_status config) (services r);
  report_total : totalServices r = List.length (services r);
  report_running :
    runningServices r
    = List.length (filter (fun s => String.eqb (svc_status s) "running")
                          (services r));
  report_healthy :
    healthyServices r = List.length (filter svc_isHealthy (services r));
  report_order :
    healthyServices r <= runningServices r /\
    runningServices r <= totalServices r
}.

(** What the details collected by the detection satisfy. *)
Record consistent_details (d : Details) : Prop := {
  docker_version_iff : docker d = true <-> dockerVersion d <> None;
  gpu_info_iff : nvidia d = true <-> gpuInfo d <> None;
  cuda_needs_nvidia : cudaVersion d <> None -> nvidia d = true;
  rocm_version_needs_rocm : rocmVersion d <> None -> rocm d = true;
  strix_needs_model : strix d = true -> cpuModel d <> None
}.

(** What a successful deployment result satisfies for the requested
    hardware type. *)
Record consistent_deployment (config : Config) (d : Deployment) : Prop := {
  deployed_url : url d = "http://" ++ host config ++ ":5890";
  deployed_name : containerName d = "claracore-" ++ deployedHardwareType d;
  deployed_type :
    deployedHardwareType d = hardwareType config \/
    deployedHardwareType d = "cpu";
  deployed_gpu :
    gpuAvailable d = true ->
    deployedHardwareType d = hardwareType config /\
    In (hardwareType config) gpu_types;
  deployed_fallback :
    fallbackToCpu d = true <->
    hardwareType config <> "cpu" /\ deployedHardwareType d = "cpu";
  deployed_without_gpu :
    fallbackToCpu d = true -> gpuAvailable d = false
}.

(** What step 2 of the deployment hands on for the requested hardware
    type: the type itself with its GPU prepared, the type itself when it
    needs no preparation, or the CPU fallback. *)
Definition prepared_for (hw : string) (p : string * bool) : Prop :=
  (p = (hw, true) /\ In hw gpu_types) \/
  (p = (hw, false) /\ ~ In hw gpu_types) \/
  (p = ("cpu", false) /\ In hw gpu_types).

End Remote.

(** ** The local container service *)

Module DockerService.

(** *** The container engine and the local shell *)

Inductive Result (A : Type) :=
| Returned (a : A)
| Failed (message : string).
Arguments Returned {A}.
Arguments Failed {A}.

(** An entry of [docker.listContainers({all: true})]. *)
Record ContainerSummary := { Names : list string }.

(** An entry of [docker.listImages()]. *)
Record ImageSummary := { RepoTags : option (list string) }.

(** The parts of [container.inspect()] that are read. *)
Record InspectInfo := {
  Running : bool;
  Status : string;
  StartedAt : string;
  Image : string;
  Ports : list (string * list string)
}.

Record Device := {
  PathOnHost : string;
  PathInContainer : string;
  CgroupPermissions : string
}.

Record ContainerConfig := {
  cfg_Image : option string;
  cfg_name : string;
  cfg_Hostname : string;
  cfg_ExposedPorts : list string;
  cfg_Env : list string;
  cfg_PortBindings : list (string * list string);
  cfg_Binds : list string;
  cfg_RestartPolicy : string;
  cfg_Runtime : option string;
  cfg_Devices : list Device
}.

(** Everything the service talks to, as an arbitrary state machine: the
    engine API, [execSync] of the local shell, and the HTTP health probe
    (true exactly when the endpoint answers with status 200). *)
Record Environment (X : Type) := {
  ping : X -> X * Result unit;
  listContainers : X -> X * Result (list ContainerSummary);
  inspect : string -> X -> X * Result InspectInfo;
  startContainer : string -> X -> X * Result unit;
  createContainer : ContainerConfig -> X -> X * Result string;
  listImages : X -> X * Result (list ImageSummary);
  pull : string -> X -> X * Result unit;
  execSync : string -> X -> X * Result string;
  healthProbe : X -> X * bool
}.
Arguments ping {X}.
Arguments listContainers {X}.
Arguments inspect {X}.
Arguments startContainer {X}.
Arguments createContainer {X}.
Arguments listImages {X}.
Arguments pull {X}.
Arguments execSync {X}.
Arguments healthProbe {X}.

(** The interactions issued, in order. *)
Inductive Call :=
| CallPing
| CallListContainers
| CallInspect (container : string)
| CallStart (container : string)
| CallCreate (config : ContainerConfig)
| CallListImages
| CallPull (image : string)
| CallExecSync (command : string)
| CallHealth.

Definition is_mutation (c : Call) : bool :=
  match c with
  | CallStart _ | CallCreate _ | CallPull _ => true
  | _ => false
  end.

(** *** Results *)

Record GpuInfo := { gpu_type : string; gpu_name : string }.

Record StartResult := {
  start_success : bool;
  start_message : string;
  start_gpuType : option string;
  start_image : option string
}.

(** The object returned by [getStatus]; an absent property is [None]. *)
Record ContainerStatus := {
  st_exists : bool;
  st_running : bool;
  st_status : option string;
  st_started : option string;
  st_gpuType : option string;
  st_image : option string;
  st_ports : option (list (string * list string));
  st_error : option string
}.

Section WithEnvironment.

Context {X : Type} (E : Environment X).

(** [os.platform()]. *)
Variable platform : string.

(** The builtin [isNaN] applied to a string. *)
Variable isNaN : string -> bool.

(** The instance fields and the surroundings. *)
Record World := {
  env : X;
  isRunning : bool;
  gpuType : option string;
  detectedImage : option string;
  calls : list Call
}.

Definition containerName : string := "clara_core".

Definition M (A : Type) : Type := World -> World * Result A.

Definition ret {A} (a : A) : M A := fun w => (w, Returned a).
Definition throw {A} (message : string) : M A := fun w => (w, Failed message).

Definition bind {A B} (m : M A) (k : A -> M B) : M B :=
  fun w =>
    match m w with
    | (w', Returned a) => k a w'
    | (w', Failed e) => (w', Failed e)
    end.

Definition try_catch {A} (m : M A) (handler : string -> M A) : M A :=
  fun w =>
    match m w with
    | (w', Failed e) => handler e w'
    | other => other
    end.

Notation "x <- m ;; k" := (bind m (fun x => k))
  (at level 61, m at next level, right associativity).
Notation "m ;;; k" := (bind m (fun _ => k))
  (at level 61, right associativity).

(** One interaction with the surroundings, recorded in [calls]. *)
Definition call {A} (c : Call) (op : X -> X * Result A) : M A :=
  fun w =>
    let (x, r) := op (env w) in
    ({| env := x; isRunning := isRunning w; gpuType := gpuType w;
        detectedImage := detectedImage w; calls := List.app (calls w) [c] |}, r).

Definition set_isRunning (b : bool) : M unit :=
  fun w =>
    ({| env := env w; isRunning := b; gpuType := gpuType w;
        detectedImage := detectedImage w; calls := calls w |}, Returned tt).

Definition set_gpu (type image : string) : M unit :=
  fun w =>
    ({| env := env w; isRunning := isRunning w; gpuType := Some type;
        detectedImage := Some image; calls := calls w |}, Returned tt).

Definition sh (command : string) : M string :=
  call (CallExecSync command) (execSync E command).

(** *** GPU detection *)

Definition cmd_nvidia_smi : string :=
  "nvidia-smi --query-gpu=name --format=csv,noheader".

(** One guarded probe of [detectGPU]: [Some name] when it succeeds. *)
Definition probe (command : string) (accept : string -> bool)
    (label : string -> string) : M (option string) :=
  try_catch
    (out <- sh command ;;
     ret (if accept out then Some (label out) else None))
    (fun _ => ret None).

Definition found (type name : string) : M GpuInfo :=
  set_gpu type ("clara17verse/claracore:" ++ type) ;;;
  ret {| gpu_type := type; gpu_name := name |}.

Definition probe_nvidia : M (option string) :=
  probe cmd_nvidia_smi (fun out => truthy out && truthy (trim out)) trim.

Definition probe_rocm : M (option string) :=
  probe "rocm-smi --showproductname"
        (fun out => truthy out && includes out "GPU")
        (fun _ => "AMD GPU (ROCm)").

Definition probe_vulkan : M (option string) :=
  probe "vulkaninfo --summary"
        (fun out => truthy out && includes out "Vulkan")
        (fun _ => "Vulkan-compatible GPU").

(** [detectGPU()].  Nothing in the outer [try] block can throw, each
    probe being guarded on its own. *)
Definition detectGPU : M GpuInfo :=
  if String.eqb platform "win32" then
    nv <- probe_nvidia ;;
    match nv with
    | Some name => found "cuda" name
    | None => found "cpu" "CPU Only"
    end
  else if String.eqb platform "linux" then
    nv <- probe_nvidia ;;
    match nv with
    | Some name => found "cuda" name
    | None =>
        amd <- probe_rocm ;;
        match amd with
        | Some name => found "rocm" name
        | None =>
            vk <- probe_vulkan ;;
            match vk with
            | Some name => found "vulkan" name
            | None => found "cpu" "CPU Only"
            end
        end
    end
  else found "cpu" "CPU Only".

(** *** Engine helpers *)

Definition docker_not_running : string :=
  "Docker is not running. Please start Docker Desktop and try again.".

(** [ensureDockerRunning()]. *)
Definition ensureDockerRunning : M bool :=
  try_catch (call CallPing (ping E) ;;; ret true)
            (fun _ => throw docker_not_running).

(** [containerExists()]. *)
Definition containerExists : M bool :=
  try_catch
    (containers <- call CallListContainers (listContainers E) ;;
     ret (existsb (fun c => array_includes (Names c) ("/" ++ containerName))
                  containers))
    (fun _ => ret false).

(** [pullImage(imageName)]. *)
Definition pullImage (imageName : string) : M unit :=
  call (CallPull imageName) (pull E imageName).

Fixpoint forEachM {A} (xs : list A) (f : A -> M unit) : M unit :=
  match xs with
  | [] => ret tt
  | x :: rest => f x ;;; forEachM rest f
  end.

(** Killing one process; a failure is logged and ignored. *)
Definition kill_with (command : string) : M unit :=
  try_catch (sh command ;;; ret tt) (fun _ => ret tt).

Definition last_or_undefined (parts : list string) : option string :=
  List.last (map Some parts) None.

(** [killProcessOnPort8091()]. *)
Definition killProcessOnPort8091 : M unit :=
  if String.eqb platform "win32" then
    try_catch
      (netstatOutput <- sh "netstat -ano | findstr :8091 | findstr LISTENING" ;;
       if truthy netstatOutput then
         forEachM (split (ascii_of_nat 10) (trim netstatOutput))
           (fun line =>
              match last_or_undefined (splitSpaces (trim line)) with
              | Some pid =>
                  if truthy pid && negb (isNaN pid)
                  then kill_with ("taskkill /F /PID " ++ pid)
                  else ret tt
              | None => ret tt
              end)
       else ret tt)
      (fun _ => ret tt)
  else
    try_catch
      (raw <- sh "lsof -ti:8091" ;;
       let lsofOutput := trim raw in
       if truthy lsofOutput then
         forEachM (filter truthy (split (ascii_of_nat 10) lsofOutput))
           (fun pid => kill_with ("kill -9 " ++ pid))
       else ret tt)
      (fun _ => ret tt).

(** [waitForHealthy(maxAttempts)]. *)
Fixpoint waitForHealthy (maxAttempts : nat) : M bool :=
  match maxAttempts with
  | 0 => ret false
  | S remaining =>
      isHealthy <- call CallHealth
                     (fun x => let (x', ok) := healthProbe E x in (x', Returned ok)) ;;
      if isHealthy then ret true else waitForHealthy remaining
  end.

(** *** Starting the container *)

Definition device (path : string) : Device :=
  {| PathOnHost := path; PathInContainer := path; CgroupPermissions := "rwm" |}.

(** The configuration passed to [docker.createContainer]. *)
Definition containerConfig (gpu image : option string) : ContainerConfig :=
  let base_env := ["NODE_ENV=production"; "CLARA_PORT=5890"] in
  {| cfg_Image := image;
     cfg_name := containerName;
     cfg_Hostname := "clara-core";
     cfg_ExposedPorts := ["5890/tcp"];
     cfg_Env :=
       if opt_is gpu "cuda" then
         List.app base_env ["NVIDIA_VISIBLE_DEVICES=all";
                            "NVIDIA_DRIVER_CAPABILITIES=compute,utility"]
       else if opt_is gpu "rocm" then
         List.app base_env ["HSA_OVERRIDE_GFX_VERSION=10.3.0"]
       else if opt_is gpu "vulkan" then
         List.app base_env ["VK_ICD_FILENAMES=/usr/share/vulkan/icd.d/nvidia_icd.json"]
       else base_env;
     cfg_PortBindings := [("5890/tcp", ["8091"])];
     cfg_Binds := ["claracore:/app/downloads"];
     cfg_RestartPolicy := "unless-stopped";
     cfg_Runtime := if opt_is gpu "cuda" then Some "nvidia" else None;
     cfg_Devices :=
       if opt_is gpu "cuda" then []
       else if opt_is gpu "rocm" then [device "/dev/kfd"; device "/dev/dri"]
       else if opt_is gpu "vulkan" then [device "/dev/dri"]
       else [] |}.

Definition port_in_use : string :=
  "Port 8091 is still in use. Please:" ++ nl
    ++ "1. Stop any running ClaraCore instances (Local mode)" ++ nl
    ++ "2. Check Task Manager for processes using port 8091" ++ nl
    ++ "3. Try restarting the application".

(** The step of [start] that fixes the hardware variant: automatic
    detection unless [options.gpuType] is given. *)
Definition choose_gpu (requested : option string) : M GpuInfo :=
  match requested with
  | Some g =>
      if truthy g then
        set_gpu g ("clara17verse/claracore:" ++ g) ;;;
        ret {| gpu_type := g; gpu_name := "Manual: " ++ g |}
      else detectGPU
  | None => detectGPU
  end.

(** The [try] block of [start(options)]; [requested] is
    [options.gpuType].  By the time the image is looked up,
    [this.detectedImage] has been set by the step before, so its [None]
    case below is never taken. *)
Definition start_body (requested : option string) : M StartResult :=
  ensureDockerRunning ;;;
  killProcessOnPort8091 ;;;
  choose_gpu requested ;;;
  exists_ <- containerExists ;;
  if exists_ then
    info <- call (CallInspect containerName) (inspect E containerName) ;;
    if Running info then
      set_isRunning true ;;;
      fun w => ret {| start_success := true;
                      start_message := "Container already running";
                      start_gpuType := gpuType w; start_image := None |} w
    else
      call (CallStart containerName) (startContainer E containerName) ;;;
      set_isRunning true ;;;
      fun w => ret {| start_success := true;
                      start_message := "Container started";
                      start_gpuType := gpuType w; start_image := None |} w
  else
    images <- call CallListImages (listImages E) ;;
    fun w =>
      (let imageExists :=
         existsb (fun img =>
                    match RepoTags img, detectedImage w with
                    | Some tags, Some image => array_includes tags image
                    | _, _ => false
                    end) images in
       (if negb imageExists then
          match detectedImage w with
          | Some image => pullImage image
          | None => pullImage "null"
          end
        else ret tt) ;;;
       created <- call (CallCreate (containerConfig (gpuType w) (detectedImage w)))
                       (createContainer E (containerConfig (gpuType w) (detectedImage w))) ;;
       call (CallStart created) (startContainer E created) ;;;
       set_isRunning true ;;;
       waitForHealthy 30 ;;;
       ret {| start_success := true;
              start_message := "ClaraCore started in Docker";
              start_gpuType := gpuType w;
              start_image := detectedImage w |}) w.

(** [start(options)]. *)
Definition start (requested : option string) : M StartResult :=
  try_catch (start_body requested)
    (fun e =>
       set_isRunning false ;;;
       if includes e "port" && includes e "8091"
       then throw port_in_use
       else throw e).

(** *** Status *)

(** [getStatus()]. *)
Definition getStatus : M ContainerStatus :=
  try_catch
    (exists_ <- containerExists ;;
     if negb exists_ then
       fun w => ret {| st_exists := false; st_running := false;
                       st_status := None; st_started := None;
                       st_gpuType := gpuType w; st_image := detectedImage w;
                       st_ports := None; st_error := None |} w
     else
       info <- call (CallInspect containerName) (inspect E containerName) ;;
       fun w => ret {| st_exists := true; st_running := Running info;
                       st_status := Some (Status info);
                       st_started := Some (StartedAt info);
                       st_gpuType := gpuType w; st_image := Some (Image info);
                       st_ports := Some (Ports info); st_error := None |} w)
    (fun e =>
       ret {| st_exists := false; st_running := false;
              st_status := None; st_started := None;
              st_gpuType := None; st_image := None;
              st_ports := None; st_error := Some e |}).

End WithEnvironment.

(** *** Vocabulary of the statements *)

Definition named_clara_core (c : ContainerSummary) : bool :=
  array_includes (Names c) "/clara_core".

(** The status of a container that does not exist, as seen from the
    instance [w]. *)
Definition status_absent {X : Type} (w : World (X := X)) : ContainerStatus :=
  {| st_exists := false; st_running := false;
     st_status := None; st_started := None;
     st_gpuType := gpuType w; st_image := detectedImage w;
     st_ports := None; st_error := None |}.

(** [Good] is a condition on the surroundings under which the engine is
    reachable and shows exactly one container of the service, running; the
    local shell and the queries of the engine maintain it. *)
Record keeps_running {X : Type} (E : Environment X) (Good : X -> Prop) : Prop := {
  good_execSync :
    forall command x, Good x -> Good (fst (execSync E command x));
  good_ping :
    forall x, Good x -> exists x', ping E x = (x', Returned tt) /\ Good x';
  good_listContainers :
    forall x, Good x ->
      exists x' containers,
        listContainers E x = (x', Returned containers) /\
        List.length (filter named_clara_core containers) = 1 /\ Good x';
  good_inspect :
    forall x, Good x ->
      exists x' info,
        inspect E containerName x = (x', Returned info) /\
        Running info = true /\ Good x'
}.

(** From [w] to [w'] only queries and shell commands were issued. *)
Definition only_queries {X : Type} (w w' : World (X := X)) : Prop :=
  exists more,
    calls w' = List.app (calls w) more /\
    forallb (fun c => negb (is_mutation c)) more = true.

(** A computation that maintains [Good] and issues only queries and shell
    commands, however it ends. *)
Definition harmless {X : Type} (Good : X -> Prop) {A : Type}
    (m : M (X := X) A) : Prop :=
  forall w w' r, Good (env w) -> m w = (w', r) ->
    Good (env w') /\ only_queries w w'.

(** A computation that always returns normally. *)
Definition returns {X : Type} {A : Type} (m : M (X := X) A) : Prop :=
  forall w, exists w' a, m w = (w', Returned a).

(** *** Stopping, removing and restarting *)

(** The remaining operations of a container handle: [container.stop]
    and [container.remove]. *)
Record Lifecycle (X : Type) := {
  stopContainer : string -> X -> X * Result unit;
  removeContainer : string -> X -> X * Result unit
}.
Arguments stopContainer {X}.
Arguments removeContainer {X}.

(** [{success, message}]. *)
Record OpResult := { op_success : bool; op_message : string }.

Section WithLifecycle.

Context {X : Type} (E : Environment X) (L : Lifecycle X).
Variable platform : string.
Variable isNaN : string -> bool.

Notation "x <- m ;; k" := (bind m (fun x => k))
  (at level 61, m at next level, right associativity).
Notation "m ;;; k" := (bind m (fun _ => k))
  (at level 61, right associativity).

(** One operation of the container handle; [calls] keeps recording the
    interactions of the engine API proper. *)
Definition handle {A} (op : X -> X * Result A) : M A :=
  fun w =>
    let (x, r) := op (env w) in
    ({| env := x; isRunning := isRunning w; gpuType := gpuType w;
        detectedImage := detectedImage w; calls := calls w |}, r).

(** [stop()].  The [catch] block only logs and rethrows. *)
Definition stop : M OpResult :=
  try_catch
    (exists_ <- containerExists E ;;
     if negb exists_ then
       set_isRunning false ;;;
       ret {| op_success := true; op_message := "Container not found" |}
     else
       info <- call (CallInspect containerName) (inspect E containerName) ;;
       (if Running info then handle (stopContainer L containerName) else ret tt) ;;;
       set_isRunning false ;;;
       ret {| op_success := true; op_message := "Container stopped" |})
    (fun e => throw e).

(** [remove()].  The [catch] block only logs and rethrows. *)
Definition remove : M OpResult :=
  try_catch
    (exists_ <- containerExists E ;;
     if negb exists_ then
       ret {| op_success := true; op_message := "Container not found" |}
     else
       info <- call (CallInspect containerName) (inspect E containerName) ;;
       (if Running info then handle (stopContainer L containerName) else ret tt) ;;;
       handle (removeContainer L containerName) ;;;
       set_isRunning false ;;;
       ret {| op_success := true; op_message := "Container removed" |})
    (fun e => throw e).

(** [restart()]: the pause between the two steps has no effect on the
    instance or on the engine. *)
Definition restart : M StartResult :=
  stop ;;; start E platform isNaN None.

End WithLifecycle.

(** The answers of the health endpoint to [n] probes in a row from the
    state [x], and the state after them. *)
Fixpoint probed {X : Type} (E : Environment X) (n : nat) (x : X)
  : X * list bool :=
  match n with
  | 0 => (x, [])
  | S k =>
      let (x1, ok) := healthProbe E x in
      let (x2, rest) := probed E k x1 in
      (x2, ok :: rest)
  end.

(** The calls that change the engine among those issued from [w] to
    [w']. *)
Definition mutations {X : Type} (w w' : World (X := X)) : list Call :=
  filter is_mutation (skipn (List.length (calls w)) (calls w')).

(** The instance fields are the same in [w] and [w']. *)
Definition same_fields {X : Type} (w w' : World (X := X)) : Prop :=
  isRunning w' = isRunning w /\ gpuType w' = gpuType w /\
  detectedImage w' = detectedImage w.

Definition gpu_variants : list string := ["cuda"; "rocm"; "vulkan"; "cpu"].

Definition is_shell (c : Call) : bool :=
  match c with CallExecSync _ => true | _ => false end.

(** From [w] to [w'] exactly the calls [more] were issued. *)
Definition issued {X : Type} (w w' : World (X := X)) (more : list Call) : Prop :=
  calls w' = List.app (calls w) more.

(** A computation that only runs shell commands and leaves the instance
    fields alone, however it ends. *)
Definition shell_only {X : Type} {A : Type} (m : M (X := X) A) : Prop :=
  forall w w' r, m w = (w', r) ->
    same_fields w w' /\
    exists more, issued w w' more /\ forallb is_shell more = true.

(** A computation that issues only queries and shell commands, whatever
    the surroundings do. *)
Definition inspects {X : Type} {A : Type} (m : M (X := X) A) : Prop :=
  forall w w' r, m w = (w', r) -> only_queries w w'.

(** The port query of [killProcessOnPort8091]. *)
Definition port_query (platform : string) : string :=
  if String.eqb platform "win32"
  then "netstat -ano | findstr :8091 | findstr LISTENING"
  else "lsof -ti:8091".

End DockerService.

(** ** Concrete machines used to exercise the model *)

Module Scenarios.

Import Remote.

(** A remote machine whose answers depend on the commands received so
    far. *)
Definition scripted (greeting : Handshake)
    (answer : list string -> string -> Response) : Target (list string) :=
  {| on_connect := fun _ h => (h, greeting);
     on_exec := fun command h => (List.app h [command], answer h command) |}.

Definition says (ms : N) (text : string) : Response :=
  ReplyAfter ms (StreamClosed (Some 0%Z) [text] []).

Definition quiet (ms : N) : Response :=
  ReplyAfter ms (StreamClosed (Some 0%Z) [] []).

(** A service instance just constructed, at time 0, facing a machine that
    has received nothing yet. *)
Definition fresh : World (H := list string) :=
  {| remote := []; now := 0; deadline := 0; sudoPassword := None; sent := [] |}.

Definition ubuntu (hw : string) : Config :=
  {| host := "10.0.0.5"; port := None; username := "ubuntu";
     password := Some "hunter2"; hardwareType := hw |}.

(** The machine accepts the connection and then never answers. *)
Definition unresponsive : Target (list string) :=
  scripted (Ready 120) (fun _ _ => NoReply).

(** A machine with the container engine but without NVIDIA drivers: every
    engine command succeeds, and the CPU container is listed as running
    once it has been started. *)
Definition cpu_started (h : list string) : bool :=
  existsb (fun c => startsWith c "docker run -d --name claracore-cpu ") h.

Definition gpu_less : Target (list string) :=
  scripted (Ready 120)
    (fun h command =>
       if String.eqb command cmd_docker_version then
         says 40 "Docker version 24.0.7, build afdd53b"
       else if String.eqb command cmd_network_ls then says 40 "clara_network"
       else if startsWith command "docker run -d --name claracore-cpu " then
         says 900 "3f2a9c1d7b6e"
       else if String.eqb command "docker ps -q -f name=claracore-cpu" then
         if cpu_started h then says 40 "3f2a9c1d7b6e" else quiet 40
       else if startsWith command "docker logs claracore-cuda" then
         says 40 "No logs available"
       else if startsWith command "docker inspect claracore-cuda" then
         says 40 "Container not found"
       else quiet 40).

(** An ARM machine with the container engine installed. *)
Definition arm_board : Target (list string) :=
  scripted (Ready 120)
    (fun _ command =>
       if String.eqb command cmd_arch then says 40 ("aarch64" ++ nl)
       else if String.eqb command cmd_docker_version then
         says 40 "Docker version 24.0.7, build afdd53b"
       else quiet 40).

(** An x86 machine with an NVIDIA card and no CUDA toolkit. *)
Definition nvidia_box : Target (list string) :=
  scripted (Ready 120)
    (fun _ command =>
       if String.eqb command cmd_arch then says 40 ("x86_64" ++ nl)
       else if String.eqb command cmd_nvidia then
         says 40 ("NVIDIA GeForce RTX 3090" ++ nl)
       else quiet 40).

Definition econnrefused : SshError :=
  {| err_message := "connect ECONNREFUSED 10.0.0.5:22";
     err_level := Some "client-socket"; err_code := Some "ECONNREFUSED" |}.

(** Nothing listens on the SSH port. *)
Definition closed_port : Target (list string) :=
  scripted (Refused 20 econnrefused) (fun _ _ => NoReply).

(** The machine never completes the handshake. *)
Definition black_hole : Target (list string) :=
  scripted Silent (fun _ _ => NoReply).

Import DockerService.

(** A simulated engine: the containers by name with their running flag.
    The local shell knows none of the probed tools. *)
Definition has_container (name : string) (x : list (string * bool)) : bool :=
  existsb (fun c => String.eqb (fst c) name) x.

Definition simulated : Environment (list (string * bool)) :=
  {| ping := fun x => (x, Returned tt);
     listContainers := fun x =>
       (x, Returned (map (fun c => {| Names := ["/" ++ fst c] |}) x));
     inspect := fun name x =>
       match lookup name x with
       | Some running =>
           (x, Returned {| Running := running;
                           Status := if running then "running" else "exited";
                           StartedAt := "2025-01-01T00:00:00Z";
                           Image := "clara17verse/claracore:cpu";
                           Ports := [("5890/tcp", ["8091"])] |})
       | None => (x, Failed ("No such container: " ++ name))
       end;
     startContainer := fun name x =>
       match lookup name x with
       | Some true => (x, Failed "container already started")
       | Some false =>
           (map (fun c => if String.eqb (fst c) name then (name, true) else c) x,
            Returned tt)
       | None => (x, Failed ("No such container: " ++ name))
       end;
     createContainer := fun config x =>
       if has_container (cfg_name config) x
       then (x, Failed "Conflict. The container name is already in use")
       else (List.app x [(cfg_name config, false)], Returned (cfg_name config));
     listImages := fun x => (x, Returned []);
     pull := fun _ x => (x, Returned tt);
     execSync := fun _ x => (x, Failed "Command failed");
     healthProbe := fun x => (x, has_container "clara_core" x) |}.

(** The engine daemon cannot be reached at all. *)
Definition daemon_down : Environment unit :=
  let refuse {A} : unit -> unit * Result A :=
    fun x => (x, Failed "connect ENOENT /var/run/docker.sock") in
  {| ping := refuse;
     listContainers := refuse;
     inspect := fun _ => refuse;
     startContainer := fun _ => refuse;
     createContainer := fun _ => refuse;
     listImages := refuse;
     pull := fun _ => refuse;
     execSync := fun _ => refuse;
     healthProbe := fun x => (x, false) |}.

(** An engine on Windows whose published port 8091 is held by a process
    of the engine itself: the container of the service is listed and
    running as long as that process lives, and the engine is gone once it
    has been killed.  The state tells whether the process lives. *)
Definition port_holder : Environment bool :=
  let guarded {A} (a : A) : bool -> bool * Result A :=
    fun up => (up, if up then Returned a
                   else Failed "connect ENOENT //./pipe/docker_engine") in
  {| ping := guarded tt;
     listContainers := guarded [{| Names := ["/clara_core"] |}];
     inspect := fun _ =>
       guarded {| Running := true; Status := "running";
                  StartedAt := "2025-01-01T00:00:00Z";
                  Image := "clara17verse/claracore:cpu";
                  Ports := [("5890/tcp", ["8091"])] |};
     startContainer := fun _ => guarded tt;
     createContainer := fun config => guarded (cfg_name config);
     listImages := guarded [];
     pull := fun _ => guarded tt;
     execSync := fun command up =>
       if String.eqb command "netstat -ano | findstr :8091 | findstr LISTENING" then
         (up, if up
              then Returned "  TCP    0.0.0.0:8091    0.0.0.0:0    LISTENING    4242"
              else Failed "Command failed")
       else if String.eqb command "taskkill /F /PID 4242" then
         (false, Returned "SUCCESS: The process with PID 4242 has been terminated.")
       else (up, Failed "Command failed");
     healthProbe := fun up => (up, up) |}.

Definition idle {X : Type} (x : X) : DockerService.World (X := X) :=
  {| env := x; isRunning := false; gpuType := None; detectedImage := None;
     calls := [] |}.

Import Registry.

Definition service (deps : list string) : ServiceDef :=
  {| name := "Service"; type := "service"; critical := false;
     autoRestart := true; priority := 1; dependencies := Some deps;
     deploymentModes := None; platformSupport := None |}.

(** Service [api] depends on a service that is not enabled, and [worker]
    and [queue] depend on each other. *)
Definition tangled : list (string * ServiceDef) :=
  [ ("api", service ["cache"]);
    ("worker", service ["queue"]);
    ("queue", service ["worker"]) ].

(** Services [worker] and [queue] depend on each other; every dependency
    is enabled. *)
Definition looped : list (string * ServiceDef) :=
  [ ("worker", service ["queue"]);
    ("queue", service ["worker"]) ].

(** A machine on which the installer script and every image pull fail. *)
Definition faulty : Target (list string) :=
  scripted (Ready 120)
    (fun _ command =>
       if includes command "get-docker.sh" && includes command "sudo" then
         ReplyAfter 40 (StreamClosed (Some 1%Z) []
                          ["curl: (6) Could not resolve host: download.docker.com"])
       else if startsWith command "docker pull " then
         ReplyAfter 40 (StreamClosed (Some 1%Z) []
                          ["pull access denied for clara17verse/claracore"])
       else quiet 40).

(** A machine with NVIDIA drivers and the container toolkit. *)
Definition cuda_host : Target (list string) :=
  scripted (Ready 120)
    (fun _ command =>
       if String.eqb command "nvidia-smi 2>/dev/null" then
         says 40 "NVIDIA-SMI 535.129.03"
       else if String.eqb command "which nvidia-ctk 2>/dev/null" then
         says 40 "/usr/bin/nvidia-ctk"
       else quiet 40).

(** A machine running the CUDA container next to a stopped CPU container,
    the service answering its health probe. *)
Definition fleet : Target (list string) :=
  scripted (Ready 120)
    (fun _ command =>
       if String.eqb command cmd_container_list then
         says 40 ("claracore-cuda|Up 3 hours|0.0.0.0:8091->5890/tcp" ++ nl
                    ++ "claracore-cpu|Exited (0) 2 days ago|")
       else if String.eqb command cmd_health then says 40 "ok"
       else quiet 40).

(** The container handles of the simulated engine. *)
Definition simulated_handles : Lifecycle (list (string * bool)) :=
  {| stopContainer := fun name x =>
       match lookup name x with
       | Some _ =>
           (map (fun c => if String.eqb (fst c) name then (name, false) else c) x,
            Returned tt)
       | None => (x, Failed ("No such container: " ++ name))
       end;
     removeContainer := fun name x =>
       match lookup name x with
       | Some true => (x, Failed "cannot remove a running container")
       | Some false =>
           (filter (fun c => negb (String.eqb (fst c) name)) x, Returned tt)
       | None => (x, Failed ("No such container: " ++ name))
       end |}.

(** The handles of an engine that cannot be reached. *)
Definition unreachable_handles : Lifecycle unit :=
  let refuse {A} : unit -> unit * Result A :=
    fun x => (x, Failed "connect ENOENT /var/run/docker.sock") in
  {| stopContainer := fun _ => refuse;
     removeContainer := fun _ => refuse |}.

End Scenarios.

(** ** Properties of the service registry *)

Module RegistryFacts.

Import Registry Scenarios.

(** C7. On the registry table, docker mode of [claracore] is unsupported on
    darwin and supported on win32, the declared docker platforms of that
    service being win32 and linux only. *)
Theorem claracore_docker_mode_platforms :
  isServiceModeSupported "claracore" "docker" "darwin" = false /\
  isServiceModeSupported "claracore" "docker" "win32" = true /\
  (exists service support,
      lookup "claracore" SERVICE_DEFINITIONS = Some service /\
      platformSupport service = Some support /\
      lookup "docker" support = Some ["win32"; "linux"]).
Proof.
  split; [reflexivity | split; [reflexivity |]].
  eexists. eexists. repeat split; reflexivity.
Qed.

(** C10. For a service name without an entry in the registry, or whose
    entry declares no deployment modes, and for every platform, the
    supported modes are exactly [docker], and a mode is supported exactly
    when it is [docker]. *)
Theorem unknown_service_defaults_to_docker :
  forall serviceName deploymentMode targetPlatform,
    defaults_to_docker serviceName ->
    getSupportedDeploymentModes serviceName targetPlatform = ["docker"] /\
    (isServiceModeSupported serviceName deploymentMode targetPlatform = true
     <-> deploymentMode = "docker").
Proof.
  intros serviceName deploymentMode targetPlatform Hdefault.
  unfold getSupportedDeploymentModes, isServiceModeSupported.
  destruct Hdefault as [Hnone | [service [Hsome Hmodes]]].
  - rewrite Hnone. split; [reflexivity | apply String.eqb_eq].
  - rewrite Hsome, Hmodes. split; [reflexivity | apply String.eqb_eq].
Qed.

Lemma unknown_service_defaults_to_docker_witness :
  defaults_to_docker "mcp" /\
  getSupportedDeploymentModes "mcp" "darwin" = ["docker"] /\
  (isServiceModeSupported "mcp" "manual" "darwin" = true <-> "manual" = "docker").
Proof.
  assert (Hd : defaults_to_docker "mcp").
  { right. eexists. split; reflexivity. }
  split; [exact Hd |].
  exact (unknown_service_defaults_to_docker "mcp" "manual" "darwin" Hd).
Defined.

(** C5. In the configuration [tangled], the services [worker] and [queue]
    depend on each other, yet the validation reports no circular
    dependency: the traversal is abandoned when it reaches the dependency
    [cache] of [api], which is not enabled, and only the failure of the
    traversal and the missing dependency are reported. *)
Theorem validate_misses_cycle_after_missing_dependency :
  has_cycle tangled /\
  validateServiceConfiguration tangled =
    [ "Dependency validation failed: " ++ undefined_forEach;
      "Service api depends on cache which is not enabled" ] /\
  existsb is_cycle_error (validateServiceConfiguration tangled) = false.
Proof.
  split; [| split; reflexivity].
  exists "worker".
  apply t_trans with (y := "queue"); apply t_step.
  - exists (service ["queue"]), ["queue"]. repeat split. simpl. auto.
  - exists (service ["worker"]), ["worker"]. repeat split. simpl. auto.
Qed.

(** *** The traversal of the dependency graph *)

Lemma set_has_In (s : list string) (x : string) :
  set_has s x = true <-> In x s.
Proof.
  unfold set_has, array_includes. rewrite existsb_exists. split.
  - intros [y [Hy Heq]]. apply String.eqb_eq in Heq. subst. exact Hy.
  - intros Hx. exists x. split; [exact Hx | apply String.eqb_refl].
Qed.

Lemma set_has_false (s : list string) (x : string) :
  set_has s x = false <-> ~ In x s.
Proof.
  rewrite <- set_has_In. destruct (set_has s x); split; intros; congruence.
Qed.

Lemma set_add_fresh (s : list string) (x : string) :
  set_has s x = false -> set_add x s = x :: s.
Proof. intros Hx. unfold set_add. rewrite Hx. reflexivity. Qed.

Lemma set_delete_absent (s : list string) (x : string) :
  ~ In x s -> set_delete x s = s.
Proof.
  unfold set_delete. induction s as [| y rest IH]; intros Hx; simpl.
  - reflexivity.
  - destruct (String.eqb_spec x y) as [Heq | Hne]; simpl.
    + exfalso. apply Hx. left. symmetry. exact Heq.
    + rewrite IH; [reflexivity | intros Hin; apply Hx; right; exact Hin].
Qed.

Lemma set_delete_added (s : list string) (x : string) :
  ~ In x s -> set_delete x (x :: s) = s.
Proof.
  intros Hx. unfold set_delete. simpl. rewrite String.eqb_refl. simpl.
  apply set_delete_absent. exact Hx.
Qed.

Lemma In_set_add (s : list string) (x y : string) :
  In y (set_add x s) <-> y = x \/ In y s.
Proof.
  unfold set_add. destruct (set_has s x) eqn:Hx.
  - apply set_has_In in Hx. split; [auto | intros [-> | Hy]; assumption].
  - simpl. split; intros [Heq | Hy]; auto.
Qed.

Lemma prefix_append (p s : string) : String.prefix p (p ++ s) = true.
Proof.
  induction p as [| c p IH]; simpl.
  - destruct s; reflexivity.
  - destruct (ascii_dec c c) as [_ | Hne]; [exact IH | congruence].
Qed.

Lemma cycle_error_recognised (node : string) :
  is_cycle_error (cycle_prefix ++ node) = true.
Proof. apply prefix_append. Qed.

Section Traversal.

Variable deps : list (string * list string).

Abbreviation stack_fits := (Registry.stack_fits deps).
Abbreviation acyclic := (Registry.acyclic deps).
Abbreviation below := (Registry.below deps).
Abbreviation finishes := (Registry.finishes deps).
Abbreviation search := (Registry.search deps).

(** The local set [temp] is the same before and after a completed visit. *)
Lemma forEach_frame (f : string -> Traversal -> Outcome) :
  (forall x st st', f x st = Done st' -> temp st' = temp st) ->
  forall arr st st', forEach f arr st = Done st' -> temp st' = temp st.
Proof.
  intros Hf. induction arr as [| x rest IH]; simpl; intros st st' E.
  - inversion E. reflexivity.
  - destruct (f x st) as [st1 | |] eqn:Ex; try discriminate.
    rewrite (IH _ _ E). eapply Hf. exact Ex.
Qed.

Lemma visit_frame (fuel : nat) :
  forall node st st', visit deps fuel node st = Done st' -> temp st' = temp st.
Proof.
  induction fuel as [| fuel IH]; simpl; intros node st st' E; [discriminate |].
  destruct (set_has (temp st) node) eqn:Ht; [inversion E; reflexivity |].
  destruct (set_has (visited st) node) eqn:Hv; simpl in E;
    [inversion E; reflexivity |].
  destruct (lookup node deps) as [ds |]; [| discriminate].
  destruct (forEach _ ds _) as [st2 | |] eqn:Ef; try discriminate.
  inversion E; subst; simpl.
  apply (forEach_frame _ IH) in Ef. simpl in Ef.
  rewrite Ef, (set_add_fresh _ _ Ht).
  apply set_delete_added. apply set_has_false. exact Ht.
Qed.

Lemma appends_refl (st : Traversal) : appends (errors st) (Done st).
Proof. exists []. rewrite app_nil_r. split; [reflexivity | constructor]. Qed.

Lemma appends_trans (st st1 : Traversal) (o : Outcome) :
  appends (errors st) (Done st1) -> appends (errors st1) o ->
  appends (errors st) o.
Proof.
  unfold appends. simpl. intros (m1 & E1 & F1).
  destruct (outcome_errors o) as [after |]; [| trivial].
  intros (m2 & E2 & F2). exists (List.app m1 m2).
  rewrite E2, E1, app_assoc. split; [reflexivity |].
  apply Forall_app. split; assumption.
Qed.

Lemma forEach_appends (f : string -> Traversal -> Outcome) :
  (forall x st, appends (errors st) (f x st)) ->
  forall arr st, appends (errors st) (forEach f arr st).
Proof.
  intros Hf. induction arr as [| x rest IH]; simpl; intros st.
  - apply appends_refl.
  - pose proof (Hf x st) as Hx.
    destruct (f x st) as [st1 | errs m |] eqn:Ex; try exact Hx.
    eapply appends_trans; [exact Hx | apply IH].
Qed.

Lemma visit_appends (fuel : nat) :
  forall node st, appends (errors st) (visit deps fuel node st).
Proof.
  induction fuel as [| fuel IH]; simpl; intros node st; [exact I |].
  destruct (set_has (temp st) node).
  { exists [cycle_prefix ++ node]. split; [reflexivity |].
    constructor; [apply cycle_error_recognised | constructor]. }
  destruct (set_has (visited st) node); simpl; [apply appends_refl |].
  destruct (lookup node deps) as [ds |].
  - pose proof (forEach_appends _ IH ds
                  {| errors := errors st; visited := visited st;
                     temp := set_add node (temp st) |}) as Hf.
    destruct (forEach _ ds _) as [st2 | errs m |]; exact Hf.
  - exists []. simpl. rewrite app_nil_r. split; [reflexivity | constructor].
Qed.

Lemma forEach_not_exhausted (f : string -> Traversal -> Outcome) (P : Traversal -> Prop) :
  (forall x st, P st -> f x st <> Exhausted) ->
  (forall x st st', P st -> f x st = Done st' -> P st') ->
  forall arr st, P st -> forEach f arr st <> Exhausted.
Proof.
  intros Hf Hp. induction arr as [| x rest IH]; simpl; intros st Hst.
  - discriminate.
  - destruct (f x st) as [st1 | errs m |] eqn:Ex.
    + apply IH. eapply Hp; eassumption.
    + discriminate.
    + exfalso. eapply Hf; eassumption.
Qed.

Lemma lookup_key {A} (obj : list (string * A)) (k : string) (v : A) :
  lookup k obj = Some v -> In k (keys obj).
Proof.
  induction obj as [| [k' v'] rest IH]; simpl; [discriminate |].
  destruct (String.eqb_spec k k') as [-> | Hne]; [left; reflexivity |].
  intros E. right. apply IH. exact E.
Qed.

Lemma key_lookup {A} (obj : list (string * A)) (k : string) :
  In k (keys obj) -> lookup k obj <> None.
Proof.
  induction obj as [| [k' v'] rest IH]; simpl; [contradiction |].
  destruct (String.eqb_spec k k') as [-> | Hne]; [discriminate |].
  intros [Heq | Hin]; [congruence | apply IH; exact Hin].
Qed.

(** The call stack never outgrows the table: the nodes on [temp] are
    distinct keys. *)
Lemma visit_not_exhausted (fuel : nat) :
  forall node st, stack_fits fuel st -> visit deps fuel node st <> Exhausted.
Proof.
  induction fuel as [| fuel IH]; intros node st (Hnd & Hincl & Hlen).
  - exfalso. pose proof (NoDup_incl_length Hnd Hincl). simpl in Hlen. lia.
  - simpl. destruct (set_has (temp st) node) eqn:Ht; [discriminate |].
    destruct (set_has (visited st) node); simpl; [discriminate |].
    destruct (lookup node deps) as [ds |] eqn:Hl; [| discriminate].
    set (st1 := {| errors := errors st; visited := visited st;
                   temp := set_add node (temp st) |}).
    assert (Hfits : stack_fits fuel st1).
    { unfold Registry.stack_fits, st1; simpl. rewrite (set_add_fresh _ _ Ht).
      apply set_has_false in Ht. repeat split.
      - constructor; assumption.
      - intros x [<- | Hx]; [eapply lookup_key; eassumption | auto].
      - simpl. lia. }
    pose proof (forEach_not_exhausted (visit deps fuel)
                  (fun s => temp s = temp st1 /\ stack_fits fuel s)) as Hfe.
    destruct (forEach (visit deps fuel) ds st1) as [st2 | errs m |] eqn:Ef;
      try discriminate.
    exfalso. revert Ef. apply Hfe.
    + intros x s [_ Hs]. apply IH. exact Hs.
    + intros x s s' [Htemp (Hn & Hi & Hl')] Ex.
      apply visit_frame in Ex.
      split; [congruence |]. unfold Registry.stack_fits. rewrite Ex.
      repeat split; assumption.
    + split; [reflexivity | exact Hfits].
Qed.

(** When every successor is in the table, no visit throws. *)
Lemma forEach_not_thrown (f : string -> Traversal -> Outcome) (arr : list string) :
  (forall x st errs m, In x arr -> f x st <> Thrown errs m) ->
  forall st errs m, forEach f arr st <> Thrown errs m.
Proof.
  induction arr as [| x rest IH]; simpl; intros Hf st errs m.
  - discriminate.
  - destruct (f x st) as [st1 | errs1 m1 |] eqn:Ex.
    + apply IH. intros y s e k Hy. apply Hf. right. exact Hy.
    + exfalso. eapply (Hf x st errs1 m1); [left; reflexivity | exact Ex].
    + discriminate.
Qed.

Lemma visit_not_thrown (fuel : nat) :
  closed deps ->
  forall node st errs m,
    lookup node deps <> None -> visit deps fuel node st <> Thrown errs m.
Proof.
  intros Hclosed. induction fuel as [| fuel IH]; simpl; intros node st errs m Hkey;
    [discriminate |].
  destruct (set_has (temp st) node); [discriminate |].
  destruct (set_has (visited st) node); simpl; [discriminate |].
  destruct (lookup node deps) as [ds |] eqn:Hl; [| congruence].
  pose proof (forEach_not_thrown (visit deps fuel) ds) as Hfe.
  destruct (forEach (visit deps fuel) ds _) as [st2 | errs2 m2 |] eqn:Ef;
    try discriminate.
  exfalso. revert Ef. apply Hfe.
  intros x s e k Hx. apply IH. apply (Hclosed node x). exists ds. auto.
Qed.

(** In an acyclic graph, a visit started below the nodes of [temp] reports
    nothing. *)
Lemma forEach_silent (f : string -> Traversal -> Outcome) (arr : list string)
    (P : Traversal -> Prop) :
  (forall x st st', In x arr -> P st -> f x st = Done st' ->
                    errors st' = errors st /\ P st') ->
  forall st st', P st -> forEach f arr st = Done st' ->
                 errors st' = errors st /\ P st'.
Proof.
  induction arr as [| x rest IH]; simpl; intros Hf st st' Hst E.
  - inversion E; subst. split; [reflexivity | exact Hst].
  - destruct (f x st) as [st1 | |] eqn:Ex; try discriminate.
    destruct (Hf x st st1 (or_introl eq_refl) Hst Ex) as [He Hp].
    destruct (IH (fun y s s' Hy => Hf y s s' (or_intror Hy)) st1 st' Hp E)
      as [He' Hp'].
    split; [congruence | exact Hp'].
Qed.

Lemma visit_silent (fuel : nat) :
  acyclic ->
  forall node st st',
    below st node -> visit deps fuel node st = Done st' ->
    errors st' = errors st.
Proof.
  intros Hacyclic. induction fuel as [| fuel IH]; simpl;
    intros node st st' Hbelow E; [discriminate |].
  destruct (set_has (temp st) node) eqn:Ht.
  { exfalso. apply set_has_In in Ht. exact (Hacyclic node (Hbelow node Ht)). }
  destruct (set_has (visited st) node); simpl in E; [inversion E; reflexivity |].
  destruct (lookup node deps) as [ds |] eqn:Hl; [| discriminate].
  set (st1 := {| errors := errors st; visited := visited st;
                 temp := set_add node (temp st) |}) in *.
  destruct (forEach (visit deps fuel) ds st1) as [st2 | |] eqn:Ef;
    try discriminate.
  inversion E; subst; simpl.
  destruct (forEach_silent (visit deps fuel) ds (fun s => temp s = temp st1))
    with (st := st1) (st' := st2) as [He _]; try assumption; try reflexivity.
  intros x s s' Hx Hs Ex. split.
  - apply (IH x s s'); [| exact Ex].
    intros t Hin. rewrite Hs in Hin. unfold st1 in Hin; simpl in Hin.
    apply In_set_add in Hin. destruct Hin as [-> | Hin].
    + apply t_step. exists ds. auto.
    + eapply t_trans; [apply Hbelow; exact Hin |].
      apply t_step. exists ds. auto.
  - apply visit_frame in Ex. congruence.
Qed.


(** A visit that reports nothing leaves [visited] in finishing order, with
    the node in it. *)
Lemma app_eq_self {A} (l m : list A) : List.app l m = l -> m = [].
Proof.
  intros E. apply (app_inv_head l). rewrite app_nil_r. exact E.
Qed.

Lemma appends_done_silent (st st1 st2 : Traversal) :
  appends (errors st) (Done st1) -> appends (errors st1) (Done st2) ->
  errors st2 = errors st ->
  errors st1 = errors st /\ errors st2 = errors st1.
Proof.
  unfold appends; simpl. intros (m1 & E1 & _) (m2 & E2 & _) E.
  rewrite E2, E1, <- app_assoc in E. apply app_eq_self in E.
  apply app_eq_nil in E. destruct E as [-> ->].
  rewrite app_nil_r in E1. rewrite app_nil_r in E2. split; assumption.
Qed.

Lemma forEach_finishes (f : string -> Traversal -> Outcome) :
  (forall x st, appends (errors st) (f x st)) ->
  forall arr,
    (forall x st st', In x arr -> f x st = Done st' ->
                      errors st' = errors st -> finishes x st st') ->
    forall st st',
      forEach f arr st = Done st' -> errors st' = errors st ->
      finished_in_order deps (visited st) ->
      finished_in_order deps (visited st') /\
      (forall x, In x arr -> In x (visited st')) /\
      incl (visited st) (visited st').
Proof.
  intros Happ. induction arr as [| x rest IH]; simpl; intros Hf st st' E He Hfin.
  - inversion E; subst. repeat split; [exact Hfin | contradiction | apply incl_refl].
  - destruct (f x st) as [st1 | |] eqn:Ex; try discriminate.
    pose proof (Happ x st) as A1. rewrite Ex in A1.
    pose proof (forEach_appends f Happ rest st1) as A2. rewrite E in A2.
    destruct (appends_done_silent _ _ _ A1 A2 He) as [He1 He2].
    destruct (Hf x st st1 (or_introl eq_refl) Ex He1 Hfin) as (F1 & I1 & S1).
    destruct (IH (fun y s s' Hy => Hf y s s' (or_intror Hy)) st1 st' E He2 F1)
      as (F2 & I2 & S2).
    repeat split.
    + exact F2.
    + intros y [<- | Hy]; [apply S2; exact I1 | apply I2; exact Hy].
    + eapply incl_tran; eassumption.
Qed.

Lemma visit_finishes (fuel : nat) :
  forall node st st',
    visit deps fuel node st = Done st' -> errors st' = errors st ->
    finishes node st st'.
Proof.
  induction fuel as [| fuel IH]; simpl; intros node st st' E He Hfin;
    [discriminate |].
  destruct (set_has (temp st) node) eqn:Ht.
  { inversion E; subst; simpl in He. apply app_eq_self in He. discriminate. }
  destruct (set_has (visited st) node) eqn:Hv; simpl in E.
  { inversion E; subst. apply set_has_In in Hv.
    repeat split; [exact Hfin | exact Hv | apply incl_refl]. }
  destruct (lookup node deps) as [ds |] eqn:Hl; [| discriminate].
  set (st1 := {| errors := errors st; visited := visited st;
                 temp := set_add node (temp st) |}) in *.
  destruct (forEach (visit deps fuel) ds st1) as [st2 | |] eqn:Ef;
    try discriminate.
  inversion E; subst; simpl in *.
  destruct (forEach_finishes (visit deps fuel) (visit_appends fuel) ds
              (fun x s s' _ => IH x s s') st1 st2 Ef He Hfin)
    as (F2 & I2 & S2).
  unfold set_add. destruct (set_has (visited st2) node) eqn:Hv2.
  - apply set_has_In in Hv2. repeat split; assumption.
  - apply set_has_false in Hv2. repeat split.
    + exact F2.
    + exact Hv2.
    + intros d (ds' & Hl' & Hd). rewrite Hl in Hl'. inversion Hl'; subst.
      apply I2. exact Hd.
    + left. reflexivity.
    + apply incl_tl. exact S2.
Qed.

(** A list in finishing order carries no cycle. *)
Lemma finished_suffix (l1 l2 : list string) :
  finished_in_order deps (List.app l1 l2) -> finished_in_order deps l2.
Proof.
  induction l1 as [| x l1 IH]; simpl; [auto | intros (F & _ & _); auto].
Qed.

Lemma finished_reach (l : list string) :
  finished_in_order deps l ->
  forall v d, clos_trans string (edge deps) v d ->
  forall l1 l2, l = List.app l1 (v :: l2) -> In d l2.
Proof.
  intros Hfin v d Hpath.
  induction Hpath as [v d Hstep | v m d _ IH1 _ IH2]; intros l1 l2 El.
  - subst l. apply finished_suffix in Hfin. destruct Hfin as (_ & _ & Hsucc).
    apply Hsucc. exact Hstep.
  - pose proof (IH1 l1 l2 El) as Hm.
    apply in_split in Hm. destruct Hm as (l3 & l4 & El2).
    assert (Hd : In d l4).
    { apply (IH2 (List.app l1 (v :: l3)) l4).
      rewrite El, El2, <- app_assoc. reflexivity. }
    rewrite El2. apply in_or_app. right. right. exact Hd.
Qed.

Lemma finished_no_cycle (l : list string) (v : string) :
  finished_in_order deps l -> In v l -> ~ clos_trans string (edge deps) v v.
Proof.
  intros Hfin Hv Hcycle.
  apply in_split in Hv. destruct Hv as (l1 & l2 & El).
  pose proof (finished_reach l Hfin v v Hcycle l1 l2 El) as Hback.
  subst l. apply finished_suffix in Hfin. destruct Hfin as (_ & Hfresh & _).
  exact (Hfresh Hback).
Qed.

Lemma clos_trans_first (a b : string) :
  clos_trans string (edge deps) a b -> exists c, edge deps a c.
Proof.
  intros Hpath. induction Hpath as [a b Hstep | a m b _ IH _ _].
  - exists b. exact Hstep.
  - exact IH.
Qed.

Lemma search_not_exhausted : search <> Exhausted.
Proof.
  unfold Registry.search.
  apply (forEach_not_exhausted _
           (fun s => temp s = [] /\ stack_fits (S (List.length deps)) s)).
  - intros x st [_ Hfits]. apply visit_not_exhausted. exact Hfits.
  - intros x st st' [Ht Hfits] Ex. apply visit_frame in Ex.
    split; [congruence |]. destruct Hfits as (Hn & Hi & Hl).
    unfold Registry.stack_fits. rewrite Ex. repeat split; assumption.
  - split; [reflexivity |]. unfold Registry.stack_fits; simpl.
    repeat split; [constructor | intros x [] |].
    unfold keys. rewrite length_map. lia.
Qed.

Lemma search_done_when_closed :
  closed deps -> exists st, search = Done st.
Proof.
  intros Hclosed. pose proof search_not_exhausted as Hne.
  destruct search as [st | errs m |] eqn:Es.
  - exists st. reflexivity.
  - exfalso. revert Es. unfold Registry.search. apply forEach_not_thrown.
    intros x st e k Hx. apply visit_not_thrown; [exact Hclosed |].
    apply key_lookup. exact Hx.
  - congruence.
Qed.

Lemma search_silent_when_acyclic (st : Traversal) :
  acyclic -> search = Done st -> errors st = [].
Proof.
  intros Hacyclic Es. unfold Registry.search in Es.
  destruct (forEach_silent (visit deps (S (List.length deps))) (keys deps)
              (fun s => temp s = []))
    with (st := {| errors := []; visited := []; temp := [] |}) (st' := st)
    as [He _]; try assumption; try reflexivity.
  intros x s s' _ Hs Ex. split.
  - eapply visit_silent; [exact Hacyclic | | exact Ex].
    intros t Hin. rewrite Hs in Hin. contradiction.
  - apply visit_frame in Ex. congruence.
Qed.

Lemma search_silent_only_when_acyclic (st : Traversal) :
  search = Done st -> errors st = [] -> acyclic.
Proof.
  intros Es He a Hcycle. unfold Registry.search in Es.
  destruct (forEach_finishes (visit deps (S (List.length deps)))
              (visit_appends _) (keys deps)
              (fun x s s' _ => visit_finishes _ x s s') _ st Es He I)
    as (Hfin & Hall & _).
  destruct (clos_trans_first a a Hcycle) as (c & ds & Hl & _).
  apply (finished_no_cycle (visited st) a Hfin); [| exact Hcycle].
  apply Hall. eapply lookup_key. exact Hl.
Qed.

End Traversal.

(** *** From the services to the dependency table *)

Lemma lookup_dependency_table (services : list (string * ServiceDef)) (a : string) :
  lookup a (dependency_table services) = option_map deps_of (lookup a services).
Proof.
  induction services as [| [k v] rest IH]; simpl; [reflexivity |].
  destruct (String.eqb a k); [reflexivity | exact IH].
Qed.

Lemma lookup_In {A} (obj : list (string * A)) (k : string) (v : A) :
  lookup k obj = Some v -> In (k, v) obj.
Proof.
  induction obj as [| [k' v'] rest IH]; simpl; [discriminate |].
  destruct (String.eqb_spec k k') as [-> | Hne].
  - intros E. inversion E. left. reflexivity.
  - intros E. right. apply IH. exact E.
Qed.

Lemma edge_depends_on (services : list (string * ServiceDef)) (a b : string) :
  edge (dependency_table services) a b <-> depends_on services a b.
Proof.
  unfold edge, depends_on. rewrite lookup_dependency_table. split.
  - intros (ds & Hl & Hb).
    destruct (lookup a services) as [service |]; [| discriminate].
    inversion Hl; subst. unfold deps_of in Hb.
    destruct (dependencies service) as [deps |] eqn:Hd; [| contradiction].
    exists service, deps. auto.
  - intros (service & deps & Hl & Hd & Hb). rewrite Hl. simpl.
    exists (deps_of service). unfold deps_of. rewrite Hd. auto.
Qed.

Lemma cycle_in_table (services : list (string * ServiceDef)) (a b : string) :
  clos_trans string (edge (dependency_table services)) a b <->
  clos_trans string (depends_on services) a b.
Proof.
  split; intros Hpath; induction Hpath as [x y Hstep | x m y _ IH1 _ IH2].
  - apply t_step. apply edge_depends_on. exact Hstep.
  - eapply t_trans; eassumption.
  - apply t_step. apply edge_depends_on. exact Hstep.
  - eapply t_trans; eassumption.
Qed.

Lemma all_resolved_closed (services : list (string * ServiceDef)) :
  all_resolved services -> closed (dependency_table services).
Proof.
  intros Hres a b Hedge. apply edge_depends_on in Hedge.
  destruct Hedge as (service & deps & Hl & Hd & Hb).
  rewrite lookup_dependency_table.
  pose proof (Hres a service deps b (lookup_In _ _ _ Hl) Hd Hb) as Hsome.
  destruct (lookup b services); [discriminate | congruence].
Qed.

Lemma flat_map_nil {A B} (f : A -> list B) (l : list A) :
  (forall x, In x l -> f x = []) -> flat_map f l = [].
Proof.
  induction l as [| x rest IH]; simpl; intros Hf; [reflexivity |].
  rewrite (Hf x (or_introl eq_refl)). simpl.
  apply IH. intros y Hy. apply Hf. right. exact Hy.
Qed.

Lemma all_resolved_nothing_missing (services : list (string * ServiceDef)) :
  all_resolved services -> missing_errors services = [].
Proof.
  intros Hres. unfold missing_errors.
  apply flat_map_nil. intros [k v] Hin. simpl.
  destruct (dependencies v) as [ds |] eqn:Hd; [| reflexivity].
  apply flat_map_nil. intros d Hdep.
  pose proof (Hres k v ds d Hin Hd Hdep) as Hsome. unfold falsy_in.
  destruct (lookup d services); [reflexivity | congruence].
Qed.

(** The cycle search of the validation never exhausts its call stack. *)
Lemma cycle_search_terminates (services : list (string * ServiceDef)) :
  Registry.search (dependency_table services) <> Exhausted.
Proof. apply search_not_exhausted. Qed.

(** With every dependency resolved, an acyclic configuration is accepted. *)
Lemma validate_accepts_acyclic (services : list (string * ServiceDef)) :
  all_resolved services -> ~ has_cycle services ->
  validateServiceConfiguration services = [].
Proof.
  intros Hres Hnocycle. unfold validateServiceConfiguration.
  rewrite (all_resolved_nothing_missing _ Hres), app_nil_r.
  unfold cycle_errors.
  destruct (search_done_when_closed _ (all_resolved_closed _ Hres)) as [st Es].
  rewrite Es. apply (search_silent_when_acyclic (dependency_table services) st);
    [| exact Es].
  intros a Hcycle. apply Hnocycle. exists a. apply cycle_in_table. exact Hcycle.
Qed.

(** With every dependency resolved, a cycle is reported. *)
Lemma validate_reports_cycle (services : list (string * ServiceDef)) :
  all_resolved services -> has_cycle services ->
  existsb is_cycle_error (validateServiceConfiguration services) = true.
Proof.
  intros Hres [a Hcycle]. unfold validateServiceConfiguration.
  rewrite (all_resolved_nothing_missing _ Hres), app_nil_r.
  unfold cycle_errors.
  destruct (search_done_when_closed _ (all_resolved_closed _ Hres)) as [st Es].
  rewrite Es.
  pose proof (forEach_appends _
                (visit_appends (dependency_table services)
                   (S (List.length (dependency_table services))))
                (keys (dependency_table services))
                {| errors := []; visited := []; temp := [] |}) as Happ.
  fold (Registry.search (dependency_table services)) in Happ. rewrite Es in Happ.
  destruct Happ as (more & Emore & Hmore). simpl in Emore.
  destruct (errors st) as [| e rest] eqn:He.
  - exfalso.
    apply (search_silent_only_when_acyclic (dependency_table services) st Es He a).
    apply cycle_in_table. exact Hcycle.
  - subst more. inversion Hmore; subst. simpl.
    match goal with Hc : is_cycle_error e = true |- _ => rewrite Hc end.
    reflexivity.
Qed.

End RegistryFacts.

(** ** Properties of the remote deployment service *)

Module RemoteFacts.

Import Remote Scenarios.

(** *** The stored password along a run *)

Section Password.

Context {H : Type} (T : Target H).

Abbreviation keeps := (Remote.keeps (H := H)).
Abbreviation clears := (Remote.clears (H := H)).

Lemma keeps_ret {A} (a : A) : keeps (ret a).
Proof. intros w w' o E. inversion E. reflexivity. Qed.

Lemma keeps_throw {A} (e : string) : keeps (throw (A := A) e).
Proof. intros w w' o E. inversion E. reflexivity. Qed.

Lemma keeps_bind {A B} (m : M A) (k : A -> M B) :
  keeps m -> (forall a, keeps (k a)) -> keeps (bind m k).
Proof.
  intros Hm Hk w w' o E. unfold bind in E.
  destruct (m w) as [w1 [a | e | i]] eqn:Em.
  - rewrite (Hk a _ _ _ E). eapply Hm; eassumption.
  - inversion E; subst. eapply Hm; eassumption.
  - inversion E; subst. eapply Hm; eassumption.
Qed.

Lemma keeps_try_catch {A} (m : M A) (handler : string -> M A) :
  keeps m -> (forall e, keeps (handler e)) -> keeps (try_catch m handler).
Proof.
  intros Hm Hh w w' o E. unfold try_catch in E.
  destruct (m w) as [w1 [a | e | i]] eqn:Em.
  - inversion E; subst. eapply Hm; eassumption.
  - rewrite (Hh e _ _ _ E). eapply Hm; eassumption.
  - inversion E; subst. eapply Hm; eassumption.
Qed.

Lemma keeps_forM {A B} (xs : list A) (f : A -> M B) :
  (forall x, keeps (f x)) -> keeps (forM xs f).
Proof.
  intros Hf. induction xs as [| x rest IH]; simpl.
  - apply keeps_ret.
  - apply keeps_bind; [apply Hf | intros y].
    apply keeps_bind; [exact IH | intros ys]. apply keeps_ret.
Qed.

Lemma keeps_wait (ms : N) : keeps (wait (H := H) ms).
Proof.
  intros w w' o E. unfold wait in E.
  destruct (deadline w <=? now w + ms)%N; inversion E; reflexivity.
Qed.

Lemma keeps_conn_exec (command : string) : keeps (conn_exec T command).
Proof.
  intros w w' o E. unfold conn_exec in E.
  destruct (on_exec T command (remote w)) as [h [| ms r]].
  - inversion E. reflexivity.
  - destruct (wait ms (record_sent command h w)) as [w2 [[] | e | i]] eqn:Ew;
      apply keeps_wait in Ew; simpl in Ew;
      [destruct r |..]; inversion E; subst; exact Ew.
Qed.

Lemma keeps_execCommand (command : string) : keeps (execCommand T command).
Proof.
  intros w w' o E. unfold execCommand in E. revert E.
  apply keeps_bind; [apply keeps_conn_exec |].
  intros [[code out] err]. apply keeps_ret.
Qed.

Lemma keeps_execCommandWithOutput (command : string) :
  keeps (execCommandWithOutput T command).
Proof.
  intros w w' o E. unfold execCommandWithOutput in E. revert E.
  apply keeps_bind; [apply keeps_conn_exec |].
  intros [[code out] err].
  destruct code as [[| p | p] |]; try apply keeps_ret;
    destruct (truthy (stderr_capture err)); apply keeps_throw.
Qed.

(** Decomposes a goal [keeps m] along the structure of [m]. *)
Ltac keeps_tac :=
  repeat first
    [ apply keeps_ret
    | apply keeps_throw
    | apply keeps_execCommand
    | apply keeps_execCommandWithOutput
    | apply keeps_wait
    | apply keeps_bind; [| intros ?]
    | apply keeps_try_catch; [| intros ?]
    | apply keeps_forM; intros ?
    | match goal with
      | |- keeps (if ?b then _ else _) => destruct b
      end
    | progress cbv zeta ].

Lemma keeps_checkDocker : keeps (checkDocker T).
Proof. unfold checkDocker. keeps_tac. Qed.

Lemma keeps_installDocker : keeps (installDocker T).
Proof. unfold installDocker. keeps_tac. Qed.

Lemma keeps_setupCuda : keeps (setupCuda T).
Proof.
  unfold setupCuda, installNvidiaToolkitApt, installNvidiaToolkitYum, sleep.
  keeps_tac.
Qed.

Lemma keeps_setupRocm : keeps (setupRocm T).
Proof. unfold setupRocm. keeps_tac. Qed.

Lemma keeps_setupStrix : keeps (setupStrix T).
Proof. unfold setupStrix. keeps_tac. Qed.

Lemma keeps_prepare_hardware (hw : string) : keeps (prepare_hardware T hw).
Proof.
  unfold prepare_hardware.
  destruct (negb (hw =? "cpu")%string); [| apply keeps_ret].
  apply keeps_try_catch; [| intros e; apply keeps_ret].
  destruct (hw =? "cuda")%string;
    [apply keeps_bind; [apply keeps_setupCuda | intros; apply keeps_ret] |].
  destruct (hw =? "rocm")%string;
    [apply keeps_bind; [apply keeps_setupRocm | intros; apply keeps_ret] |].
  destruct (hw =? "strix")%string;
    [apply keeps_bind; [apply keeps_setupStrix | intros; apply keeps_ret] |].
  apply keeps_ret.
Qed.

Lemma clears_bind {A B} (m : M A) (k : A -> M B) :
  keeps m -> (forall a, clears (k a)) -> clears (bind m k).
Proof.
  intros Hm Hk w w' o E. unfold bind in E.
  destruct (m w) as [w1 [a | e | i]] eqn:Em.
  - specialize (Hk a _ _ _ E). apply Hm in Em.
    destruct o; congruence.
  - inversion E; subst. eapply Hm; eassumption.
  - inversion E; subst. eapply Hm; eassumption.
Qed.

Lemma clears_clear_password {A} (a : A) :
  clears (bind (clear_password (H := H)) (fun _ => ret a)).
Proof. intros w w' o E. inversion E. reflexivity. Qed.

Lemma clears_deployment (config : Config) : clears (deployment T config).
Proof.
  unfold deployment, sleep. cbv zeta.
  repeat first
    [ apply clears_clear_password
    | apply clears_bind;
        [ first [ apply keeps_checkDocker | apply keeps_installDocker
                | apply keeps_prepare_hardware | keeps_tac ]
        | intros ? ]
    | progress cbv zeta ].
Qed.

(** The ['ready'] listener of [deploy] never lets an exception escape; it
    has cleared the field whenever it completes. *)
Lemma deploy_on_ready_clears (config : Config) :
  forall w w' o, deploy_on_ready T config w = (w', o) ->
    match o with
    | Ok settled => sudoPassword w' = None /\ exists r, settled = Resolved r
    | Throw _ => False
    | Suspended _ => sudoPassword w' = sudoPassword w
    end.
Proof.
  intros w w' o E. unfold deploy_on_ready, try_catch, bind in E.
  destruct (deployment T config w) as [w1 [a | e | i]] eqn:Ed;
    apply clears_deployment in Ed; simpl in E.
  - inversion E; subst. split; [exact Ed | eexists; reflexivity].
  - inversion E; subst. split; [reflexivity | eexists; reflexivity].
  - inversion E; subst. exact Ed.
Qed.

(** Whatever the remote machine does: when the promise of [deploy]
    resolves, the field has been cleared; when it rejects, the field still
    holds the password of the configuration. *)
Lemma deploy_password_at_settlement (config : Config) (w : World) :
  match deploy T config w with
  | (w', Resolved _) => sudoPassword w' = None
  | (w', Rejected _) => sudoPassword w' = password config
  end.
Proof.
  unfold deploy, connect_and_run.
  set (w0 := set_deadline _ _).
  destruct (on_connect T _ (remote w0)) as [h handshake].
  destruct (client_event 30000 handshake) as [ms | ms err].
  - destruct (wait ms (set_remote h w0)) as [w1 [[] | e | i]] eqn:Ew;
      apply keeps_wait in Ew; simpl in Ew; try exact Ew.
    destruct (deploy_on_ready T config w1) as [w2 [settled | e | [| err]]] eqn:Er;
      apply deploy_on_ready_clears in Er; simpl.
    + destruct Er as [Hcleared [r Hr]]. subst settled. exact Hcleared.
    + contradiction.
    + congruence.
    + reflexivity.
  - destruct (wait ms (set_remote h w0)) as [w1 [[] | e | i]] eqn:Ew;
      apply keeps_wait in Ew; simpl in Ew; try exact Ew.
    reflexivity.
Qed.

End Password.

(** *** Hardware detection on a responsive machine *)

Section Detection.

Context {H : Type} (T : Target H).

Lemma bind_ok {A B} (m : M (H := H) A) (k : A -> M B) w w1 a :
  m w = (w1, Ok a) -> bind m k w = k a w1.
Proof. intros E. unfold bind. rewrite E. reflexivity. Qed.

Lemma sudo_wrap_plain (stored : option string) (command : string) :
  includes command "sudo" = false -> sudo_wrap stored command = command.
Proof.
  intros Hplain. unfold sudo_wrap. destruct stored as [pw |]; [| reflexivity].
  rewrite Hplain, andb_false_r. reflexivity.
Qed.

(** One command on a responsive machine with enough time left. *)
Lemma execCommand_answers (bound : N) (command : string) (w : World) :
  responsive T bound ->
  (now w + bound < deadline w)%N ->
  exists w' text,
    execCommand T command w = (w', Ok text) /\
    (now w' <= now w + bound)%N /\
    deadline w' = deadline w /\
    sudoPassword w' = sudoPassword w /\
    sent w' = List.app (sent w) [sudo_wrap (sudoPassword w) command].
Proof.
  intros Hresp Htime.
  destruct (Hresp (sudo_wrap (sudoPassword w) command) (remote w))
    as (h & ms & code & out & err & Hexec & Hms).
  unfold execCommand, bind, conn_exec. rewrite Hexec.
  unfold wait, record_sent; simpl.
  destruct (N.leb_spec (deadline w) (now w + ms)) as [Hlate | Hintime]; [lia |].
  simpl. eexists. eexists. split; [reflexivity |]. simpl.
  repeat split; try reflexivity. lia.
Qed.

(** The first command of the detection, whose answer is known. *)
Lemma execCommand_arch (bound : N) (text : string) (w : World) :
  responsive T bound ->
  (now w + bound < deadline w)%N ->
  answers_arch T w text ->
  exists w',
    execCommand T cmd_arch w = (w', Ok text) /\
    (now w' <= now w + bound)%N /\
    deadline w' = deadline w /\
    sudoPassword w' = sudoPassword w /\
    sent w' = List.app (sent w) [cmd_arch].
Proof.
  intros Hresp Htime (h & ms & code & out & err & Hexec & Htext).
  destruct (Hresp cmd_arch (remote w))
    as (h' & ms' & code' & out' & err' & Hexec' & Hms).
  rewrite Hexec in Hexec'. inversion Hexec'; subst; clear Hexec'.
  unfold execCommand, bind, conn_exec.
  rewrite (sudo_wrap_plain _ cmd_arch eq_refl), Hexec.
  unfold wait, record_sent; simpl.
  destruct (N.leb_spec (deadline w) (now w + ms')) as [Hlate | Hintime]; [lia |].
  simpl. eexists. split; [reflexivity |]. simpl.
  repeat split; try reflexivity. lia.
Qed.

(** One probe on a responsive machine with enough time left: what comes
    back is what the machine tells. *)
Lemma execCommand_told (bound : N) (command : string) (w : World) :
  responsive T bound ->
  (now w + bound < deadline w)%N ->
  includes command "sudo" = false ->
  exists w',
    execCommand T command w = (w', Ok (snd (told T command (remote w)))) /\
    remote w' = fst (told T command (remote w)) /\
    (now w' <= now w + bound)%N /\
    deadline w' = deadline w.
Proof.
  intros Hresp Htime Hplain.
  destruct (Hresp command (remote w))
    as (h & ms & code & out & err & Hexec & Hms).
  unfold execCommand, bind, conn_exec, told.
  rewrite (sudo_wrap_plain _ command Hplain), Hexec.
  unfold wait, record_sent; simpl.
  destruct (N.leb_spec (deadline w) (now w + ms)) as [Hlate | Hintime]; [lia |].
  simpl. eexists. split; [reflexivity |]. simpl.
  repeat split. lia.
Qed.

Ltac probe Hresp c h a :=
  match goal with
  | |- context [bind (execCommand _ c) _ ?w] =>
      let w1 := fresh "w" in
      let Ex := fresh "Eprobe" in
      let Hr := fresh "Hremote" in
      let Hn := fresh "Hnow" in
      let Hd := fresh "Hdl" in
      destruct (execCommand_told _ c w Hresp ltac:(lia) eq_refl)
        as (w1 & Ex & Hr & Hn & Hd);
      rewrite (bind_ok _ _ _ _ _ Ex); clear Ex; cbv beta;
      repeat match goal with
             | Hs : remote ?x = _ |- _ => rewrite Hs in *; clear Hs
             end;
      match goal with
      | |- context [told ?T c ?x] => destruct (told T c x) as [h a]
      end;
      cbn [fst snd] in *
  end.

(** On a responsive machine the details returned are the findings of the
    answers it gives. *)
Lemma detectHardware_findings (bound : N) (w : World) :
  responsive T bound ->
  (now w + 7 * bound < deadline w)%N ->
  exists w' r,
    detectHardware T w = (w', Ok r) /\
    details r = findings (answers T (remote w)).
Proof.
  intros Hresp Htime. unfold detectHardware, answers.
  probe Hresp cmd_arch h1 archInfo.
  probe Hresp cmd_docker_version h2 dockerOut.
  probe Hresp cmd_nvidia h3 nvidiaInfo.
  change (truthy nvidiaInfo && negb (absent nvidiaInfo) && truthy (trim nvidiaInfo))
    with (finds nvidiaInfo).
  assert (Hcuda : exists w3 h4 cudaOut,
             (if finds nvidiaInfo
              then let (h', out) := told T cmd_nvcc h3 in (h', Some out)
              else (h3, None)) = (h4, cudaOut) /\
             (if finds nvidiaInfo then
                bind (execCommand T cmd_nvcc)
                     (fun cudaOut =>
                        ret (if truthy cudaOut && truthy (trim cudaOut)
                             then Some (replaceFirst "," EmptyString (trim cudaOut))
                             else None))
              else ret None) w2
             = (w3, Ok (version_read (replaceFirst "," EmptyString) cudaOut)) /\
             remote w3 = h4 /\
             (now w3 <= now w2 + bound)%N /\ deadline w3 = deadline w2).
  { destruct (finds nvidiaInfo).
    - probe Hresp cmd_nvcc h4 out.
      eexists. exists h4, (Some out). repeat split; eassumption.
    - exists w2, h3, None. repeat split; [assumption | lia]. }
  destruct Hcuda as (w3 & h4 & cudaOut & -> & Ecuda & Hremote3 & Hnow3 & Hdl3).
  rewrite (bind_ok _ _ _ _ _ Ecuda). clear Ecuda. cbv beta.
  probe Hresp cmd_rocm h5 rocmInfo.
  change (truthy rocmInfo && negb (absent rocmInfo) && truthy (trim rocmInfo))
    with (finds rocmInfo).
  assert (Hrocm : exists w5 h6 rocmOut,
             (if finds rocmInfo
              then let (h', out) := told T cmd_rocm_version h5 in (h', Some out)
              else (h5, None)) = (h6, rocmOut) /\
             (if finds rocmInfo then
                bind (execCommand T cmd_rocm_version)
                     (fun rocmOut =>
                        ret (if truthy rocmOut && truthy (trim rocmOut)
                             then Some (trim rocmOut) else None))
              else ret None) w4
             = (w5, Ok (version_read (fun v => v) rocmOut)) /\
             remote w5 = h6 /\
             (now w5 <= now w4 + bound)%N /\ deadline w5 = deadline w4).
  { destruct (finds rocmInfo).
    - probe Hresp cmd_rocm_version h6 out.
      eexists. exists h6, (Some out). repeat split; eassumption.
    - exists w4, h5, None. repeat split; [assumption | lia]. }
  destruct Hrocm as (w5 & h6 & rocmOut & -> & Erocm & Hremote5 & Hnow5 & Hdl5).
  rewrite (bind_ok _ _ _ _ _ Erocm). clear Erocm. cbv beta.
  probe Hresp cmd_lscpu h7 cpuInfo.
  unfold findings, ret. cbn [said_arch said_docker said_nvidia said_nvcc
                             said_rocm said_rocm_version said_lscpu architecture
                             nvidia strix rocm].
  destruct (isARM (if truthy archInfo then trim archInfo else "unknown"));
    [| destruct (finds nvidiaInfo);
       [| destruct (truthy cpuInfo && _); [| destruct (finds rocmInfo)]]];
    eexists; eexists; (split; [reflexivity |]); reflexivity.
Qed.

Lemma isARM_trim_truthy (text : string) :
  isARM (trim text) = true -> truthy text = true.
Proof. destruct text; [discriminate | reflexivity]. Qed.

Ltac answer Hresp E :=
  match type of E with
  | bind (execCommand _ ?c) _ ?w = _ =>
      let w1 := fresh "w" in
      let t := fresh "text" in
      let Ex := fresh "Ex" in
      let Hn := fresh "Hnow" in
      let Hd := fresh "Hdl" in
      let Hp := fresh "Hpw" in
      let Hs := fresh "Hsent" in
      destruct (execCommand_answers _ c w Hresp ltac:(lia))
        as (w1 & t & Ex & Hn & Hd & Hp & Hs);
      rewrite (sudo_wrap_plain _ c eq_refl) in Hs;
      rewrite (bind_ok _ _ _ _ _ Ex) in E
  end.

Lemma detectHardware_run (bound : N) (text : string) (w : World) :
  responsive T bound ->
  (now w + 7 * bound < deadline w)%N ->
  answers_arch T w text ->
  exists w' r, detectHardware T w = (w', Ok r) /\ detection_run w w' text r.
Proof.
  intros Hresp Htime Harch.
  destruct (detectHardware T w) as [w' o] eqn:E.
  unfold detectHardware in E.
  destruct (execCommand_arch bound text w Hresp ltac:(lia) Harch)
    as (w1 & Ex1 & Hnow1 & Hdl1 & Hpw1 & Hsent1).
  rewrite (bind_ok _ _ _ _ _ Ex1) in E. cbv zeta in E.
  answer Hresp E. cbv zeta in E.
  answer Hresp E. cbv zeta in E.
  set (hasNvidia := truthy text1 && negb (absent text1) && truthy (trim text1)) in *.
  assert (Hcuda : exists w3 cuda extra1,
             (if hasNvidia then
                bind (execCommand T cmd_nvcc)
                     (fun cudaOut =>
                        ret (if truthy cudaOut && truthy (trim cudaOut)
                             then Some (replaceFirst "," EmptyString (trim cudaOut))
                             else None))
              else ret None) w2 = (w3, Ok cuda) /\
             (now w3 <= now w2 + bound)%N /\ deadline w3 = deadline w2 /\
             sent w3 = List.app (sent w2) extra1).
  { destruct hasNvidia.
    - destruct (execCommand_answers bound cmd_nvcc w2 Hresp ltac:(lia))
        as (w3 & t & Ecmd & Hn & Hd & Hp & Hs).
      exists w3. eexists. eexists.
      rewrite (bind_ok _ _ _ _ _ Ecmd). unfold ret.
      repeat split; try eassumption.
    - exists w2, None, []. unfold ret. rewrite app_nil_r.
      repeat split. lia. }
  destruct Hcuda as (w3 & cuda & extra1 & Ecuda & Hnow3 & Hdl3 & Hsent3).
  rewrite (bind_ok _ _ _ _ _ Ecuda) in E.
  answer Hresp E. cbv zeta in E.
  set (hasRocm := truthy text2 && negb (absent text2) && truthy (trim text2)) in *.
  assert (Hrocm : exists w5 ver extra2,
             (if hasRocm then
                bind (execCommand T cmd_rocm_version)
                     (fun rocmOut =>
                        ret (if truthy rocmOut && truthy (trim rocmOut)
                             then Some (trim rocmOut) else None))
              else ret None) w4 = (w5, Ok ver) /\
             (now w5 <= now w4 + bound)%N /\ deadline w5 = deadline w4 /\
             sent w5 = List.app (sent w4) extra2).
  { destruct hasRocm.
    - destruct (execCommand_answers bound cmd_rocm_version w4 Hresp ltac:(lia))
        as (w5 & t & Ecmd & Hn & Hd & Hp & Hs).
      exists w5. eexists. eexists.
      rewrite (bind_ok _ _ _ _ _ Ecmd). unfold ret.
      repeat split; try eassumption.
    - exists w4, None, []. unfold ret. rewrite app_nil_r.
      repeat split. lia. }
  destruct Hrocm as (w5 & ver & extra2 & Erocm & Hnow5 & Hdl5 & Hsent5).
  rewrite (bind_ok _ _ _ _ _ Erocm) in E.
  answer Hresp E. cbv zeta in E.
  assert (Hprobes :
            exists extra,
              sent w6 = List.app (sent w)
                          (cmd_arch :: cmd_docker_version :: cmd_nvidia :: extra) /\
              In cmd_rocm extra /\ In cmd_lscpu extra).
  { exists (List.app extra1 (cmd_rocm :: List.app extra2 [cmd_lscpu])).
    repeat match goal with
           | Hs : sent ?x = _ |- context [sent ?x] => rewrite Hs
           end.
    repeat rewrite <- app_assoc. simpl.
    split; [reflexivity |].
    split; apply in_or_app; right; [left; reflexivity |].
    right. apply in_or_app. right. left. reflexivity. }
  set (hasStrix := truthy text3 && _) in E.
  clearbody hasNvidia hasRocm hasStrix.
  clear - E Hprobes.
  assert (Hdone : forall r, (w6, Ok r) = (w', o) ->
                    exists w'0 r0, (w', o) = (w'0, Ok r0) /\ r0 = r /\ w'0 = w6).
  { intros r Hr. inversion Hr; subst. eauto. }
  simpl in E. unfold ret in E.
  destruct (isARM (if truthy text then trim text else "unknown")) eqn:Harm;
    [| destruct hasNvidia; [| destruct hasStrix; [| destruct hasRocm]]];
    destruct (Hdone _ E) as (w'0 & r0 & Hrun & Hr & Hw); subst r0 w'0;
    exists w6; eexists; (split; [exact Hrun |]);
    (constructor; simpl;
     [ reflexivity
     | rewrite Harm; intros Hyes; first [discriminate Hyes | repeat split]
     | rewrite Harm; intros Hno; first [discriminate Hno | idtac]
     | exact Hprobes ]).
  - unfold by_precedence, nvidia_without_toolkit; simpl.
    split; [reflexivity |]. destruct (truthy_opt cuda); reflexivity.
  - split; reflexivity.
  - split; reflexivity.
  - split; reflexivity.
Qed.

End Detection.

(** *** The scripted machines *)

Lemma scripted_responsive (greeting : Handshake)
    (answer : list string -> string -> Response) (bound : N) :
  (forall h command, exists ms code out err,
      answer h command = ReplyAfter ms (StreamClosed code out err) /\
      (ms <= bound)%N) ->
  responsive (scripted greeting answer) bound.
Proof.
  intros Hanswer command h.
  destruct (Hanswer h command) as (ms & code & out & err & Ha & Hms).
  exists (List.app h [command]), ms, code, out, err.
  simpl. rewrite Ha. split; [reflexivity | exact Hms].
Qed.

Ltac scripted_answers :=
  intros ? ?; unfold says, quiet;
  repeat match goal with
         | |- context [if ?b then _ else _] => destruct b
         end;
  do 4 eexists; (split; [reflexivity | vm_compute; discriminate]).

Lemma arm_board_responsive : responsive arm_board 40.
Proof. apply scripted_responsive. scripted_answers. Qed.

Lemma nvidia_box_responsive : responsive nvidia_box 40.
Proof. apply scripted_responsive. scripted_answers. Qed.

(** *** Secret lifecycle *)

(** C1. Against a machine that accepts the connection and then never
    answers, [deploy] is settled by its timer: the promise is rejected and
    [this.sudoPassword] still holds the password of the configuration. *)
Theorem deploy_timeout_keeps_sudoPassword :
  snd (deploy unresponsive (ubuntu "cuda") fresh)
    = Rejected "Deployment timeout after 5 minutes" /\
  sudoPassword (fst (deploy unresponsive (ubuntu "cuda") fresh))
    = Some "hunter2".
Proof. split; reflexivity. Qed.

(** *** GPU fallback *)

(** C2. Against a machine without NVIDIA drivers on which every engine
    command succeeds, the CUDA setup raises, and [deploy] with hardware
    type [cuda] falls back to the CPU image and starts the CPU container;
    it then asks the engine for a running container named after the
    requested type, finds none, and resolves with a failure. *)
Theorem deploy_cuda_fallback_reports_failure :
  snd (setupCuda gpu_less (set_deadline 300000 fresh)) = Throw no_nvidia_drivers /\
  exists w reason,
    deploy gpu_less (ubuntu "cuda") fresh = (w, Resolved (DeployFailed reason)) /\
    startsWith reason "Container failed to start." = true /\
    In "docker pull clara17verse/claracore:cpu" (sent w) /\
    cpu_started (remote w) = true /\
    In "docker ps -q -f name=claracore-cuda" (sent w) /\
    ~ In "docker ps -q -f name=claracore-cpu" (sent w).
Proof.
  split; [reflexivity |].
  eexists. eexists. split; [vm_compute; reflexivity |].
  split; [reflexivity |].
  split; [simpl; tauto |].
  split; [reflexivity |].
  split; [simpl; tauto |].
  simpl. intros Hin.
  repeat (destruct Hin as [Hin | Hin]; [discriminate Hin |]). exact Hin.
Qed.

(** *** ARM machines *)




(** *** Recommendation *)



(** *** Connection-level failures *)

Section Settlement.

Context {H : Type} (T : Target H).

Abbreviation steady := (Remote.steady (H := H)).

Lemma steady_ret {A} (a : A) : steady (ret a).
Proof. intros w w' o E. inversion E. reflexivity. Qed.

Lemma steady_throw {A} (e : string) : steady (throw (A := A) e).
Proof. intros w w' o E. inversion E. reflexivity. Qed.

Lemma steady_bind {A B} (m : M A) (k : A -> M B) :
  steady m -> (forall a, steady (k a)) -> steady (bind m k).
Proof.
  intros Hm Hk w w' o E. unfold bind in E.
  destruct (m w) as [w1 [a | e | i]] eqn:Em.
  - rewrite (Hk a _ _ _ E). eapply Hm; eassumption.
  - inversion E; subst. eapply Hm; eassumption.
  - inversion E; subst. eapply Hm; eassumption.
Qed.

Lemma steady_try_catch {A} (m : M A) (handler : string -> M A) :
  steady m -> (forall e, steady (handler e)) -> steady (try_catch m handler).
Proof.
  intros Hm Hh w w' o E. unfold try_catch in E.
  destruct (m w) as [w1 [a | e | i]] eqn:Em.
  - inversion E; subst. eapply Hm; eassumption.
  - rewrite (Hh e _ _ _ E). eapply Hm; eassumption.
  - inversion E; subst. eapply Hm; eassumption.
Qed.

Lemma steady_forM {A B} (xs : list A) (f : A -> M B) :
  (forall x, steady (f x)) -> steady (forM xs f).
Proof.
  intros Hf. induction xs as [| x rest IH]; simpl.
  - apply steady_ret.
  - apply steady_bind; [apply Hf | intros y].
    apply steady_bind; [exact IH | intros ys]. apply steady_ret.
Qed.

Lemma steady_wait (ms : N) : steady (wait (H := H) ms).
Proof.
  intros w w' o E. unfold wait in E.
  destruct (deadline w <=? now w + ms)%N; inversion E; reflexivity.
Qed.

Lemma steady_conn_exec (command : string) : steady (conn_exec T command).
Proof.
  intros w w' o E. unfold conn_exec in E.
  destruct (on_exec T command (remote w)) as [h [| ms r]].
  - inversion E. reflexivity.
  - destruct (wait ms (record_sent command h w)) as [w2 [[] | e | i]] eqn:Ew;
      apply steady_wait in Ew; simpl in Ew;
      [destruct r |..]; inversion E; subst; exact Ew.
Qed.

Lemma steady_execCommand (command : string) : steady (execCommand T command).
Proof.
  intros w w' o E. unfold execCommand in E. revert E.
  apply steady_bind; [apply steady_conn_exec |].
  intros [[code out] err]. apply steady_ret.
Qed.

Lemma steady_execCommandWithOutput (command : string) :
  steady (execCommandWithOutput T command).
Proof.
  intros w w' o E. unfold execCommandWithOutput in E. revert E.
  apply steady_bind; [apply steady_conn_exec |].
  intros [[code out] err].
  destruct code as [[| p | p] |]; try apply steady_ret;
    destruct (truthy (stderr_capture err)); apply steady_throw.
Qed.

Lemma steady_clear_password : steady (clear_password (H := H)).
Proof. intros w w' o E. inversion E. reflexivity. Qed.

(** Decomposes a goal [steady m] along the structure of [m]. *)
Ltac steady_tac :=
  repeat first
    [ apply steady_ret
    | apply steady_throw
    | apply steady_execCommand
    | apply steady_execCommandWithOutput
    | apply steady_wait
    | apply steady_clear_password
    | apply steady_bind; [| intros ?]
    | apply steady_try_catch; [| intros ?]
    | apply steady_forM; intros ?
    | match goal with
      | |- Remote.steady (if ?b then _ else _) => destruct b
      end
    | progress cbv zeta ].

Lemma steady_testSetup_on_ready : steady (testSetup_on_ready T).
Proof. unfold testSetup_on_ready, detectHardware. steady_tac. Qed.

Lemma steady_deploy_on_ready (config : Config) :
  steady (deploy_on_ready T config).
Proof.
  unfold deploy_on_ready, deployment, prepare_hardware, checkDocker,
    installDocker, setupCuda, setupRocm, setupStrix,
    installNvidiaToolkitApt, installNvidiaToolkitYum, sleep.
  steady_tac.
Qed.

(** The ['ready'] listener of [testSetup] only ever resolves. *)
Lemma testSetup_on_ready_resolves (w w' : World) (o : Out (Settled SetupResult)) :
  testSetup_on_ready T w = (w', o) ->
  match o with
  | Ok settled => exists r, settled = Resolved r
  | Throw _ => False
  | Suspended _ => True
  end.
Proof.
  unfold testSetup_on_ready, try_catch, bind. intros E.
  destruct (detectHardware T w) as [w1 [r | e | i]];
    inversion E; subst; simpl; eauto.
Qed.

(** An operation whose listeners only resolve is rejected by its timer
    alone, and then at the very moment the timer expires. *)
Lemma rejected_by_the_timer_alone {A} (config : Config) (timer readyTimeout : N)
    (on_ready : M (Settled A))
    (on_error : SshError -> World -> World * Settled A)
    (message : string) (w : World) (m : string) :
  steady on_ready ->
  (forall w1 w2 settled, on_ready w1 = (w2, Ok settled) ->
                         exists r, settled = Resolved r) ->
  (forall err w1, exists r, snd (on_error err w1) = Resolved r) ->
  snd (connect_and_run T config timer readyTimeout on_ready on_error
         (fun w1 => (set_now (deadline w1) w1, Rejected message)) w)
    = Rejected m ->
  m = message /\
  now (fst (connect_and_run T config timer readyTimeout on_ready on_error
              (fun w1 => (set_now (deadline w1) w1, Rejected message)) w))
    = (now w + timer)%N.
Proof.
  intros Hsteady Hready Herror. unfold connect_and_run.
  destruct (on_connect T _ _) as [h handshake].
  assert (Hresolved : forall err w1 m,
            snd (on_error err w1) = Rejected m -> False).
  { intros err w1 m0 E. destruct (Herror err w1) as (r & Hr). congruence. }
  destruct (client_event readyTimeout handshake) as [ms | ms err].
  - destruct (wait ms _) as [w1 [[] | e | i]] eqn:Ew;
      apply steady_wait in Ew; simpl in Ew;
      try (simpl; intros E; inversion E; split; [reflexivity | exact Ew]).
    destruct (on_ready w1) as [w2 [settled | e | [| err]]] eqn:Er;
      pose proof (Hsteady _ _ _ Er) as Hd; simpl;
      try (intros E; inversion E; split; [reflexivity | congruence]).
    + destruct (Hready _ _ _ Er) as (r & ->). discriminate.
    + intros E. elim (Hresolved _ _ _ E).
  - destruct (wait ms _) as [w1 [[] | e | i]] eqn:Ew;
      apply steady_wait in Ew; simpl in Ew;
      try (simpl; intros E; inversion E; split; [reflexivity | exact Ew]).
    intros E. elim (Hresolved _ _ _ E).
Qed.

(** [testSetup] rejects only when its timer expires. *)
Lemma testSetup_rejects_only_on_timeout (config : Config) (w : World) (m : string) :
  snd (testSetup T config w) = Rejected m ->
  m = "Connection timeout after 30 seconds" /\
  now (fst (testSetup T config w)) = (now w + 30000)%N.
Proof.
  apply rejected_by_the_timer_alone.
  - apply steady_testSetup_on_ready.
  - intros w1 w2 settled Er. exact (testSetup_on_ready_resolves _ _ _ Er).
  - intros err w1. eexists. reflexivity.
Qed.

(** [deploy] rejects only when its timer expires. *)
Lemma deploy_rejects_only_on_timeout (config : Config) (w : World) (m : string) :
  snd (deploy T config w) = Rejected m ->
  m = "Deployment timeout after 5 minutes" /\
  now (fst (deploy T config w)) = (now w + 300000)%N.
Proof.
  unfold deploy. intros E.
  change (now w) with (now (set_sudoPassword (password config) w)).
  revert E. apply rejected_by_the_timer_alone.
  - apply steady_deploy_on_ready.
  - intros w1 w2 settled Er.
    exact (proj2 (deploy_on_ready_clears T config _ _ _ Er)).
  - intros err w1. eexists. reflexivity.
Qed.

End Settlement.




End RemoteFacts.

(** ** Properties of the local container service *)

Module DockerFacts.

Import DockerService Scenarios.

(** *** Status *)

(** When the engine cannot list the containers, the status carries no
    error field. *)
Lemma status_of_unreachable_engine_has_no_error :
  (exists e, snd (listContainers daemon_down tt) = Failed e) /\
  exists s,
    snd (getStatus daemon_down (idle tt)) = Returned s /\
    st_exists s = false /\ st_running s = false /\ st_error s = None.
Proof.
  split; [eexists; reflexivity |].
  eexists. repeat split.
Qed.

(** C9. [getStatus] returns for every behaviour of the engine.  When the
    listing fails or does not show the container, the result has
    [exists] and [running] false, the variant and image of the instance,
    and no error field; when the listing shows the container and the
    inspection fails, it has [exists] and [running] false and the error
    message; otherwise it reports existence, the running flag, the engine
    status, the start time, the image and the port mappings. *)
Theorem getStatus_never_throws :
  forall (X : Type) (E : Environment X) (w : World),
    exists w' s,
      getStatus E w = (w', Returned s) /\
      match listContainers E (env w) with
      | (_, Failed _) => s = status_absent w
      | (x, Returned containers) =>
          if existsb named_clara_core containers
          then
            match inspect E containerName x with
            | (_, Failed e) =>
                st_exists s = false /\ st_running s = false /\
                st_error s = Some e
            | (_, Returned info) =>
                st_exists s = true /\ st_running s = Running info /\
                st_status s = Some (Status info) /\
                st_started s = Some (StartedAt info) /\
                st_image s = Some (Image info) /\
                st_ports s = Some (Ports info) /\
                st_error s = None
            end
          else s = status_absent w
      end.
Proof.
  intros X E w.
  unfold getStatus, containerExists, try_catch, bind, call, ret. simpl.
  destruct (listContainers E (env w)) as [x [containers | e]]; simpl.
  - change (fun c => array_includes (Names c) (String "/"%char containerName))
      with named_clara_core.
    destruct (existsb named_clara_core containers); simpl.
    + destruct (inspect E containerName x) as [x' [info | e]]; simpl;
        eexists; eexists; (split; [reflexivity |]); simpl; repeat split.
    + eexists; eexists; (split; [reflexivity |]); reflexivity.
  - eexists; eexists; (split; [reflexivity |]); reflexivity.
Qed.

(** *** Starting an already running container *)

Section Idempotence.

Context {X : Type} (E : Environment X).
Variable platform : string.
Variable isNaN : string -> bool.
Variable Good : X -> Prop.
Hypothesis Hgood : keeps_running E Good.

Abbreviation harmless := (DockerService.harmless Good).
Abbreviation returns := (DockerService.returns (X := X)).

Lemma only_queries_refl (w : World (X := X)) : only_queries w w.
Proof. exists []. rewrite app_nil_r. split; reflexivity. Qed.

Lemma only_queries_trans (w1 w2 w3 : World (X := X)) :
  only_queries w1 w2 -> only_queries w2 w3 -> only_queries w1 w3.
Proof.
  intros [m1 [E1 F1]] [m2 [E2 F2]]. exists (List.app m1 m2).
  rewrite E2, E1, app_assoc, forallb_app, F1, F2. split; reflexivity.
Qed.

Lemma harmless_ret {A} (a : A) : harmless (ret a).
Proof.
  intros w w' r Hg Em. inversion Em; subst.
  split; [exact Hg | apply only_queries_refl].
Qed.

Lemma harmless_throw {A} (e : string) : harmless (throw (A := A) e).
Proof.
  intros w w' r Hg Em. inversion Em; subst.
  split; [exact Hg | apply only_queries_refl].
Qed.

Lemma harmless_bind {A B} (m : M A) (k : A -> M B) :
  harmless m -> (forall a, harmless (k a)) -> harmless (bind m k).
Proof.
  intros Hm Hk w w' r Hg Em. unfold bind in Em.
  destruct (m w) as [w1 [a | e]] eqn:E1; destruct (Hm _ _ _ Hg E1) as [Hg1 Hq1].
  - destruct (Hk a _ _ _ Hg1 Em) as [Hg2 Hq2].
    split; [exact Hg2 | eapply only_queries_trans; eassumption].
  - inversion Em; subst. split; assumption.
Qed.

Lemma harmless_try_catch {A} (m : M A) (handler : string -> M A) :
  harmless m -> (forall e, harmless (handler e)) -> harmless (try_catch m handler).
Proof.
  intros Hm Hh w w' r Hg Em. unfold try_catch in Em.
  destruct (m w) as [w1 [a | e]] eqn:E1; destruct (Hm _ _ _ Hg E1) as [Hg1 Hq1].
  - inversion Em; subst. split; assumption.
  - destruct (Hh e _ _ _ Hg1 Em) as [Hg2 Hq2].
    split; [exact Hg2 | eapply only_queries_trans; eassumption].
Qed.

Lemma harmless_sh (command : string) : harmless (sh E command).
Proof.
  intros w w' r Hg Em. unfold sh, call in Em.
  pose proof (good_execSync E Good Hgood command _ Hg) as Hg'.
  destruct (execSync E command (env w)) as [x res]. inversion Em; subst.
  split; [exact Hg' |]. exists [CallExecSync command]. split; reflexivity.
Qed.

Lemma harmless_set_gpu (t image : string) : harmless (set_gpu t image).
Proof.
  intros w w' r Hg Em. inversion Em; subst.
  split; [exact Hg | exists []; simpl; rewrite app_nil_r; split; reflexivity].
Qed.

Lemma harmless_set_isRunning (b : bool) : harmless (set_isRunning b).
Proof.
  intros w w' r Hg Em. inversion Em; subst.
  split; [exact Hg | exists []; simpl; rewrite app_nil_r; split; reflexivity].
Qed.

Lemma harmless_forEachM {A} (xs : list A) (f : A -> M unit) :
  (forall x, harmless (f x)) -> harmless (forEachM xs f).
Proof.
  intros Hf. induction xs as [| x rest IH]; simpl.
  - apply harmless_ret.
  - apply harmless_bind; [apply Hf | intros _; exact IH].
Qed.

Ltac harmless_tac :=
  repeat first
    [ apply harmless_ret
    | apply harmless_throw
    | apply harmless_sh
    | apply harmless_set_gpu
    | apply harmless_set_isRunning
    | apply harmless_bind; [| intros ?]
    | apply harmless_try_catch; [| intros ?]
    | apply harmless_forEachM; intros ?
    | match goal with
      | |- harmless (if ?b then _ else _) => destruct b
      | |- harmless (match ?x with _ => _ end) => destruct x
      end
    | progress cbv zeta ].

Lemma harmless_killProcessOnPort8091 :
  harmless (killProcessOnPort8091 E platform isNaN).
Proof. unfold killProcessOnPort8091, kill_with. harmless_tac. Qed.

Lemma harmless_detectGPU : harmless (detectGPU E platform).
Proof.
  unfold detectGPU, probe_nvidia, probe_rocm, probe_vulkan, probe, found.
  harmless_tac.
Qed.

Lemma returns_ret {A} (a : A) : returns (ret a).
Proof. intros w. exists w, a. reflexivity. Qed.

Lemma returns_bind {A B} (m : M A) (k : A -> M B) :
  returns m -> (forall a, returns (k a)) -> returns (bind m k).
Proof.
  intros Hm Hk w. destruct (Hm w) as (w1 & a & E1).
  destruct (Hk a w1) as (w2 & b & E2).
  exists w2, b. unfold bind. rewrite E1. exact E2.
Qed.

Lemma returns_try_catch {A} (m : M A) (handler : string -> M A) :
  (forall e, returns (handler e)) -> returns (try_catch m handler).
Proof.
  intros Hh w. unfold try_catch.
  destruct (m w) as [w1 [a | e]]; [exists w1, a; reflexivity | apply Hh].
Qed.

Lemma returns_set_gpu (t image : string) : returns (set_gpu (X := X) t image).
Proof. intros w. eexists. eexists. reflexivity. Qed.

Lemma returns_killProcessOnPort8091 :
  returns (killProcessOnPort8091 E platform isNaN).
Proof.
  unfold killProcessOnPort8091.
  destruct (platform =? "win32")%string;
    apply returns_try_catch; intros e; apply returns_ret.
Qed.

Lemma returns_probe (command : string) accept label :
  returns (probe E command accept label).
Proof. apply returns_try_catch. intros e. apply returns_ret. Qed.

Lemma returns_found (t n : string) : returns (found (X := X) t n).
Proof.
  apply returns_bind; [apply returns_set_gpu | intros; apply returns_ret].
Qed.

Lemma returns_detectGPU : returns (detectGPU E platform).
Proof.
  unfold detectGPU, probe_nvidia, probe_rocm, probe_vulkan.
  repeat first
    [ apply returns_found
    | apply returns_probe
    | apply returns_bind; [| intros ?]
    | match goal with
      | |- returns (if ?b then _ else _) => destruct b
      | |- returns (match ?x with _ => _ end) => destruct x
      end ].
Qed.

Lemma harmless_choose_gpu requested : harmless (choose_gpu E platform requested).
Proof.
  unfold choose_gpu. destruct requested as [g |]; [destruct (truthy g) |];
    try apply harmless_detectGPU. harmless_tac.
Qed.

Lemma returns_choose_gpu requested : returns (choose_gpu E platform requested).
Proof.
  unfold choose_gpu. destruct requested as [g |]; [destruct (truthy g) |];
    try apply returns_detectGPU.
  apply returns_bind; [apply returns_set_gpu | intros; apply returns_ret].
Qed.

(** The listing shows the container. *)
Lemma containerExists_running (w : World) :
  Good (env w) ->
  exists w', containerExists E w = (w', Returned true) /\
             Good (env w') /\ only_queries w w'.
Proof.
  intros Hg.
  destruct (good_listContainers E Good Hgood _ Hg)
    as (x & containers & Elist & Hone & Hg').
  assert (Hlisted : existsb named_clara_core containers = true).
  { clear - Hone. induction containers as [| c rest IH]; [discriminate |].
    simpl in *. destruct (named_clara_core c); [reflexivity | auto]. }
  unfold containerExists, try_catch, bind, call. rewrite Elist.
  change (fun c => array_includes (Names c) ("/" ++ containerName))
    with named_clara_core.
  rewrite Hlisted. eexists. split; [reflexivity |]. split; [exact Hg' |].
  exists [CallListContainers]. split; reflexivity.
Qed.

(** One call of [start] while the container is running. *)
Lemma start_when_running (requested : option string) (w : World) :
  Good (env w) ->
  exists w' r,
    start E platform isNaN requested w = (w', Returned r) /\
    start_success r = true /\
    start_message r = "Container already running" /\
    Good (env w') /\ only_queries w w'.
Proof.
  intros Hg.
  unfold start, try_catch, start_body.
  (* the engine answers the ping *)
  destruct (good_ping E Good Hgood _ Hg) as (x1 & Eping & Hg1).
  assert (E1 : exists w1, ensureDockerRunning E w = (w1, Returned true) /\
                          Good (env w1) /\ only_queries w w1).
  { unfold ensureDockerRunning, try_catch, bind, call. rewrite Eping. simpl.
    eexists. split; [reflexivity |]. split; [exact Hg1 |].
    exists [CallPing]. split; reflexivity. }
  destruct E1 as (w1 & E1 & Hgw1 & Hq1).
  unfold bind at 1. rewrite E1.
  (* the port is freed *)
  destruct (returns_killProcessOnPort8091 w1) as (w2 & [] & E2).
  destruct (harmless_killProcessOnPort8091 _ _ _ Hgw1 E2) as [Hgw2 Hq2].
  unfold bind at 1. rewrite E2.
  (* the hardware variant is fixed *)
  destruct (returns_choose_gpu requested w2) as (w3 & gpu & E3).
  destruct (harmless_choose_gpu requested _ _ _ Hgw2 E3) as [Hgw3 Hq3].
  unfold bind at 1. rewrite E3.
  (* the container is listed *)
  destruct (containerExists_running w3 Hgw3) as (w4 & E4 & Hgw4 & Hq4).
  unfold bind at 1. rewrite E4.
  (* and inspected *)
  destruct (good_inspect E Good Hgood _ Hgw4) as (x5 & info & Einspect & Hrun & Hg5).
  unfold bind, call. rewrite Einspect, Hrun. simpl.
  eexists. eexists. split; [reflexivity |]. simpl.
  repeat split; try assumption.
  eapply only_queries_trans; [exact Hq1 |].
  eapply only_queries_trans; [exact Hq2 |].
  eapply only_queries_trans; [exact Hq3 |].
  eapply only_queries_trans; [exact Hq4 |].
  exists [CallInspect containerName]. split; reflexivity.
Qed.

End Idempotence.



Lemma simulated_keeps_running :
  keeps_running simulated (fun x => x = [("clara_core", true)]).
Proof.
  constructor; intros; subst; simpl.
  - reflexivity.
  - eexists. split; reflexivity.
  - eexists. eexists. repeat split.
  - eexists. eexists. repeat split.
Qed.


End DockerFacts.

(** ** Further properties of the service registry *)

Module RegistryExtras.

Import Registry Scenarios RegistryFacts.

Lemma array_includes_In (arr : list string) (x : string) :
  array_includes arr x = true <-> In x arr.
Proof. exact (set_has_In arr x). Qed.

Lemma listed_mode_is_supported (serviceName deploymentMode targetPlatform : string) :
  In deploymentMode (getSupportedDeploymentModes serviceName targetPlatform) ->
  isServiceModeSupported serviceName deploymentMode targetPlatform = true.
Proof.
  unfold getSupportedDeploymentModes.
  destruct (lookup serviceName SERVICE_DEFINITIONS) as [service |] eqn:Hl.
  - destruct (deploymentModes service) as [modes |] eqn:Hm.
    + rewrite filter_In. tauto.
    + unfold isServiceModeSupported. rewrite Hl, Hm.
      intros [<- | []]. reflexivity.
  - unfold isServiceModeSupported. rewrite Hl.
    intros [<- | []]. reflexivity.
Qed.

Lemma supported_mode_is_listed (serviceName deploymentMode targetPlatform : string) :
  isServiceModeSupported serviceName deploymentMode targetPlatform = true ->
  In deploymentMode (getSupportedDeploymentModes serviceName targetPlatform).
Proof.
  unfold getSupportedDeploymentModes.
  destruct (lookup serviceName SERVICE_DEFINITIONS) as [service |] eqn:Hl.
  - destruct (deploymentModes service) as [modes |] eqn:Hm.
    + intros Hs. apply filter_In. split; [| exact Hs].
      unfold isServiceModeSupported in Hs. rewrite Hl, Hm in Hs.
      apply array_includes_In.
      destruct (array_includes modes deploymentMode); [reflexivity | discriminate].
    + unfold isServiceModeSupported. rewrite Hl, Hm.
      rewrite String.eqb_eq. intros ->. left. reflexivity.
  - unfold isServiceModeSupported. rewrite Hl.
    rewrite String.eqb_eq. intros ->. left. reflexivity.
Qed.

(** X1. A mode is listed by [getSupportedDeploymentModes] for a service
    and a platform exactly when [isServiceModeSupported] accepts it, for
    every service name, registered or not. *)
Theorem supported_modes_are_the_supported_ones :
  forall serviceName deploymentMode targetPlatform,
    In deploymentMode (getSupportedDeploymentModes serviceName targetPlatform)
    <-> isServiceModeSupported serviceName deploymentMode targetPlatform = true.
Proof.
  intros serviceName deploymentMode targetPlatform. split.
  - apply listed_mode_is_supported.
  - apply supported_mode_is_listed.
Qed.

Lemma enabled_keys (selectedFeatures : Features) (serviceName : string) :
  In serviceName (keys (getEnabledServices selectedFeatures)) <->
  In serviceName coreServices \/
  (serviceName = "comfyui" /\ comfyUI selectedFeatures = true) \/
  (serviceName = "n8n" /\ n8n selectedFeatures = true).
Proof.
  destruct selectedFeatures as [[|] [|]]; unfold getEnabledServices; simpl;
    intuition (subst; auto; try discriminate).
Qed.

Lemma enabled_definitions (selectedFeatures : Features) (serviceName : string)
    (service : ServiceDef) :
  In (serviceName, service) (getEnabledServices selectedFeatures) ->
  lookup serviceName SERVICE_DEFINITIONS = Some service.
Proof.
  destruct selectedFeatures as [[|] [|]]; unfold getEnabledServices; simpl;
    intros Hin;
    repeat (destruct Hin as [Hin | Hin];
            [inversion Hin; subst; reflexivity |]);
    contradiction.
Qed.

(** X2. Whatever features are selected, the enabled services are the
    three core services, plus [comfyui] and [n8n] exactly when selected;
    no key occurs twice, and every enabled service carries the definition
    of the registry. *)
Theorem enabled_services_characterised :
  forall (selectedFeatures : Features) (serviceName : string),
    (In serviceName (keys (getEnabledServices selectedFeatures)) <->
     In serviceName coreServices \/
     (serviceName = "comfyui" /\ comfyUI selectedFeatures = true) \/
     (serviceName = "n8n" /\ n8n selectedFeatures = true)) /\
    NoDup (keys (getEnabledServices selectedFeatures)) /\
    (forall service,
        In (serviceName, service) (getEnabledServices selectedFeatures) ->
        lookup serviceName SERVICE_DEFINITIONS = Some service).
Proof.
  intros selectedFeatures serviceName.
  split; [apply enabled_keys |].
  split; [| intros service; apply enabled_definitions].
  destruct selectedFeatures as [[|] [|]]; unfold getEnabledServices; simpl;
    repeat constructor; simpl; intuition discriminate.
Qed.

Lemma applyPlatformOverrides_identity (platform : string)
    (services : list (string * ServiceDef)) :
  applyPlatformOverrides platform services = services.
Proof.
  unfold applyPlatformOverrides, PLATFORM_OVERRIDES. simpl.
  destruct (platform =? "darwin"); [reflexivity |].
  destruct (platform =? "linux"); [reflexivity |].
  destruct (platform =? "win32"); reflexivity.
Qed.

(** X3. On every platform and for every selection of features, the
    configuration returned by [getServiceConfiguration] passes the
    validation without any error. *)
Theorem shipped_configuration_validates :
  forall (platform : string) (selectedFeatures : Features),
    validateServiceConfiguration
      (getServiceConfiguration platform selectedFeatures) = [].
Proof.
  intros platform [[|] [|]]; unfold getServiceConfiguration;
    rewrite applyPlatformOverrides_identity; vm_compute; reflexivity.
Qed.


(** X4. Every service returned by [getCompatibleServices] is an enabled
    service and is assigned a deployment mode that is supported on the
    target platform; the assigned mode is the preferred one whenever the
    preferred one is supported. *)
Theorem compatible_services_get_supported_modes :
  forall (platform : string) (selectedFeatures : Features)
         (preferredMode targetPlatform serviceName : string)
         (service : ServiceDef) (deploymentMode : string),
    In (serviceName, (service, deploymentMode))
       (getCompatibleServices platform selectedFeatures preferredMode targetPlatform) ->
    In (serviceName, service) (getEnabledServices selectedFeatures) /\
    isServiceModeSupported serviceName deploymentMode targetPlatform = true /\
    (isServiceModeSupported serviceName preferredMode targetPlatform = true ->
     deploymentMode = preferredMode).
Proof.
  intros platform selectedFeatures preferredMode targetPlatform serviceName
         service deploymentMode Hin.
  unfold getCompatibleServices in Hin.
  rewrite applyPlatformOverrides_identity in Hin.
  apply in_flat_map in Hin. destruct Hin as ([n s] & Henabled & Hassigned).
  unfold assign_mode in Hassigned. simpl in Hassigned.
  destruct (isServiceModeSupported n preferredMode targetPlatform) eqn:Hpref.
  - destruct Hassigned as [Heq | []]. inversion Heq; subst.
    repeat split; auto.
  - destruct (getSupportedDeploymentModes n targetPlatform) as [| m rest] eqn:Hmodes;
      [contradiction |].
    destruct Hassigned as [Heq | []]. inversion Heq; subst.
    repeat split.
    + exact Henabled.
    + apply listed_mode_is_supported. rewrite Hmodes. left. reflexivity.
    + rewrite Hpref. discriminate.
Qed.

Lemma compatible_services_get_supported_modes_witness :
  exists service,
    lookup "claracore" SERVICE_DEFINITIONS = Some service /\
    In ("claracore", (service, "local"))
       (getCompatibleServices "darwin" {| comfyUI := false; n8n := false |}
          "docker" "darwin") /\
    isServiceModeSupported "claracore" "local" "darwin" = true.
Proof.
  eexists. split; [reflexivity |].
  match goal with
  | |- ?A /\ _ => assert (Hin : A)
  end.
  { vm_compute. right. right. left. reflexivity. }
  split; [exact Hin |].
  exact (proj1 (proj2 (compatible_services_get_supported_modes _ _ _ _ _ _ _ Hin))).
Defined.

Lemma keys_assigned (services : list (string * ServiceDef))
    (preferredMode targetPlatform : string) :
  (forall n s, In (n, s) services ->
               getSupportedDeploymentModes n targetPlatform <> []) ->
  keys (flat_map (fun entry => assign_mode (fst entry) (snd entry)
                                 preferredMode targetPlatform) services)
  = keys services.
Proof.
  induction services as [| [n s] rest IH]; intros Hall; simpl; [reflexivity |].
  unfold keys in *. rewrite map_app, IH.
  - unfold assign_mode. simpl.
    destruct (isServiceModeSupported n preferredMode targetPlatform);
      [reflexivity |].
    destruct (getSupportedDeploymentModes n targetPlatform) eqn:Hm;
      [| reflexivity].
    exfalso. apply (Hall n s); [left; reflexivity | exact Hm].
  - intros n' s' Hin. apply (Hall n' s'). right. exact Hin.
Qed.

(** X5. On win32, darwin and linux no enabled service is dropped by
    [getCompatibleServices]: whatever the features and the preferred mode,
    the result has the keys of the enabled services, in the same order. *)
Theorem known_platforms_keep_every_service :
  forall (platform : string) (selectedFeatures : Features)
         (preferredMode targetPlatform : string),
    known_platform targetPlatform ->
    keys (getCompatibleServices platform selectedFeatures preferredMode targetPlatform)
    = keys (getEnabledServices selectedFeatures).
Proof.
  intros platform selectedFeatures preferredMode targetPlatform Hknown.
  unfold getCompatibleServices. rewrite applyPlatformOverrides_identity.
  apply keys_assigned. intros n s Hin.
  assert (Hkey : In n (keys (getEnabledServices selectedFeatures))).
  { unfold keys. apply in_map_iff. exists (n, s). split; [reflexivity | exact Hin]. }
  apply (enabled_keys selectedFeatures n) in Hkey.
  unfold known_platform, all_platforms in Hknown. simpl in Hknown, Hkey.
  destruct Hknown as [<- | [<- | [<- | []]]];
    destruct Hkey as [[<- | [<- | [<- | []]]] | [[-> _] | [-> _]]];
    vm_compute; discriminate.
Qed.

Lemma known_platforms_keep_every_service_witness :
  known_platform "darwin" /\
  keys (getCompatibleServices "darwin" {| comfyUI := true; n8n := false |}
          "docker" "darwin")
  = keys (getEnabledServices {| comfyUI := true; n8n := false |}).
Proof.
  assert (Hknown : known_platform "darwin") by (right; left; reflexivity).
  split; [exact Hknown |].
  exact (known_platforms_keep_every_service "darwin" _ "docker" "darwin" Hknown).
Defined.

Lemma unknown_platform_not_included (targetPlatform : string)
    (platforms : list string) :
  ~ known_platform targetPlatform -> incl platforms all_platforms ->
  array_includes platforms targetPlatform = false.
Proof.
  intros Hunknown Hincl.
  destruct (array_includes platforms targetPlatform) eqn:Hin; [| reflexivity].
  exfalso. apply Hunknown. apply Hincl. apply array_includes_In. exact Hin.
Qed.

Lemma declared_platforms_are_known :
  forall n service support mode platforms,
    lookup n SERVICE_DEFINITIONS = Some service ->
    platformSupport service = Some support ->
    lookup mode support = Some platforms ->
    incl platforms all_platforms.
Proof.
  intros n service support mode platforms Hl Hs Hm.
  apply lookup_In in Hl. simpl in Hl.
  repeat (destruct Hl as [Hl | Hl];
          [inversion Hl; subst; simpl in Hs; try discriminate;
           inversion Hs; subst; apply lookup_In in Hm; simpl in Hm;
           repeat (destruct Hm as [Hm | Hm];
                   [inversion Hm; subst; unfold all_platforms;
                    intros x Hx; simpl in *; tauto |]);
           contradiction |]).
  contradiction.
Qed.

Lemma flat_map_ext_in {A B} (f g : A -> list B) (l : list A) :
  (forall a, In a l -> f a = g a) -> flat_map f l = flat_map g l.
Proof.
  induction l as [| a rest IH]; simpl; intros Hfg; [reflexivity |].
  rewrite (Hfg a (or_introl eq_refl)), IH; [reflexivity |].
  intros b Hb. apply Hfg. right. exact Hb.
Qed.

(** X6. On a platform other than win32, darwin and linux,
    [getCompatibleServices] returns the Docker engine alone, in docker
    mode: the Python backend and the core engine, although critical, are
    left out together with the optional services, whatever the features
    and the preferred mode. *)
Theorem unknown_platform_keeps_docker_only :
  forall (platform : string) (selectedFeatures : Features)
         (preferredMode targetPlatform : string),
    ~ known_platform targetPlatform ->
    assigned_modes
      (getCompatibleServices platform selectedFeatures preferredMode targetPlatform)
    = [("docker", "docker")].
Proof.
  intros platform selectedFeatures preferredMode targetPlatform Hunknown.
  assert (Hnone : forall n service modes mode,
             lookup n SERVICE_DEFINITIONS = Some service ->
             deploymentModes service = Some modes ->
             platformSupport service <> None ->
             isServiceModeSupported n mode targetPlatform = false).
  { intros n service modes mode Hl Hm Hs. unfold isServiceModeSupported.
    rewrite Hl, Hm. destruct (array_includes modes mode); [| reflexivity]. simpl.
    destruct (platformSupport service) as [support |] eqn:Hsup; [| congruence].
    destruct (lookup mode support) as [platforms |] eqn:Hp; [| reflexivity].
    apply unknown_platform_not_included; [exact Hunknown |].
    eapply declared_platforms_are_known; eassumption. }
  assert (Hdrop : forall n service modes,
             lookup n SERVICE_DEFINITIONS = Some service ->
             deploymentModes service = Some modes ->
             platformSupport service <> None ->
             assign_mode n service preferredMode targetPlatform = []).
  { intros n service modes Hl Hm Hs. unfold assign_mode.
    rewrite (Hnone n service modes preferredMode Hl Hm Hs).
    destruct (getSupportedDeploymentModes n targetPlatform) as [| m rest] eqn:Hmodes;
      [reflexivity |].
    assert (Hsup : isServiceModeSupported n m targetPlatform = true).
    { apply listed_mode_is_supported. rewrite Hmodes. left. reflexivity. }
    rewrite (Hnone n service modes m Hl Hm Hs) in Hsup. discriminate. }
  assert (Hdocker : forall service,
             assign_mode "docker" service preferredMode targetPlatform
             = [("docker", (service, "docker"))]).
  { intros service. unfold assign_mode.
    change (isServiceModeSupported "docker" preferredMode targetPlatform)
      with (preferredMode =? "docker").
    destruct (String.eqb_spec preferredMode "docker") as [-> | Hne]; reflexivity. }
  unfold getCompatibleServices. rewrite applyPlatformOverrides_identity.
  rewrite (flat_map_ext_in _
             (fun entry => if fst entry =? "docker"
                           then [(fst entry, (snd entry, "docker"))] else [])).
  - destruct selectedFeatures as [[|] [|]]; reflexivity.
  - intros [n s] Hin. simpl.
    pose proof (enabled_definitions selectedFeatures n s Hin) as Hdef.
    assert (Hkey : In n (keys (getEnabledServices selectedFeatures))).
    { unfold keys. apply in_map_iff. exists (n, s). split; [reflexivity | exact Hin]. }
    apply (enabled_keys selectedFeatures n) in Hkey.
    simpl in Hkey.
    destruct Hkey as [[<- | [<- | [<- | []]]] | [[-> _] | [-> _]]]; simpl;
      first [ apply Hdocker
            | simpl in Hdef; inversion Hdef; subst;
              eapply Hdrop; [reflexivity | reflexivity | discriminate] ].
Qed.

Lemma unknown_platform_keeps_docker_only_witness :
  ~ known_platform "freebsd" /\
  assigned_modes
    (getCompatibleServices "freebsd" {| comfyUI := true; n8n := true |}
       "manual" "freebsd")
  = [("docker", "docker")].
Proof.
  assert (Hunknown : ~ known_platform "freebsd").
  { intros [H | [H | [H | []]]]; discriminate H. }
  split; [exact Hunknown |].
  exact (unknown_platform_keeps_docker_only "freebsd" _ "manual" "freebsd" Hunknown).
Defined.


(** X7. Whatever else the validation finds or fails on, every declared
    dependency that is neither a key of the service map nor the name of a
    property that every object inherits is reported with its own message;
    and the check for missing dependencies reports nothing else, so that a
    dependency on an inherited name such as [constructor] is never
    reported. *)
Theorem missing_dependencies_all_reported :
  forall (services : list (string * ServiceDef)),
    (forall serviceName service deps dep,
        In (serviceName, service) services ->
        dependencies service = Some deps ->
        In dep deps ->
        lookup dep services = None ->
        inherits dep = false ->
        In (missing_message serviceName dep)
           (validateServiceConfiguration services)) /\
    (forall e,
        In e (missing_errors services) ->
        exists serviceName service deps dep,
          In (serviceName, service) services /\
          dependencies service = Some deps /\
          In dep deps /\
          lookup dep services = None /\
          inherits dep = false /\
          e = missing_message serviceName dep).
Proof.
  intros services. split.
  - intros serviceName service deps dep Hin Hdeps Hdep Hmissing Hplain.
    unfold validateServiceConfiguration. apply in_or_app. right.
    unfold missing_errors. apply in_flat_map.
    exists (serviceName, service). split; [exact Hin |]. simpl. rewrite Hdeps.
    apply in_flat_map. exists dep. split; [exact Hdep |].
    unfold falsy_in. rewrite Hmissing, Hplain. left. reflexivity.
  - intros e He. unfold missing_errors in He. apply in_flat_map in He.
    destruct He as ([serviceName service] & Hin & He). simpl in He.
    destruct (dependencies service) as [deps |] eqn:Hdeps; [| contradiction].
    apply in_flat_map in He. destruct He as (dep & Hdep & He).
    unfold falsy_in in He.
    destruct (lookup dep services) eqn:Hl; [contradiction |].
    destruct (inherits dep) eqn:Hi; [contradiction |].
    destruct He as [<- | []].
    exists serviceName, service, deps, dep. repeat split; assumption.
Qed.

Lemma missing_dependencies_all_reported_witness :
  In ("api", service ["cache"]) tangled /\
  lookup "cache" tangled = None /\
  inherits "cache" = false /\
  In (missing_message "api" "cache") (validateServiceConfiguration tangled).
Proof.
  assert (Hin : In ("api", service ["cache"]) tangled) by (left; reflexivity).
  split; [exact Hin |]. split; [reflexivity |]. split; [reflexivity |].
  apply (proj1 (missing_dependencies_all_reported tangled) "api"
           (service ["cache"]) ["cache"] "cache" Hin eq_refl).
  - left. reflexivity.
  - reflexivity.
  - reflexivity.
Defined.

(** X8. For a service map in which every declared dependency is enabled,
    the validation returns no error exactly when the dependency graph has
    no cycle, and reports a circular dependency whenever it has one. *)
Theorem resolved_configuration_valid_iff_acyclic :
  forall (services : list (string * ServiceDef)),
    all_resolved services ->
    (validateServiceConfiguration services = [] <-> ~ has_cycle services) /\
    (has_cycle services ->
     existsb is_cycle_error (validateServiceConfiguration services) = true).
Proof.
  intros services Hres. split; [split |].
  - intros Hempty Hcycle.
    pose proof (validate_reports_cycle services Hres Hcycle) as Hreported.
    rewrite Hempty in Hreported. discriminate.
  - apply validate_accepts_acyclic. exact Hres.
  - apply validate_reports_cycle. exact Hres.
Qed.

Lemma looped_all_resolved : all_resolved looped.
Proof.
  intros n s deps dep Hin Hdeps Hdep. simpl in Hin.
  destruct Hin as [Hin | [Hin | []]]; inversion Hin; subst;
    simpl in Hdeps; inversion Hdeps; subst;
    destruct Hdep as [<- | []]; discriminate.
Qed.

Lemma resolved_configuration_valid_iff_acyclic_witness :
  all_resolved looped /\
  (validateServiceConfiguration looped = [] <-> ~ has_cycle looped) /\
  (has_cycle looped ->
   existsb is_cycle_error (validateServiceConfiguration looped) = true).
Proof.
  split; [exact looped_all_resolved |].
  exact (resolved_configuration_valid_iff_acyclic looped looped_all_resolved).
Defined.

(** X9. In the table returned by [getPlatformCompatibility] there is one
    entry per registered service; its docker and manual flags agree with
    its list of supported modes, and a service reported to support manual
    mode always comes with a manual configuration. *)
Theorem platform_compatibility_is_coherent :
  forall (platform targetPlatform serviceName : string) (entry : Compatibility),
    In (serviceName, entry) (getPlatformCompatibility platform targetPlatform) ->
    keys (getPlatformCompatibility platform targetPlatform)
      = keys SERVICE_DEFINITIONS /\
    (dockerSupported entry = true <-> In "docker" (supportedModes entry)) /\
    (manualSupported entry = true <-> In "manual" (supportedModes entry)) /\
    (manualSupported entry = true -> manualConfig entry <> None).
Proof.
  intros platform targetPlatform serviceName entry Hin.
  split; [reflexivity |].
  unfold getPlatformCompatibility in Hin. apply in_map_iff in Hin.
  destruct Hin as ([n s] & Heq & Hdef). simpl in Heq.
  inversion Heq; subst; clear Heq. simpl.
  split; [split; [apply supported_mode_is_listed | apply listed_mode_is_supported] |].
  split; [split; [apply supported_mode_is_listed | apply listed_mode_is_supported] |].
  simpl in Hdef.
  repeat (destruct Hdef as [Hdef | Hdef];
          [inversion Hdef; subst; try discriminate; vm_compute; discriminate |]).
  contradiction.
Qed.

Lemma platform_compatibility_is_coherent_witness :
  exists entry,
    In ("comfyui", entry) (getPlatformCompatibility "darwin" "darwin") /\
    supportedModes entry = ["manual"; "remote"] /\
    (manualSupported entry = true -> manualConfig entry <> None).
Proof.
  eexists.
  match goal with
  | |- ?A /\ _ => assert (Hin : A)
  end.
  { unfold getPlatformCompatibility. simpl map.
    right. right. right. left. reflexivity. }
  split; [exact Hin |]. split; [reflexivity |].
  exact (proj2 (proj2 (proj2
           (platform_compatibility_is_coherent _ _ _ _ Hin)))).
Defined.



(** **** The probed address *)

Lemma collapse_no_double_slash (s : string) (inrun : bool) :
  includes (collapse_slashes_from inrun s) "//" = false /\
  (inrun = true -> startsWith (collapse_slashes_from inrun s) "/" = false).
Proof.
  revert inrun. induction s as [| c s IH]; intros inrun.
  - split; [destruct inrun; reflexivity | reflexivity].
  - simpl. destruct (Ascii.eqb_spec c "/") as [-> | Hne].
    + destruct inrun.
      * apply IH.
      * destruct (IH true) as [Hin Hstart]. split; [| discriminate].
        cbn [includes]. rewrite Hin, orb_false_r.
        specialize (Hstart eq_refl). unfold startsWith in Hstart.
        cbn [String.prefix]. destruct (ascii_dec "/" "/") as [_ | F];
          [exact Hstart | elim F; reflexivity].
    + destruct (IH false) as [Hin _]. split.
      * cbn [includes]. rewrite Hin, orb_false_r.
        cbn [String.prefix]. destruct (ascii_dec "/" c) as [E | _];
          [elim Hne; symmetry; exact E | reflexivity].
      * intros _. unfold startsWith. cbn [String.prefix].
        destruct (ascii_dec "/" c) as [E | _];
          [elim Hne; symmetry; exact E | reflexivity].
Qed.

Lemma without_cons (c x : ascii) (s : string) :
  without c (String x s) -> x <> c /\ without c s.
Proof.
  unfold without. cbn [includes String.prefix]. intros Hno.
  apply orb_false_iff in Hno. destruct Hno as [Hx Hs]. split; [| exact Hs].
  intros ->. destruct (ascii_dec c c) as [_ | F]; [| elim F; reflexivity].
  destruct s; discriminate Hx.
Qed.

Lemma collapse_scheme (scheme rest : string) :
  without "/" scheme ->
  collapse_slashes (scheme ++ "://" ++ rest)
  = scheme ++ ":/" ++ collapse_slashes_from true rest.
Proof.
  unfold collapse_slashes. induction scheme as [| c scheme IH]; intros Hno.
  - reflexivity.
  - apply without_cons in Hno. destruct Hno as [Hc Hno]. simpl.
    destruct (Ascii.eqb_spec c "/") as [-> | _]; [elim Hc; reflexivity |].
    f_equal. exact (IH Hno).
Qed.

Lemma replace_after_scheme (scheme rest : string) :
  without ":" scheme ->
  replaceFirst ":/" "://" (scheme ++ ":/" ++ rest) = scheme ++ "://" ++ rest.
Proof.
  induction scheme as [| c scheme IH]; intros Hno.
  - destruct rest; reflexivity.
  - apply without_cons in Hno. destruct Hno as [Hc Hno].
    cbn [append replaceFirst String.prefix].
    destruct (ascii_dec ":" c) as [E | _]; [elim Hc; symmetry; exact E |].
    f_equal. exact (IH Hno).
Qed.

(** X29. For a service address made of a scheme without colon or slash,
    [://] and a remainder, the address probed by the manual health check
    keeps the scheme and its [://]; in what follows, the remainder and the
    endpoint joined, every run of slashes is reduced to one slash and the
    leading slashes are dropped, so that no double slash is left after
    the scheme. *)
Theorem manual_health_endpoint_normalised :
  forall (scheme rest healthEndpoint : string),
    without ":" scheme ->
    without "/" scheme ->
    health_endpoint (scheme ++ "://" ++ rest) healthEndpoint
    = scheme ++ "://" ++ collapse_slashes_from true (rest ++ healthEndpoint) /\
    includes (collapse_slashes_from true (rest ++ healthEndpoint)) "//" = false /\
    startsWith (collapse_slashes_from true (rest ++ healthEndpoint)) "/" = false.
Proof.
  intros scheme rest healthEndpoint Hcolon Hslash. unfold health_endpoint.
  replace ((scheme ++ "://" ++ rest) ++ healthEndpoint)
    with (scheme ++ "://" ++ (rest ++ healthEndpoint)).
  - rewrite (collapse_scheme _ _ Hslash), (replace_after_scheme _ _ Hcolon).
    split; [reflexivity |].
    destruct (collapse_no_double_slash (rest ++ healthEndpoint) true) as [Hin Hstart].
    split; [exact Hin | exact (Hstart eq_refl)].
  - clear. induction scheme as [| c scheme IH]; simpl; [reflexivity |].
    f_equal. exact IH.
Qed.

Lemma manual_health_endpoint_normalised_witness :
  without ":" "http" /\ without "/" "http" /\
  health_endpoint ("http" ++ "://" ++ "localhost:5001/") "/health"
  = "http://localhost:5001/health".
Proof.
  assert (Hcolon : without ":" "http") by reflexivity.
  assert (Hslash : without "/" "http") by reflexivity.
  split; [exact Hcolon |]. split; [exact Hslash |].
  exact (proj1 (manual_health_endpoint_normalised "http" "localhost:5001/"
                  "/health" Hcolon Hslash)).
Defined.

End RegistryExtras.

(** ** Further properties of the remote deployment service *)

Module RemoteExtras.

Import Remote Scenarios RemoteFacts.

Section Results.

Context {H : Type} (T : Target H).

Abbreviation yields := (Remote.yields (H := H)).

Lemma yields_ret {A} (P : A -> Prop) (a : A) : P a -> yields P (ret a).
Proof. intros Ha w w' b E. inversion E; subst. exact Ha. Qed.

Lemma yields_throw {A} (P : A -> Prop) (e : string) : yields P (throw e).
Proof. intros w w' b E. inversion E. Qed.

Lemma yields_bind {A B} (Q : A -> Prop) (P : B -> Prop) (m : M A) (k : A -> M B) :
  yields Q m -> (forall a, Q a -> yields P (k a)) -> yields P (bind m k).
Proof.
  intros Hm Hk w w' b E. unfold bind in E.
  destruct (m w) as [w1 [a | e | i]] eqn:Em; try discriminate.
  exact (Hk a (Hm _ _ _ Em) _ _ _ E).
Qed.

Lemma yields_bind_any {A B} (P : B -> Prop) (m : M A) (k : A -> M B) :
  (forall a, yields P (k a)) -> yields P (bind m k).
Proof.
  intros Hk. apply (yields_bind (fun _ => True)); [intros w w' a _; exact I |].
  intros a _. apply Hk.
Qed.

Lemma yields_try_catch {A} (P : A -> Prop) (m : M A) (handler : string -> M A) :
  yields P m -> (forall e, yields P (handler e)) -> yields P (try_catch m handler).
Proof.
  intros Hm Hh w w' a E. unfold try_catch in E.
  destruct (m w) as [w1 [b | e | i]] eqn:Em; try discriminate.
  - inversion E; subst. exact (Hm _ _ _ Em).
  - exact (Hh e _ _ _ E).
Qed.

Lemma yields_forM {A B} (P : B -> Prop) (xs : list A) (f : A -> M B) :
  (forall x, yields P (f x)) -> yields (Forall P) (forM xs f).
Proof.
  intros Hf. induction xs as [| x rest IH]; simpl.
  - apply yields_ret. constructor.
  - apply (yields_bind P); [apply Hf | intros y Hy].
    apply (yields_bind (Forall P)); [exact IH | intros ys Hys].
    apply yields_ret. constructor; assumption.
Qed.

Lemma yields_weaken {A} (P Q : A -> Prop) (m : M A) :
  (forall a, P a -> Q a) -> yields P m -> yields Q m.
Proof. intros HPQ Hm w w' a E. exact (HPQ a (Hm _ _ _ E)). Qed.

(** **** The details collected by the detection *)

Lemma detectHardware_yields :
  yields (fun r =>
            consistent_details (details r) /\
            In (detected r) ["unsupported"; "cuda"; "strix"; "rocm"; "cpu"] /\
            (detected r = "unsupported" <->
             isARM (architecture (details r)) = true) /\
            (error r <> None <-> detected r = "unsupported") /\
            (unsupportedReason r <> None <-> detected r = "unsupported"))
         (detectHardware T).
Proof.
  unfold detectHardware.
  apply yields_bind_any; intros archInfo. cbv zeta.
  apply yields_bind_any; intros dockerOut.
  apply yields_bind_any; intros nvidiaInfo.
  set (hasDocker := truthy dockerOut && negb (absent dockerOut)).
  set (hasNvidia :=
         truthy nvidiaInfo && negb (absent nvidiaInfo) && truthy (trim nvidiaInfo)).
  apply (yields_bind (fun cuda => hasNvidia = false -> cuda = None)).
  { destruct hasNvidia.
    - intros w w' a _ Hno. discriminate Hno.
    - apply yields_ret. reflexivity. }
  intros cuda Hcuda.
  apply yields_bind_any; intros rocmInfo.
  set (hasRocm :=
         truthy rocmInfo && negb (absent rocmInfo) && truthy (trim rocmInfo)).
  apply (yields_bind (fun ver => hasRocm = false -> ver = None)).
  { destruct hasRocm.
    - intros w w' a _ Hno. discriminate Hno.
    - apply yields_ret. reflexivity. }
  intros ver Hver.
  apply yields_bind_any; intros cpuInfo.
  set (hasStrix := truthy cpuInfo && _).
  assert (Hmodel : hasStrix = true -> truthy cpuInfo = true).
  { unfold hasStrix. intros Hs. apply andb_true_iff in Hs. apply Hs. }
  clearbody hasDocker hasNvidia hasRocm hasStrix.
  assert (Hdetails : consistent_details
            {| docker := hasDocker; nvidia := hasNvidia; rocm := hasRocm;
               strix := hasStrix;
               architecture := if truthy archInfo then trim archInfo else "unknown";
               dockerVersion := if hasDocker then Some (trim dockerOut) else None;
               gpuInfo := if hasNvidia then Some (trim nvidiaInfo) else None;
               cudaVersion := cuda; rocmVersion := ver;
               cpuModel := if truthy cpuInfo
                           then Some (trim (replaceFirst "Model name:" EmptyString cpuInfo))
                           else None |}).
  { constructor; simpl.
    - destruct hasDocker; split; congruence.
    - destruct hasNvidia; split; congruence.
    - destruct hasNvidia; [reflexivity |]. intros Hc. elim Hc. auto.
    - destruct hasRocm; [reflexivity |]. intros Hc. elim Hc. auto.
    - intros Hs. rewrite (Hmodel Hs). discriminate. }
  simpl.
  destruct (isARM (if truthy archInfo then trim archInfo else "unknown")) eqn:Harm;
    [| destruct hasNvidia; [| destruct hasStrix; [| destruct hasRocm]]];
    apply yields_ret; simpl; rewrite ?Harm;
    (split; [exact Hdetails |]);
    (split; [tauto |]);
    repeat split; intros; try congruence; try discriminate.
Qed.


(** **** The hardware-specific prerequisites *)

Lemma prepare_hardware_outcome (hw : string) (w : World) :
  match prepare_hardware T hw w with
  | (_, Ok p) => prepared_for hw p
  | (_, Throw _) => False
  | (_, Suspended _) => In hw gpu_types
  end.
Proof.
  unfold prepare_hardware, prepared_for, gpu_types.
  destruct (String.eqb_spec hw "cpu") as [Hcpu | Hcpu]; simpl.
  { right; left. split; [reflexivity |]. subst. intros [F | [F | [F | []]]]; discriminate. }
  unfold try_catch, bind.
  destruct (String.eqb_spec hw "cuda") as [Hcuda | Hcuda].
  { destruct (setupCuda T w) as [w1 [[] | e | i]]; simpl; subst; auto 6. }
  destruct (String.eqb_spec hw "rocm") as [Hrocm | Hrocm].
  { destruct (setupRocm T w) as [w1 [[] | e | i]]; simpl; subst; auto 6. }
  destruct (String.eqb_spec hw "strix") as [Hstrix | Hstrix].
  { destruct (setupStrix T w) as [w1 [[] | e | i]]; simpl; subst; auto 7. }
  simpl. right; left. split; [reflexivity |].
  intros [F | [F | [F | []]]]; congruence.
Qed.

Lemma prepare_hardware_yields (hw : string) :
  yields (prepared_for hw) (prepare_hardware T hw).
Proof.
  intros w w' p E. pose proof (prepare_hardware_outcome hw w) as Ho.
  rewrite E in Ho. exact Ho.
Qed.

(** **** The result of a deployment *)

Lemma deployment_yields (config : Config) :
  yields (fun r => forall d, r = Deployed d -> consistent_deployment config d)
         (deployment T config).
Proof.
  unfold deployment. cbv zeta.
  do 4 (apply yields_bind_any; intros ?).
  apply (yields_bind (prepared_for (hardwareType config)));
    [apply prepare_hardware_yields |].
  intros [actual gpu] Hprepared. simpl fst; simpl snd.
  repeat (apply yields_bind_any; intros ?).
  apply yields_ret. intros d Hd. inversion Hd; subst d; clear Hd.
  unfold prepared_for, gpu_types in Hprepared.
  constructor; simpl.
  - reflexivity.
  - reflexivity.
  - destruct Hprepared as [[E _] | [[E _] | [E _]]]; inversion E; auto.
  - intros Hgpu. subst gpu.
    destruct Hprepared as [[E Hin] | [[E _] | [E _]]]; inversion E; auto.
  - destruct (String.eqb_spec (hardwareType config) "cpu") as [Hc | Hc];
      destruct (String.eqb_spec actual "cpu") as [Ha | Ha]; simpl;
      split; intros; try discriminate; try tauto.
  - intros Hfall. apply andb_true_iff in Hfall. destruct Hfall as [Hc Ha].
    apply negb_true_iff in Hc.
    destruct (String.eqb_spec (hardwareType config) "cpu") as [Hc' | Hc'];
      [discriminate |].
    destruct (String.eqb_spec actual "cpu") as [Ha' | Ha']; [| discriminate].
    destruct Hprepared as [[E _] | [[E _] | [E _]]]; inversion E; congruence.
Qed.

(** **** How a public operation settles *)

Lemma connect_and_run_settles {A} (P : Settled A -> Prop) (config : Config)
    (timer readyTimeout : N) (on_ready : M (Settled A))
    (on_error : SshError -> World -> World * Settled A)
    (on_timeout : World -> World * Settled A) (w : World) :
  yields P on_ready ->
  (forall err w1, P (snd (on_error err w1))) ->
  (forall w1, P (snd (on_timeout w1))) ->
  P (snd (connect_and_run T config timer readyTimeout
            on_ready on_error on_timeout w)).
Proof.
  intros Hready Herror Htimeout. unfold connect_and_run.
  destruct (on_connect T _ _) as [h handshake].
  destruct (client_event readyTimeout handshake) as [ms | ms err].
  - destruct (wait ms _) as [w1 [[] | e | i]]; try apply Htimeout.
    destruct (on_ready w1) as [w2 [settled | e | [| err]]] eqn:Er;
      try apply Htimeout; try apply Herror.
    exact (Hready _ _ _ Er).
  - destruct (wait ms _) as [w1 [[] | e | i]];
      try apply Htimeout; apply Herror.
Qed.


(** **** The report of the fleet monitor *)

Lemma monitor_line_yields (config : Config) (line : string) :
  yields (consistent_status config) (monitor_line T config line).
Proof.
  unfold monitor_line. cbv zeta.
  destruct (nth_error (split "|" line) 1) as [status |];
    [| apply yields_throw].
  apply yields_bind_any; intros isHealthy. apply yields_ret.
  generalize (nth_error (split "|" line) 2) as third; intros third.
  constructor; simpl.
  - destruct (includes (toLowerCase status) "up"); auto.
  - destruct (includes (toLowerCase status) "up");
      [reflexivity | intros F; discriminate F].
  - destruct (includes (toLowerCase status) "up"); reflexivity.
  - destruct third as [[| c ports] |]; intros F; discriminate F.
  - reflexivity.
Qed.

Lemma filter_length_mono {A} (f g : A -> bool) (l : list A) :
  Forall (fun a => f a = true -> g a = true) l ->
  List.length (filter f l) <= List.length (filter g l).
Proof.
  induction 1 as [| a l Ha _ IH]; simpl; [lia |].
  destruct (f a) eqn:Ef.
  - rewrite (Ha eq_refl). simpl. lia.
  - destruct (g a); simpl; lia.
Qed.

Lemma monitoring_yields (config : Config) :
  yields (consistent_report config) (monitoring T config).
Proof.
  unfold monitoring.
  apply yields_bind_any; intros containerList.
  apply (yields_bind (Forall (consistent_status config))).
  { destruct (truthy containerList && truthy (trim containerList)).
    - apply yields_forM. intros line. apply monitor_line_yields.
    - apply yields_ret. constructor. }
  intros found Hfound w w' r E. inversion E; subst; clear E.
  constructor; simpl; try reflexivity; try assumption.
  split.
  - apply filter_length_mono. eapply Forall_impl; [| exact Hfound].
    intros s Hs Hhealthy. rewrite (healthy_runs _ _ Hs Hhealthy). reflexivity.
  - apply List.filter_length_le.
Qed.


(** **** The commands handed to the connection *)

Abbreviation sends_only := (Remote.sends_only (H := H)).

Lemma sends_ret {A} (P : string -> Prop) (a : A) : sends_only P (ret a).
Proof.
  intros w w' o E. inversion E; subst. exists [].
  rewrite app_nil_r. split; [reflexivity | constructor].
Qed.

Lemma sends_throw {A} (P : string -> Prop) (e : string) :
  sends_only P (throw (A := A) e).
Proof.
  intros w w' o E. inversion E; subst. exists [].
  rewrite app_nil_r. split; [reflexivity | constructor].
Qed.

Lemma sends_twice (P : string -> Prop) (w w1 w2 : World (H := H)) :
  (exists more, sent w1 = List.app (sent w) more /\ Forall P more) ->
  (exists more, sent w2 = List.app (sent w1) more /\ Forall P more) ->
  exists more, sent w2 = List.app (sent w) more /\ Forall P more.
Proof.
  intros (m1 & E1 & H1) (m2 & E2 & H2). exists (List.app m1 m2).
  rewrite E2, E1, app_assoc. split; [reflexivity |].
  apply Forall_app. split; assumption.
Qed.

Lemma sends_bind {A B} (P : string -> Prop) (m : M A) (k : A -> M B) :
  sends_only P m -> (forall a, sends_only P (k a)) -> sends_only P (bind m k).
Proof.
  intros Hm Hk w w' o E. unfold bind in E.
  destruct (m w) as [w1 [a | e | i]] eqn:Em.
  - exact (sends_twice P _ _ _ (Hm _ _ _ Em) (Hk a _ _ _ E)).
  - inversion E; subst. exact (Hm _ _ _ Em).
  - inversion E; subst. exact (Hm _ _ _ Em).
Qed.

Lemma sends_try_catch {A} (P : string -> Prop) (m : M A)
    (handler : string -> M A) :
  sends_only P m -> (forall e, sends_only P (handler e)) ->
  sends_only P (try_catch m handler).
Proof.
  intros Hm Hh w w' o E. unfold try_catch in E.
  destruct (m w) as [w1 [a | e | i]] eqn:Em.
  - inversion E; subst. exact (Hm _ _ _ Em).
  - exact (sends_twice P _ _ _ (Hm _ _ _ Em) (Hh e _ _ _ E)).
  - inversion E; subst. exact (Hm _ _ _ Em).
Qed.

Lemma sends_forM {A B} (P : string -> Prop) (xs : list A) (f : A -> M B) :
  (forall x, sends_only P (f x)) -> sends_only P (forM xs f).
Proof.
  intros Hf. induction xs as [| x rest IH]; simpl.
  - apply sends_ret.
  - apply sends_bind; [apply Hf | intros y].
    apply sends_bind; [exact IH | intros ys]. apply sends_ret.
Qed.

Lemma sent_wait (ms : N) (w w' : World (H := H)) (o : Out unit) :
  wait ms w = (w', o) -> sent w' = sent w.
Proof.
  unfold wait. destruct (deadline w <=? now w + ms)%N;
    intros E; inversion E; reflexivity.
Qed.

Lemma sends_conn_exec (P : string -> Prop) (command : string) :
  P command -> sends_only P (conn_exec T command).
Proof.
  intros Hc w w' o E. exists [command].
  split; [| constructor; [exact Hc | constructor]].
  unfold conn_exec in E.
  destruct (on_exec T command (remote w)) as [h [| ms r]].
  - inversion E. reflexivity.
  - destruct (wait ms (record_sent command h w)) as [w2 [[] | e | i]] eqn:Ew;
      apply sent_wait in Ew; simpl in Ew;
      [destruct r |..]; inversion E; subst; exact Ew.
Qed.

Lemma sends_execCommand (P : string -> Prop) (command : string) :
  includes command "sudo" = false -> P command ->
  sends_only P (execCommand T command).
Proof.
  intros Hplain Hc w w' o E. unfold execCommand in E.
  rewrite (sudo_wrap_plain _ _ Hplain) in E. revert E.
  apply sends_bind; [apply sends_conn_exec; exact Hc |].
  intros [[code out] err]. apply sends_ret.
Qed.

Ltac sends_tac :=
  repeat first
    [ apply sends_ret
    | apply sends_throw
    | apply sends_execCommand; [reflexivity | simpl; tauto]
    | apply sends_bind; [| intros ?]
    | apply sends_try_catch; [| intros ?]
    | match goal with
      | |- Remote.sends_only _ (if ?b then _ else _) => destruct b
      end
    | progress cbv zeta ].

Lemma detectHardware_sends :
  sends_only (fun c => In c probe_commands) (detectHardware T).
Proof. unfold detectHardware. sends_tac. Qed.

Lemma monitor_line_sends (config : Config) (line : string) :
  sends_only (fun c => In c monitor_commands) (monitor_line T config line).
Proof.
  unfold monitor_line. cbv zeta.
  destruct (nth_error (split "|" line) 1); sends_tac.
Qed.

Lemma monitoring_sends (config : Config) :
  sends_only (fun c => In c monitor_commands) (monitoring T config).
Proof.
  unfold monitoring.
  apply sends_bind; [sends_tac | intros containerList].
  apply sends_bind.
  - destruct (truthy containerList && truthy (trim containerList)).
    + apply sends_forM. intros line. apply monitor_line_sends.
    + apply sends_ret.
  - intros found w w' o E. inversion E; subst. exists [].
    rewrite app_nil_r. split; [reflexivity | constructor].
Qed.

Lemma connect_and_run_sends {A} (P : string -> Prop) (config : Config)
    (timer readyTimeout : N) (on_ready : M (Settled A))
    (on_error : SshError -> World -> World * Settled A)
    (on_timeout : World -> World * Settled A) :
  sends_only P on_ready ->
  (forall err w1, sent (fst (on_error err w1)) = sent w1) ->
  (forall w1, sent (fst (on_timeout w1)) = sent w1) ->
  operation_sends_only P
    (connect_and_run T config timer readyTimeout on_ready on_error on_timeout).
Proof.
  intros Hready Herror Htimeout w. unfold connect_and_run.
  assert (Hnone : forall w1 : World (H := H), sent w1 = sent w ->
            exists more, sent w1 = List.app (sent w) more /\ Forall P more).
  { intros w1 E. exists []. rewrite app_nil_r. split; [exact E | constructor]. }
  destruct (on_connect T _ _) as [h handshake].
  destruct (client_event readyTimeout handshake) as [ms | ms err].
  - destruct (wait ms _) as [w1 [[] | e | i]] eqn:Ew; apply sent_wait in Ew;
      simpl in Ew; try (apply Hnone; rewrite Htimeout; exact Ew).
    destruct (on_ready w1) as [w2 [settled | e | [| err]]] eqn:Er;
      apply Hready in Er; rewrite <- Ew; simpl;
      rewrite ?Htimeout, ?Herror; exact Er.
  - destruct (wait ms _) as [w1 [[] | e | i]] eqn:Ew; apply sent_wait in Ew;
      simpl in Ew; apply Hnone; rewrite ?Htimeout, ?Herror; exact Ew.
Qed.

(** **** The stored password across an operation *)

Lemma connect_and_run_keeps {A} (config : Config)
    (timer readyTimeout : N) (on_ready : M (Settled A))
    (on_error : SshError -> World -> World * Settled A)
    (on_timeout : World -> World * Settled A) (w : World) :
  Remote.keeps on_ready ->
  (forall err w1, sudoPassword (fst (on_error err w1)) = sudoPassword w1) ->
  (forall w1, sudoPassword (fst (on_timeout w1)) = sudoPassword w1) ->
  sudoPassword
    (fst (connect_and_run T config timer readyTimeout
            on_ready on_error on_timeout w))
  = sudoPassword w.
Proof.
  intros Hready Herror Htimeout. unfold connect_and_run.
  destruct (on_connect T _ _) as [h handshake].
  destruct (client_event readyTimeout handshake) as [ms | ms err].
  - destruct (wait ms _) as [w1 [[] | e | i]] eqn:Ew; apply keeps_wait in Ew;
      simpl in Ew; try (rewrite Htimeout; exact Ew).
    destruct (on_ready w1) as [w2 [settled | e | [| err]]] eqn:Er;
      apply Hready in Er; simpl; rewrite ?Htimeout, ?Herror; congruence.
  - destruct (wait ms _) as [w1 [[] | e | i]] eqn:Ew; apply keeps_wait in Ew;
      simpl in Ew; rewrite ?Htimeout, ?Herror; exact Ew.
Qed.

Ltac keeps_tac :=
  repeat first
    [ apply keeps_ret
    | apply keeps_throw
    | apply keeps_execCommand
    | apply keeps_bind; [| intros ?]
    | apply keeps_try_catch; [| intros ?]
    | apply keeps_forM; intros ?
    | match goal with
      | |- Remote.keeps (if ?b then _ else _) => destruct b
      end
    | progress cbv zeta ].

Lemma keeps_detectHardware : Remote.keeps (detectHardware T).
Proof. unfold detectHardware. keeps_tac. Qed.

Lemma keeps_monitoring (config : Config) : Remote.keeps (monitoring T config).
Proof.
  unfold monitoring.
  apply keeps_bind; [keeps_tac | intros containerList].
  apply keeps_bind.
  - destruct (truthy containerList && truthy (trim containerList));
      [| apply keeps_ret].
    apply keeps_forM. intros line. unfold monitor_line. cbv zeta.
    destruct (nth_error (split "|" line) 1); keeps_tac.
  - intros found w w' o E. inversion E; subst. reflexivity.
Qed.


(** **** Theorems *)

(** X10. Whenever [testSetup] resolves with a detected hardware, the
    collected details are coherent: a version or a model is reported only
    together with its flag, a Strix flag comes with a CPU model, the
    recommendation is one of the five known ones, and it is ["unsupported"],
    with an error and a reason, exactly on an ARM architecture. *)
Theorem detection_details_are_consistent (config : Config) (w : World)
    (r : Hardware) :
  snd (testSetup T config w) = Resolved (SetupOk r) ->
  consistent_details (details r) /\
  In (detected r) ["unsupported"; "cuda"; "strix"; "rocm"; "cpu"] /\
  (detected r = "unsupported" <-> isARM (architecture (details r)) = true) /\
  (error r <> None <-> detected r = "unsupported") /\
  (unsupportedReason r <> None <-> detected r = "unsupported").
Proof.
  revert r.
  apply (connect_and_run_settles
           (fun s => forall r, s = Resolved (SetupOk r) -> _)).
  - unfold testSetup_on_ready.
    apply yields_try_catch.
    + eapply yields_bind; [apply detectHardware_yields |].
      intros r Hr. apply yields_ret. intros r' E. inversion E; subst. exact Hr.
    + intros e. apply yields_ret. intros r E. discriminate E.
  - intros err w1 r E. discriminate E.
  - intros w1 r E. discriminate E.
Qed.

(** X11. Whenever [deploy] resolves with a success, the result is
    coherent with the request: the address is that of the host, the
    container is named after the hardware type actually used, which is the
    requested one or ["cpu"]; GPU availability is reported only for the
    requested type and only for CUDA, ROCm and Strix; and the CPU fallback
    is flagged exactly when another type was requested and ["cpu"] used,
    never together with GPU availability. *)
Theorem successful_deployment_is_consistent (config : Config) (w : World)
    (d : Deployment) :
  snd (deploy T config w) = Resolved (Deployed d) ->
  consistent_deployment config d.
Proof.
  revert d. unfold deploy.
  apply (connect_and_run_settles
           (fun s => forall d, s = Resolved (Deployed d) -> _)).
  - unfold deploy_on_ready.
    apply yields_try_catch.
    + eapply yields_bind; [apply deployment_yields |].
      intros r Hr. apply yields_ret. intros d E. inversion E; subst.
      apply Hr. reflexivity.
    + intros e. apply yields_bind_any; intros _.
      apply yields_ret. intros d E. discriminate E.
  - intros err w1 d E. discriminate E.
  - intros w1 d E. discriminate E.
Qed.

(** X12. The hardware-specific step of a deployment never throws and
    follows the setup of the requested type: when the setup of CUDA, ROCm
    or Strix completes, the type is kept with GPU; when it throws, the
    CPU fallback without GPU takes its place; when it is interrupted, so
    is the step; and any other type, which has no setup, passes through
    unchanged without GPU and without sending a command. *)
Theorem hardware_preparation_never_throws (hw : string) (w : World) :
  match setup_of T hw with
  | Some setup =>
      In hw gpu_types /\
      match setup w with
      | (w1, Ok _) => prepare_hardware T hw w = (w1, Ok (hw, true))
      | (w1, Throw _) => prepare_hardware T hw w = (w1, Ok ("cpu", false))
      | (w1, Suspended i) => prepare_hardware T hw w = (w1, Suspended i)
      end
  | None =>
      ~ In hw gpu_types /\ prepare_hardware T hw w = (w, Ok (hw, false))
  end.
Proof.
  unfold setup_of, prepare_hardware, gpu_types, try_catch, bind.
  destruct (String.eqb_spec hw "cuda") as [-> | Hcuda].
  { simpl. split; [auto |].
    destruct (setupCuda T w) as [w1 [[] | e | i]]; reflexivity. }
  destruct (String.eqb_spec hw "rocm") as [-> | Hrocm].
  { simpl. split; [auto |].
    destruct (setupRocm T w) as [w1 [[] | e | i]]; reflexivity. }
  destruct (String.eqb_spec hw "strix") as [-> | Hstrix].
  { simpl. split; [auto |].
    destruct (setupStrix T w) as [w1 [[] | e | i]]; reflexivity. }
  split; [intros [F | [F | [F | []]]]; congruence |].
  destruct (hw =? "cpu")%string; reflexivity.
Qed.

(** X13. Whenever [monitorRemoteServices] resolves, the report is
    coherent: it names the host of the configuration, its three counters
    count the listed, the running and the healthy entries, with healthy at
    most running at most total; every entry is running or stopped, is
    healthy only if running, carries the service address exactly when
    running, shows a non-empty port text, and has the container name
    without its first [claracore-] as hardware type. *)
Theorem monitoring_report_is_consistent (config : Config) (w : World)
    (r : MonitorResult) :
  snd (monitorRemoteServices T config w) = Resolved r ->
  consistent_report config r.
Proof.
  revert r. unfold monitorRemoteServices.
  apply (connect_and_run_settles (fun s => forall r, s = Resolved r -> _)).
  - apply yields_try_catch.
    + eapply yields_bind; [apply monitoring_yields |].
      intros r Hr. apply yields_ret. intros r' E. inversion E; subst. exact Hr.
    + intros e. apply yields_ret. intros r E. discriminate E.
  - intros err w1 r E. discriminate E.
  - intros w1 r E. discriminate E.
Qed.

(** X14. [testSetup] and [monitorRemoteServices] only query the machine:
    whatever it answers, the first hands to the connection nothing but the
    seven probe commands of the detection, the second nothing but the
    container listing and the health probe. *)
Theorem read_only_operations_send_only_queries (config : Config) :
  operation_sends_only (fun c => In c probe_commands) (testSetup T config) /\
  operation_sends_only (fun c => In c monitor_commands)
    (monitorRemoteServices T config).
Proof.
  split.
  - apply connect_and_run_sends; try reflexivity.
    unfold testSetup_on_ready.
    apply sends_try_catch; [| intros e; apply sends_ret].
    apply sends_bind; [apply detectHardware_sends | intros r; apply sends_ret].
  - apply connect_and_run_sends; try reflexivity.
    apply sends_try_catch; [| intros e; apply sends_ret].
    apply sends_bind; [apply monitoring_sends | intros r; apply sends_ret].
Qed.

(** X15. The field [sudoPassword] across the three operations, whatever
    the machine does: [testSetup] and [monitorRemoteServices] leave it as
    they found it; [deploy] has cleared it when its promise resolves and
    still holds the password of the configuration when it rejects. *)
Theorem stored_password_across_operations (config : Config) (w : World) :
  sudoPassword (fst (testSetup T config w)) = sudoPassword w /\
  sudoPassword (fst (monitorRemoteServices T config w)) = sudoPassword w /\
  match deploy T config w with
  | (w', Resolved _) => sudoPassword w' = None
  | (w', Rejected _) => sudoPassword w' = password config
  end.
Proof.
  split; [| split].
  - apply connect_and_run_keeps; try reflexivity.
    unfold testSetup_on_ready.
    apply keeps_try_catch; [| intros e; apply keeps_ret].
    apply keeps_bind; [apply keeps_detectHardware | intros r; apply keeps_ret].
  - apply connect_and_run_keeps; try reflexivity.
    apply keeps_try_catch; [| intros e; apply keeps_ret].
    apply keeps_bind; [apply keeps_monitoring | intros r; apply keeps_ret].
  - apply deploy_password_at_settlement.
Qed.


(** **** Container names *)

Lemma split_first (sep : ascii) (a rest : string) :
  includes a (String sep EmptyString) = false ->
  split sep (a ++ String sep rest) = a :: split sep rest.
Proof.
  induction a as [| c a IH]; simpl.
  - intros _. rewrite Ascii.eqb_refl. reflexivity.
  - intros Hno. apply orb_false_iff in Hno. destruct Hno as [Hc Ha].
    destruct (Ascii.eqb_spec c sep) as [-> | Hne].
    + destruct (ascii_dec sep sep) as [_ | F]; [| elim F; reflexivity].
      destruct a; discriminate Hc.
    + rewrite (IH Ha). reflexivity.
Qed.

Lemma replaceFirst_prefix (pat s : string) :
  replaceFirst pat EmptyString (pat ++ s) = s.
Proof.
  assert (Hd : drop (String.length pat) (pat ++ s) = s).
  { induction pat as [| c pat IH]; simpl; [destruct s; reflexivity | exact IH]. }
  assert (Hp : String.prefix pat (pat ++ s) = true).
  { clear Hd. induction pat as [| c pat IH]; simpl; [destruct s; reflexivity |].
    destruct (ascii_dec c c) as [_ | F]; [exact IH | elim F; reflexivity]. }
  destruct pat as [| c pat]; simpl in *.
  - destruct s; reflexivity.
  - rewrite Hp. exact Hd.
Qed.

(** X16. The monitor reads back what [deploy] wrote: for a listing line
    made of the container name [claracore-<type>], a status and a port
    text separated by [|], the entry produced carries that name, the
    hardware type [<type>], and is running exactly when the status
    contains [up] in any letter case; such a line never makes the loop
    throw. *)
Theorem monitor_reads_back_deployed_type (config : Config)
    (hw status ports : string) (w : World) :
  includes hw "|" = false ->
  includes status "|" = false ->
  match monitor_line T config
          ("claracore-" ++ hw ++ "|" ++ status ++ "|" ++ ports) w with
  | (_, Ok s) =>
      svc_name s = "claracore-" ++ hw /\
      svc_hardwareType s = hw /\
      (svc_status s = "running" <-> includes (toLowerCase status) "up" = true)
  | (_, Throw _) => False
  | (_, Suspended _) => includes (toLowerCase status) "up" = true
  end.
Proof.
  intros Hhw Hstatus. unfold monitor_line. cbv zeta.
  assert (Hparts : split "|" ("claracore-" ++ hw ++ "|" ++ status ++ "|" ++ ports)
                   = ("claracore-" ++ hw) :: status :: split "|" ports).
  { change ("claracore-" ++ hw ++ "|" ++ status ++ "|" ++ ports)
      with (("claracore-" ++ hw) ++ String "|" (status ++ String "|" ports)).
    rewrite split_first by exact Hhw.
    rewrite split_first by exact Hstatus. reflexivity. }
  rewrite Hparts. cbn [nth_error nth].
  rewrite (replaceFirst_prefix "claracore-" hw).
  unfold bind, try_catch.
  destruct (includes (toLowerCase status) "up") eqn:Hup.
  - destruct (execCommand T _ w) as [w1 [text | e | i]]; simpl;
      try reflexivity; repeat split; reflexivity.
  - simpl. repeat split; intros F; discriminate F.
Qed.

(** **** One command *)

Lemma startsWith_append (pre rest : string) :
  startsWith (pre ++ rest) pre = true.
Proof.
  unfold startsWith. induction pre as [| c pre IH]; simpl.
  - destruct rest; reflexivity.
  - destruct (ascii_dec c c) as [_ | F]; [exact IH | elim F; reflexivity].
Qed.

Lemma startsWith_refl (s : string) : startsWith s s = true.
Proof.
  unfold startsWith. induction s as [| c s IH]; simpl; [reflexivity |].
  destruct (ascii_dec c c) as [_ | F]; [exact IH | elim F; reflexivity].
Qed.

Lemma append_assoc (a b c : string) : a ++ b ++ c = (a ++ b) ++ c.
Proof. induction a as [| x a IH]; simpl; congruence. Qed.

(** X17. For one and the same reply of the machine, arriving before the
    timer expires, [execCommand] resolves with the standard output, or
    with the error output when that is empty, whatever the exit code,
    whereas [execCommandWithOutput] resolves on exit code 0 only and
    otherwise throws a message starting with [Command failed with code]
    and the code; both leave the instance in the same state. *)
Theorem exit_code_matters_only_with_output (command : string) (w : World)
    (h : H) (ms : N) (code : option Z) (out err : list string) :
  on_exec T (sudo_wrap (sudoPassword w) command) (remote w)
    = (h, ReplyAfter ms (StreamClosed code out err)) ->
  (now w + ms < deadline w)%N ->
  snd (execCommand T command w)
    = Ok (or_else (concat_chunks out) (concat_chunks err)) /\
  (code = Some 0%Z -> snd (execCommandWithOutput T command w) = Ok tt) /\
  (code <> Some 0%Z ->
   exists e, snd (execCommandWithOutput T command w) = Throw e /\
             startsWith e ("Command failed with code " ++ show_code code) = true) /\
  fst (execCommand T command w) = fst (execCommandWithOutput T command w).
Proof.
  intros Hexec Htime.
  unfold execCommand, execCommandWithOutput, bind, conn_exec.
  rewrite Hexec. unfold wait.
  destruct (N.leb_spec (deadline (record_sent (sudo_wrap (sudoPassword w) command) h w))
                       (now (record_sent (sudo_wrap (sudoPassword w) command) h w) + ms))
    as [Hlate | _]; [simpl in Hlate; lia |].
  split; [reflexivity |].
  split; [intros ->; reflexivity |].
  split.
  - intros Hcode.
    assert (Hthrow : forall c : option Z, c <> Some 0%Z ->
              exists e,
                snd (match c with
                     | Some 0%Z => ret (H := H) tt
                     | _ =>
                         if truthy (stderr_capture err)
                         then throw ("Command failed with code " ++ show_code c
                                       ++ ": " ++ stderr_capture err)
                         else throw ("Command failed with code " ++ show_code c)
                     end (set_now (now (record_sent (sudo_wrap (sudoPassword w) command) h w) + ms)
                            (record_sent (sudo_wrap (sudoPassword w) command) h w)))
                = Throw e /\
                startsWith e ("Command failed with code " ++ show_code c) = true).
    { intros c Hc.
      assert (Hmsg : exists e,
                (if truthy (stderr_capture err)
                 then throw (H := H) (A := unit)
                        ("Command failed with code " ++ show_code c
                           ++ ": " ++ stderr_capture err)
                 else throw ("Command failed with code " ++ show_code c))
                  (set_now (now (record_sent (sudo_wrap (sudoPassword w) command) h w) + ms)
                     (record_sent (sudo_wrap (sudoPassword w) command) h w))
                = (set_now (now (record_sent (sudo_wrap (sudoPassword w) command) h w) + ms)
                     (record_sent (sudo_wrap (sudoPassword w) command) h w), Throw e) /\
                startsWith e ("Command failed with code " ++ show_code c) = true).
      { destruct (truthy (stderr_capture err)); eexists; (split; [reflexivity |]).
        - rewrite append_assoc. apply startsWith_append.
        - apply startsWith_refl. }
      destruct Hmsg as (e & He & Hpre). exists e. split; [| exact Hpre].
      destruct c as [[| p | p] |]; try (elim Hc; reflexivity);
        rewrite He; reflexivity. }
    exact (Hthrow code Hcode).
  - destruct code as [[| p | p] |];
      try destruct (truthy (stderr_capture err)); reflexivity.
Qed.

(** **** Quoting the password *)

Lemma escape_step (c : ascii) (s : string) :
  single_quote_escape (String c s)
  = if Ascii.eqb c "'"%char then "'\''" ++ single_quote_escape s
    else String c (single_quote_escape s).
Proof.
  unfold single_quote_escape, replaceAll.
  cbn [replaceAll_from String.length Nat.sub String.prefix].
  destruct (ascii_dec "'" c) as [<- | Hne].
  - replace (String.prefix EmptyString s) with true by (destruct s; reflexivity).
    reflexivity.
  - destruct (Ascii.eqb_spec c "'") as [-> | _]; [elim Hne; reflexivity |].
    reflexivity.
Qed.


(** **** The container engine on the remote machine *)

(** X19. [checkDocker] never throws and sends exactly the version query;
    every exception leaving [installDocker] carries a message that starts
    with [Failed to install Docker: ]. *)
Theorem docker_prerequisite_failures (w : World) :
  (forall e, snd (checkDocker T w) <> Throw e) /\
  sent (fst (checkDocker T w)) = List.app (sent w) [cmd_docker_version] /\
  (forall e, snd (installDocker T w) = Throw e ->
             startsWith e "Failed to install Docker: " = true).
Proof.
  split; [| split].
  - intros e. unfold checkDocker, try_catch, bind.
    destruct (execCommand T cmd_docker_version w) as [w1 [text | e1 | i]];
      discriminate.
  - unfold checkDocker, try_catch, bind, execCommand.
    rewrite (sudo_wrap_plain _ cmd_docker_version eq_refl).
    unfold bind, conn_exec.
    destruct (on_exec T cmd_docker_version (remote w)) as [h [| ms r]];
      [reflexivity |].
    destruct (wait ms _) as [w2 [[] | e | i]] eqn:Ew; apply sent_wait in Ew;
      [destruct r as [m | code out err | err] |..]; simpl; exact Ew.
  - intros e. unfold installDocker, try_catch.
    destruct (bind _ _ w) as [w1 [[] | e1 | i]]; unfold throw; cbn [snd];
      intros E; try discriminate E.
    injection E as <-. exact (startsWith_append "Failed to install Docker: " e1).
Qed.


End Results.

Lemma detection_details_are_consistent_witness :
  exists r,
    snd (testSetup nvidia_box (ubuntu "cuda") fresh) = Resolved (SetupOk r) /\
    consistent_details (details r) /\
    In (detected r) ["unsupported"; "cuda"; "strix"; "rocm"; "cpu"] /\
    (detected r = "unsupported" <-> isARM (architecture (details r)) = true) /\
    (error r <> None <-> detected r = "unsupported") /\
    (unsupportedReason r <> None <-> detected r = "unsupported").
Proof.
  eexists. split; [vm_compute; reflexivity |].
  apply (detection_details_are_consistent nvidia_box (ubuntu "cuda") fresh).
  vm_compute. reflexivity.
Defined.

Lemma successful_deployment_is_consistent_witness :
  exists d,
    snd (deploy gpu_less (ubuntu "cpu") fresh) = Resolved (Deployed d) /\
    consistent_deployment (ubuntu "cpu") d.
Proof.
  eexists. split; [vm_compute; reflexivity |].
  apply (successful_deployment_is_consistent gpu_less (ubuntu "cpu") fresh).
  vm_compute. reflexivity.
Defined.

Lemma hardware_preparation_never_throws_witness :
  snd (setupCuda gpu_less (set_deadline 300000 fresh)) = Throw no_nvidia_drivers /\
  snd (prepare_hardware gpu_less "cuda" (set_deadline 300000 fresh))
    = Ok ("cpu", false) /\
  snd (setupCuda cuda_host (set_deadline 300000 fresh)) = Ok tt /\
  snd (prepare_hardware cuda_host "cuda" (set_deadline 300000 fresh))
    = Ok ("cuda", true).
Proof.
  assert (Hfails : setupCuda gpu_less (set_deadline 300000 fresh)
                   = (fst (setupCuda gpu_less (set_deadline 300000 fresh)),
                      Throw no_nvidia_drivers)).
  { vm_compute. reflexivity. }
  assert (Hworks : setupCuda cuda_host (set_deadline 300000 fresh)
                   = (fst (setupCuda cuda_host (set_deadline 300000 fresh)),
                      Ok tt)).
  { vm_compute. reflexivity. }
  pose proof (hardware_preparation_never_throws gpu_less "cuda"
                (set_deadline 300000 fresh)) as Hfallback.
  pose proof (hardware_preparation_never_throws cuda_host "cuda"
                (set_deadline 300000 fresh)) as Hkept.
  cbn [setup_of String.eqb Ascii.eqb Bool.eqb] in Hfallback, Hkept.
  destruct Hfallback as [_ Hfallback]. destruct Hkept as [_ Hkept].
  rewrite Hfails in Hfallback. rewrite Hworks in Hkept.
  rewrite Hfails, Hworks, Hfallback, Hkept. repeat split.
Defined.

Lemma monitoring_report_is_consistent_witness :
  exists r,
    snd (monitorRemoteServices fleet (ubuntu "cuda") fresh) = Resolved r /\
    (totalServices r, runningServices r, healthyServices r) = (2, 1, 1) /\
    consistent_report (ubuntu "cuda") r.
Proof.
  eexists. split; [vm_compute; reflexivity |].
  split; [reflexivity |].
  apply (monitoring_report_is_consistent fleet (ubuntu "cuda") fresh).
  vm_compute. reflexivity.
Defined.

Lemma monitor_reads_back_deployed_type_witness :
  includes "cuda" "|" = false /\
  includes "Up 3 hours" "|" = false /\
  match monitor_line fleet (ubuntu "cuda")
          ("claracore-" ++ "cuda" ++ "|" ++ "Up 3 hours" ++ "|"
             ++ "0.0.0.0:8091->5890/tcp")
          (set_deadline 15000 fresh) with
  | (_, Ok s) =>
      svc_name s = "claracore-" ++ "cuda" /\
      svc_hardwareType s = "cuda" /\
      (svc_status s = "running" <-> includes (toLowerCase "Up 3 hours") "up" = true)
  | (_, Throw _) => False
  | (_, Suspended _) => includes (toLowerCase "Up 3 hours") "up" = true
  end.
Proof.
  split; [reflexivity |]. split; [reflexivity |].
  apply (monitor_reads_back_deployed_type fleet (ubuntu "cuda")
           "cuda" "Up 3 hours" "0.0.0.0:8091->5890/tcp"
           (set_deadline 15000 fresh)); reflexivity.
Defined.

Lemma exit_code_matters_only_with_output_witness :
  on_exec faulty
    (sudo_wrap (sudoPassword (set_deadline 300000 fresh))
       "docker pull clara17verse/claracore:cpu")
    (remote (set_deadline 300000 fresh))
    = (["docker pull clara17verse/claracore:cpu"],
       ReplyAfter 40
         (StreamClosed (Some 1%Z) []
            ["pull access denied for clara17verse/claracore"])) /\
  (now (set_deadline 300000 fresh) + 40 < deadline (set_deadline 300000 fresh))%N /\
  snd (execCommand faulty "docker pull clara17verse/claracore:cpu"
         (set_deadline 300000 fresh))
    = Ok "pull access denied for clara17verse/claracore" /\
  exists e,
    snd (execCommandWithOutput faulty "docker pull clara17verse/claracore:cpu"
           (set_deadline 300000 fresh)) = Throw e /\
    startsWith e "Command failed with code 1" = true.
Proof.
  assert (Hexec :
            on_exec faulty
              (sudo_wrap (sudoPassword (set_deadline 300000 fresh))
                 "docker pull clara17verse/claracore:cpu")
              (remote (set_deadline 300000 fresh))
            = (["docker pull clara17verse/claracore:cpu"],
               ReplyAfter 40
                 (StreamClosed (Some 1%Z) []
                    ["pull access denied for clara17verse/claracore"]))).
  { reflexivity. }
  assert (Htime : (now (set_deadline 300000 fresh) + 40
                   < deadline (set_deadline 300000 fresh))%N).
  { reflexivity. }
  split; [exact Hexec |]. split; [exact Htime |].
  destruct (exit_code_matters_only_with_output faulty _ _ _ _ _ _ _ Hexec Htime)
    as (Hplain & _ & Hthrows & _).
  split; [exact Hplain |].
  apply Hthrows. discriminate.
Defined.

Lemma docker_prerequisite_failures_witness :
  exists e,
    snd (installDocker faulty (set_deadline 300000 fresh)) = Throw e /\
    startsWith e "Failed to install Docker: " = true.
Proof.
  eexists.
  assert (Hthrown : snd (installDocker faulty (set_deadline 300000 fresh))
                    = Throw ("Failed to install Docker: Command failed with code 1: "
                               ++ "curl: (6) Could not resolve host: download.docker.com"
                               ++ nl)).
  { vm_compute. reflexivity. }
  split; [exact Hthrown |].
  exact (proj2 (proj2 (docker_prerequisite_failures faulty
                         (set_deadline 300000 fresh))) _ Hthrown).
Defined.

End RemoteExtras.

(** ** Further properties of the local container service *)

Module DockerExtras.

Import DockerService Scenarios DockerFacts.

Section General.

Context {X : Type} (E : Environment X).
Variable platform : string.
Variable isNaN : string -> bool.

Abbreviation shell_only := (DockerService.shell_only (X := X)).
Abbreviation inspects := (DockerService.inspects (X := X)).

(** **** Bookkeeping of the calls *)

Lemma issued_refl (w : World (X := X)) : issued w w [].
Proof. unfold issued. rewrite app_nil_r. reflexivity. Qed.

Lemma issued_trans (w1 w2 w3 : World (X := X)) (m1 m2 : list Call) :
  issued w1 w2 m1 -> issued w2 w3 m2 -> issued w1 w3 (List.app m1 m2).
Proof. unfold issued. intros E1 E2. rewrite E2, E1, app_assoc. reflexivity. Qed.

Lemma same_fields_refl (w : World (X := X)) : same_fields w w.
Proof. repeat split. Qed.

Lemma same_fields_trans (w1 w2 w3 : World (X := X)) :
  same_fields w1 w2 -> same_fields w2 w3 -> same_fields w1 w3.
Proof.
  intros (A1 & B1 & C1) (A2 & B2 & C2). repeat split; congruence.
Qed.

Lemma mutations_issued (w w' : World (X := X)) (more : list Call) :
  issued w w' more -> mutations w w' = filter is_mutation more.
Proof.
  unfold issued, mutations. intros ->.
  rewrite skipn_app, skipn_all, Nat.sub_diag. reflexivity.
Qed.

Lemma mutations_after (w w1 w' : World (X := X)) (rest : list Call) :
  only_queries w w1 -> issued w1 w' rest ->
  mutations w w' = filter is_mutation rest.
Proof.
  intros (more & Hmore & Hq) Hrest.
  rewrite (mutations_issued w w' (List.app more rest)).
  - rewrite filter_app.
    replace (filter is_mutation more) with (@nil Call); [reflexivity |].
    clear - Hq. induction more as [| c more IH]; [reflexivity |].
    simpl in *. apply andb_true_iff in Hq. destruct Hq as [Hc Hq].
    destruct (is_mutation c); [discriminate | auto].
  - exact (issued_trans _ _ _ _ _ Hmore Hrest).
Qed.

Lemma bind_returned {A B} (m : M (X := X) A) (k : A -> M B) w w' b :
  bind m k w = (w', Returned b) ->
  exists w1 a, m w = (w1, Returned a) /\ k a w1 = (w', Returned b).
Proof.
  unfold bind. destruct (m w) as [w1 [a | e]]; [eauto | discriminate].
Qed.

(** **** Shell commands only *)

Lemma shell_only_ret {A} (a : A) : shell_only (ret a).
Proof.
  intros w w' r Em. inversion Em; subst.
  split; [apply same_fields_refl |]. exists []. split; [apply issued_refl | reflexivity].
Qed.

Lemma shell_only_bind {A B} (m : M A) (k : A -> M B) :
  shell_only m -> (forall a, shell_only (k a)) -> shell_only (bind m k).
Proof.
  intros Hm Hk w w' r Em. unfold bind in Em.
  destruct (m w) as [w1 [a | e]] eqn:E1;
    destruct (Hm _ _ _ E1) as (F1 & m1 & I1 & S1).
  - destruct (Hk a _ _ _ Em) as (F2 & m2 & I2 & S2).
    split; [eapply same_fields_trans; eassumption |].
    exists (List.app m1 m2). split; [eapply issued_trans; eassumption |].
    rewrite forallb_app, S1, S2. reflexivity.
  - inversion Em; subst. split; [exact F1 |]. exists m1. split; assumption.
Qed.

Lemma shell_only_try_catch {A} (m : M A) (handler : string -> M A) :
  shell_only m -> (forall e, shell_only (handler e)) ->
  shell_only (try_catch m handler).
Proof.
  intros Hm Hh w w' r Em. unfold try_catch in Em.
  destruct (m w) as [w1 [a | e]] eqn:E1;
    destruct (Hm _ _ _ E1) as (F1 & m1 & I1 & S1).
  - inversion Em; subst. split; [exact F1 |]. exists m1. split; assumption.
  - destruct (Hh e _ _ _ Em) as (F2 & m2 & I2 & S2).
    split; [eapply same_fields_trans; eassumption |].
    exists (List.app m1 m2). split; [eapply issued_trans; eassumption |].
    rewrite forallb_app, S1, S2. reflexivity.
Qed.

Lemma shell_only_sh (command : string) : shell_only (sh E command).
Proof.
  intros w w' r Em. unfold sh, call in Em.
  destruct (execSync E command (env w)) as [x res]. inversion Em; subst.
  split; [repeat split |]. exists [CallExecSync command]. split; reflexivity.
Qed.

Lemma shell_only_forEachM {A} (xs : list A) (f : A -> M unit) :
  (forall x, shell_only (f x)) -> shell_only (forEachM xs f).
Proof.
  intros Hf. induction xs as [| x rest IH]; simpl.
  - apply shell_only_ret.
  - apply shell_only_bind; [apply Hf | intros _; exact IH].
Qed.

Ltac shell_tac :=
  repeat first
    [ apply shell_only_ret
    | apply shell_only_sh
    | apply shell_only_bind; [| intros ?]
    | apply shell_only_try_catch; [| intros ?]
    | apply shell_only_forEachM; intros ?
    | match goal with
      | |- DockerService.shell_only (if ?b then _ else _) => destruct b
      | |- DockerService.shell_only (match ?x with _ => _ end) => destruct x
      end
    | progress cbv zeta ].

Lemma shell_only_killProcessOnPort8091 :
  shell_only (killProcessOnPort8091 E platform isNaN).
Proof. unfold killProcessOnPort8091, kill_with. shell_tac. Qed.

Lemma shell_only_inspects {A} (m : M A) : shell_only m -> inspects m.
Proof.
  intros Hm w w' r Em. destruct (Hm _ _ _ Em) as (_ & more & I1 & S1).
  exists more. split; [exact I1 |].
  clear - S1. induction more as [| c more IH]; [reflexivity |].
  simpl in *. apply andb_true_iff in S1. destruct S1 as [Hc S1].
  rewrite (IH S1). destruct c; try discriminate Hc. reflexivity.
Qed.

(** **** One probe *)

Lemma probe_outcome (command : string) (accept : string -> bool)
    (label : string -> string) (w : World (X := X)) :
  exists w' o,
    probe E command accept label w = (w', Returned o) /\
    same_fields w w' /\ issued w w' [CallExecSync command].
Proof.
  unfold probe, try_catch, bind, sh, call, ret.
  destruct (execSync E command (env w)) as [x [out | e]];
    eexists; eexists; (split; [reflexivity |]); split; repeat split.
Qed.

(** **** Automatic detection *)

Lemma found_sets_variant (t n : string) (w w' : World (X := X))
    (r : Result GpuInfo) :
  found t n w = (w', r) ->
  issued w w' [] /\
  gpuType w' = Some t /\
  detectedImage w' = Some ("clara17verse/claracore:" ++ t).
Proof.
  unfold found, bind, set_gpu, ret. intros Em. inversion Em; subst.
  unfold issued. simpl. rewrite app_nil_r. repeat split.
Qed.

Lemma shell_calls_are_queries (more : list Call) :
  forallb is_shell more = true ->
  forallb (fun c => negb (is_mutation c)) more = true.
Proof.
  induction more as [| c more IH]; [reflexivity |].
  simpl. intros S1. apply andb_true_iff in S1. destruct S1 as [Hc S1].
  rewrite (IH S1). destruct c; try discriminate Hc. reflexivity.
Qed.

Lemma detectGPU_sets_variant (w w' : World (X := X)) (r : Result GpuInfo) :
  detectGPU E platform w = (w', r) ->
  only_queries w w' /\
  exists t, gpuType w' = Some t /\
            detectedImage w' = Some ("clara17verse/claracore:" ++ t).
Proof.
  assert (Hfound : forall t n (w1 : World (X := X)) shell,
            issued w w1 shell -> forallb is_shell shell = true ->
            found t n w1 = (w', r) ->
            only_queries w w' /\
            exists t, gpuType w' = Some t /\
                      detectedImage w' = Some ("clara17verse/claracore:" ++ t)).
  { intros t n w1 shell I1 S1 Ef.
    destruct (found_sets_variant _ _ _ _ _ Ef) as (I2 & Hg & Hd).
    split; [| eauto]. exists shell. split.
    - pose proof (issued_trans _ _ _ _ _ I1 I2) as I3.
      rewrite app_nil_r in I3. exact I3.
    - apply shell_calls_are_queries. exact S1. }
  unfold detectGPU, probe_nvidia, probe_rocm, probe_vulkan.
  destruct (platform =? "win32")%string; [| destruct (platform =? "linux")%string].
  - destruct (probe_outcome cmd_nvidia_smi
                (fun out => truthy out && truthy (trim out)) trim w)
      as (w1 & nv & E1 & _ & I1).
    unfold bind. rewrite E1.
    destruct nv as [name |]; apply (Hfound _ _ _ _ I1 eq_refl).
  - destruct (probe_outcome cmd_nvidia_smi
                (fun out => truthy out && truthy (trim out)) trim w)
      as (w1 & nv & E1 & _ & I1).
    unfold bind at 1. rewrite E1.
    destruct nv as [name |]; [apply (Hfound _ _ _ _ I1 eq_refl) |].
    destruct (probe_outcome "rocm-smi --showproductname"
                (fun out => truthy out && includes out "GPU")
                (fun _ => "AMD GPU (ROCm)") w1)
      as (w2 & amd & E2 & _ & I2).
    unfold bind at 1. rewrite E2.
    destruct amd as [name |];
      [apply (Hfound _ _ _ _ (issued_trans _ _ _ _ _ I1 I2) eq_refl) |].
    destruct (probe_outcome "vulkaninfo --summary"
                (fun out => truthy out && includes out "Vulkan")
                (fun _ => "Vulkan-compatible GPU") w2)
      as (w3 & vk & E3 & _ & I3).
    unfold bind at 1. rewrite E3.
    destruct vk as [name |];
      apply (Hfound _ _ _ _
               (issued_trans _ _ _ _ _ (issued_trans _ _ _ _ _ I1 I2) I3) eq_refl).
  - apply (Hfound _ _ _ _ (issued_refl w) eq_refl).
Qed.

(** X20. [detectGPU] returns for every behaviour of the local shell: the
    variant is one of cuda, rocm, vulkan and cpu; the instance remembers
    it together with the matching image; [isRunning] is left alone; only
    shell commands are issued; on win32 the variant is cuda or cpu; and on
    a platform other than win32 and linux it is cpu without any command
    being run. *)
Theorem detectGPU_outcome (w : World (X := X)) :
  exists w' g,
    detectGPU E platform w = (w', Returned g) /\
    In (gpu_type g) gpu_variants /\
    gpuType w' = Some (gpu_type g) /\
    detectedImage w' = Some ("clara17verse/claracore:" ++ gpu_type g) /\
    isRunning w' = isRunning w /\
    (exists more, issued w w' more /\ forallb is_shell more = true) /\
    (platform = "win32" -> gpu_type g = "cuda" \/ gpu_type g = "cpu") /\
    (platform <> "win32" -> platform <> "linux" ->
     gpu_type g = "cpu" /\ calls w' = calls w).
Proof.
  unfold detectGPU, probe_nvidia, probe_rocm, probe_vulkan, gpu_variants.
  destruct (String.eqb_spec platform "win32") as [Hwin | Hwin];
    [| destruct (String.eqb_spec platform "linux") as [Hlinux | Hlinux]].
  - destruct (probe_outcome cmd_nvidia_smi
                (fun out => truthy out && truthy (trim out)) trim w)
      as (w1 & nv & E1 & (R1 & G1 & D1) & I1).
    unfold bind. rewrite E1.
    destruct nv as [name |]; unfold found, bind, set_gpu, ret; simpl;
      eexists; eexists; (split; [reflexivity |]); simpl;
      (repeat split; auto; try congruence);
      exists [CallExecSync cmd_nvidia_smi]; (split; [exact I1 | reflexivity]).
  - destruct (probe_outcome cmd_nvidia_smi
                (fun out => truthy out && truthy (trim out)) trim w)
      as (w1 & nv & E1 & (R1 & G1 & D1) & I1).
    unfold bind at 1. rewrite E1.
    destruct nv as [name |].
    { unfold found, bind, set_gpu, ret; simpl.
      eexists; eexists; (split; [reflexivity |]); simpl.
      repeat split; auto; try congruence.
      exists [CallExecSync cmd_nvidia_smi]; split; [exact I1 | reflexivity]. }
    destruct (probe_outcome "rocm-smi --showproductname"
                (fun out => truthy out && includes out "GPU")
                (fun _ => "AMD GPU (ROCm)") w1)
      as (w2 & amd & E2 & (R2 & G2 & D2) & I2).
    unfold bind at 1. rewrite E2.
    destruct amd as [name |].
    { unfold found, bind, set_gpu, ret; simpl.
      eexists; eexists; (split; [reflexivity |]); simpl.
      repeat split; auto; try congruence.
      eexists; split; [exact (issued_trans _ _ _ _ _ I1 I2) | reflexivity]. }
    destruct (probe_outcome "vulkaninfo --summary"
                (fun out => truthy out && includes out "Vulkan")
                (fun _ => "Vulkan-compatible GPU") w2)
      as (w3 & vk & E3 & (R3 & G3 & D3) & I3).
    unfold bind at 1. rewrite E3.
    destruct vk as [name |]; unfold found, bind, set_gpu, ret; simpl;
      eexists; eexists; (split; [reflexivity |]); simpl;
      (repeat split; auto 6; try congruence);
      eexists;
      (split; [exact (issued_trans _ _ _ _ _ (issued_trans _ _ _ _ _ I1 I2) I3)
              | reflexivity]).
  - unfold found, bind, set_gpu, ret; simpl.
    eexists; eexists; (split; [reflexivity |]); simpl.
    repeat split; auto; try congruence.
    exists []. split; [| reflexivity].
    unfold issued; simpl. rewrite app_nil_r. reflexivity.
Qed.

(** **** Freeing the port *)

(** X21. [killProcessOnPort8091] never throws, whatever the local shell
    does; it leaves the instance fields alone and talks to the shell only,
    starting with the port query of the platform. *)
Theorem port_cleanup_never_throws (w : World (X := X)) :
  exists w' more,
    killProcessOnPort8091 E platform isNaN w = (w', Returned tt) /\
    same_fields w w' /\
    issued w w' (CallExecSync (port_query platform) :: more) /\
    forallb is_shell more = true.
Proof.
  destruct (killProcessOnPort8091 E platform isNaN w) as [w' r] eqn:Ek.
  assert (Hret : r = Returned tt).
  { destruct (returns_killProcessOnPort8091 E platform isNaN w) as (w1 & [] & E1).
    congruence. }
  subst r.
  destruct (shell_only_killProcessOnPort8091 _ _ _ Ek) as (Hf & _).
  assert (Hfirst : exists more,
             issued w w' (CallExecSync (port_query platform) :: more) /\
             forallb is_shell more = true).
  { revert Ek. unfold killProcessOnPort8091, port_query, try_catch.
    destruct (platform =? "win32")%string.
    - unfold bind at 1. unfold sh at 1, call.
      destruct (execSync E _ (env w)) as [x [out | e]].
      + set (w1 := {| env := x; isRunning := isRunning w; gpuType := gpuType w;
                      detectedImage := detectedImage w;
                      calls := List.app (calls w) [CallExecSync
                        "netstat -ano | findstr :8091 | findstr LISTENING"] |}).
        set (rest := if truthy out then _ else _).
        intros Ek. assert (Hrest : shell_only rest).
        { unfold rest, kill_with. shell_tac. }
        assert (Ek' : exists r, rest w1 = (w', r)).
        { destruct (rest w1) as [w2 [[] | e]]; inversion Ek; subst; eauto. }
        destruct Ek' as (r & Ek').
        destruct (Hrest _ _ _ Ek') as (_ & more & I1 & S1).
        exists more. split; [| exact S1].
        unfold issued in *. rewrite I1. simpl. rewrite <- app_assoc. reflexivity.
      + intros Ek. inversion Ek; subst. exists []. split; reflexivity.
    - unfold bind at 1. unfold sh at 1, call.
      destruct (execSync E _ (env w)) as [x [out | e]].
      + set (w1 := {| env := x; isRunning := isRunning w; gpuType := gpuType w;
                      detectedImage := detectedImage w;
                      calls := List.app (calls w) [CallExecSync "lsof -ti:8091"] |}).
        cbv zeta.
        set (rest := if truthy (trim out) then _ else _).
        intros Ek. assert (Hrest : shell_only rest).
        { unfold rest, kill_with. shell_tac. }
        assert (Ek' : exists r, rest w1 = (w', r)).
        { destruct (rest w1) as [w2 [[] | e]]; inversion Ek; subst; eauto. }
        destruct Ek' as (r & Ek').
        destruct (Hrest _ _ _ Ek') as (_ & more & I1 & S1).
        exists more. split; [| exact S1].
        unfold issued in *. rewrite I1. simpl. rewrite <- app_assoc. reflexivity.
      + intros Ek. inversion Ek; subst. exists []. split; reflexivity. }
  destruct Hfirst as (more & I1 & S1).
  exists w', more. repeat split; try assumption; apply Hf.
Qed.

(** **** Waiting for the service *)

Lemma waitForHealthy_probes (maxAttempts : nat) (w : World (X := X)) :
  exists w' healthy attempts,
    waitForHealthy E maxAttempts w = (w', Returned healthy) /\
    same_fields w w' /\
    issued w w' (repeat CallHealth attempts).
Proof.
  revert w. induction maxAttempts as [| n IH]; intros w.
  - exists w, false, 0. simpl. repeat split. apply issued_refl.
  - simpl. unfold bind, call.
    destruct (healthProbe E (env w)) as [x [|]].
    + eexists. exists true, 1. simpl. split; [reflexivity |]. repeat split.
    + match goal with
      | |- context [waitForHealthy E n ?w1] =>
          destruct (IH w1) as (w' & healthy & k & Ew & Hf & Hi)
      end.
      exists w', healthy, (S k). split; [exact Ew |]. split; [exact Hf |].
      unfold issued in *. rewrite Hi. simpl. rewrite <- app_assoc. reflexivity.
Qed.

(** X22. [waitForHealthy] always returns; it probes the health endpoint
    at most [maxAttempts] times and does nothing else.  It returns true
    exactly when one of these probes succeeds, and then stops at the first
    that does: every probe before the last has failed and the last has
    succeeded; it returns false when all of the [maxAttempts] probes have
    failed. *)
Theorem waitForHealthy_attempts (maxAttempts : nat) (w : World (X := X)) :
  exists w' healthy attempts,
    waitForHealthy E maxAttempts w = (w', Returned healthy) /\
    same_fields w w' /\
    issued w w' (repeat CallHealth attempts) /\
    attempts <= maxAttempts /\
    env w' = fst (probed E attempts (env w)) /\
    snd (probed E attempts (env w))
    = (if healthy then List.app (repeat false (attempts - 1)) [true]
       else repeat false maxAttempts) /\
    (if healthy then 1 <= attempts else attempts = maxAttempts).
Proof.
  revert w. induction maxAttempts as [| n IH]; intros w.
  - exists w, false, 0. simpl. repeat split; try lia. apply issued_refl.
  - simpl. unfold bind, call.
    destruct (healthProbe E (env w)) as [x [|]] eqn:Ep.
    + eexists. exists true, 1. simpl. rewrite Ep.
      split; [reflexivity |]. repeat split; lia.
    + set (w1 := {| env := x; isRunning := isRunning w; gpuType := gpuType w;
                    detectedImage := detectedImage w;
                    calls := List.app (calls w) [CallHealth] |}).
      destruct (IH w1)
        as (w' & healthy & k & Ew & Hf & Hi & Hk & Henv & Hanswers & Hres).
      exists w', healthy, (S k). cbn [probed]. rewrite Ep.
      change (env w1) with x in Henv, Hanswers.
      destruct (probed E k x) as [x2 rest]. cbn [fst snd] in *.
      split; [exact Ew |].
      split; [exact Hf |].
      split; [exact (issued_trans w w1 w' [CallHealth] _ eq_refl Hi) |].
      split; [lia |].
      split; [exact Henv |].
      split; [| destruct healthy; lia].
      rewrite Hanswers. destruct healthy.
      * destruct k as [| k]; [lia |]. simpl. rewrite Nat.sub_0_r. reflexivity.
      * reflexivity.
Qed.

(** **** Starting *)

Lemma inspects_ensureDockerRunning : inspects (ensureDockerRunning E).
Proof.
  intros w w' r Em. unfold ensureDockerRunning, try_catch, bind, call in Em.
  destruct (ping E (env w)) as [x [[] | e]]; inversion Em; subst;
    exists [CallPing]; split; reflexivity.
Qed.

Lemma inspects_containerExists : inspects (containerExists E).
Proof.
  intros w w' r Em. unfold containerExists, try_catch, bind, call in Em.
  destruct (listContainers E (env w)) as [x [containers | e]];
    inversion Em; subst; exists [CallListContainers]; split; reflexivity.
Qed.

Lemma containerExists_fields (w w' : World (X := X)) (r : Result bool) :
  containerExists E w = (w', r) -> same_fields w w'.
Proof.
  unfold containerExists, try_catch, bind, call. intros Em.
  destruct (listContainers E (env w)) as [x [containers | e]];
    inversion Em; subst; repeat split.
Qed.

Lemma choose_gpu_outcome (requested : option string) (w w' : World (X := X))
    (r : Result GpuInfo) :
  choose_gpu E platform requested w = (w', r) ->
  only_queries w w' /\
  exists t, gpuType w' = Some t /\
            detectedImage w' = Some ("clara17verse/claracore:" ++ t).
Proof.
  pose proof (detectGPU_sets_variant w w' r) as Hdetect.
  unfold choose_gpu. destruct requested as [g |]; [| exact Hdetect].
  destruct (truthy g); [| exact Hdetect].
  unfold bind, set_gpu, ret. intros Em. inversion Em; subst. simpl.
  split; [| eauto]. exists []. simpl. rewrite app_nil_r. split; reflexivity.
Qed.

Lemma filter_health (n : nat) : filter is_mutation (repeat CallHealth n) = [].
Proof. induction n; simpl; auto. Qed.

Lemma start_body_returned (requested : option string) (w w' : World (X := X))
    (r : StartResult) :
  start_body E platform isNaN requested w = (w', Returned r) ->
  start_success r = true /\
  isRunning w' = true /\
  start_gpuType r = gpuType w' /\
  ((start_message r = "Container already running" /\ mutations w w' = []) \/
   (start_message r = "Container started" /\
    mutations w w' = [CallStart containerName]) \/
   (start_message r = "ClaraCore started in Docker" /\
    exists image created,
      detectedImage w' = Some image /\
      start_image r = Some image /\
      (mutations w w'
       = [CallCreate (containerConfig (gpuType w') (detectedImage w'));
          CallStart created] \/
       mutations w w'
       = [CallPull image;
          CallCreate (containerConfig (gpuType w') (detectedImage w'));
          CallStart created]))).
Proof.
  unfold start_body. intros Hrun.
  apply bind_returned in Hrun as (w1 & ok & E1 & Hrun).
  apply bind_returned in Hrun as (w2 & [] & E2 & Hrun).
  apply bind_returned in Hrun as (w3 & gpu & E3 & Hrun).
  apply bind_returned in Hrun as (w4 & exists_ & E4 & Hrun).
  pose proof (inspects_ensureDockerRunning _ _ _ E1) as Q1.
  pose proof (shell_only_inspects _ shell_only_killProcessOnPort8091 _ _ _ E2) as Q2.
  destruct (choose_gpu_outcome _ _ _ _ E3) as (Q3 & t & Hg3 & Hd3).
  pose proof (inspects_containerExists _ _ _ E4) as Q4.
  destruct (containerExists_fields _ _ _ E4) as (_ & Hg4 & Hd4).
  rewrite Hg3 in Hg4. rewrite Hd3 in Hd4.
  assert (Q : only_queries w w4).
  { eapply only_queries_trans; [exact Q1 |].
    eapply only_queries_trans; [exact Q2 |].
    eapply only_queries_trans; [exact Q3 | exact Q4]. }
  clear Q1 Q2 Q3 Q4 E1 E2 E3 E4 Hg3 Hd3.
  destruct exists_.
  - apply bind_returned in Hrun as (w5 & info & E5 & Hrun).
    unfold call in E5.
    destruct (inspect E containerName (env w4)) as [x [i | e]];
      inversion E5; subst; clear E5.
    destruct (Running info).
    + unfold bind, set_isRunning, ret in Hrun. simpl in Hrun.
      inversion Hrun; subst; clear Hrun. simpl.
      repeat split. left. split; [reflexivity |].
      apply (mutations_after _ _ _ [CallInspect containerName] Q). reflexivity.
    + unfold bind, call, set_isRunning, ret in Hrun. simpl in Hrun.
      destruct (startContainer E containerName x) as [x' [[] | e]];
        inversion Hrun; subst; clear Hrun. simpl.
      repeat split. right; left. split; [reflexivity |].
      apply (mutations_after _ _ _
               [CallInspect containerName; CallStart containerName] Q).
      unfold issued; simpl. rewrite <- app_assoc. reflexivity.
  - apply bind_returned in Hrun as (w5 & images & E5 & Hrun).
    unfold call in E5.
    destruct (listImages E (env w4)) as [x [imgs | e]];
      inversion E5; subst; clear E5.
    cbv beta zeta in Hrun. cbn [detectedImage gpuType] in Hrun.
    rewrite Hd4, Hg4 in Hrun.
    set (image := "clara17verse/claracore:" ++ t) in *.
    set (cfg := containerConfig (Some t) (Some image)) in *.
    set (w5 := {| env := x; isRunning := isRunning w4; gpuType := Some t;
                  detectedImage := Some image;
                  calls := List.app (calls w4) [CallListImages] |}) in *.
    apply bind_returned in Hrun as (w6 & [] & E6 & Hrun).
    assert (Hpulled : exists pulled,
               issued w5 w6 pulled /\
               (pulled = [] \/ pulled = [CallPull image]) /\
               gpuType w6 = Some t /\ detectedImage w6 = Some image).
    { destruct (negb _) in E6.
      - unfold pullImage, call in E6.
        destruct (pull E image (env w5)) as [x6 [[] | e]];
          inversion E6; subst; clear E6.
        exists [CallPull image]. repeat split. right. reflexivity.
      - inversion E6; subst. exists []. repeat split; [apply issued_refl | auto]. }
    destruct Hpulled as (pulled & I6 & Hpulled & Hg6 & Hd6). clear E6.
    apply bind_returned in Hrun as (w7 & created & E7 & Hrun).
    unfold call in E7.
    destruct (createContainer E cfg (env w6)) as [x7 [c | e]];
      inversion E7; subst c w7; clear E7.
    apply bind_returned in Hrun as (w8 & [] & E8 & Hrun).
    unfold call in E8. cbn [env isRunning gpuType detectedImage calls] in E8.
    destruct (startContainer E created x7) as [x8 [[] | e]];
      inversion E8; subst w8; clear E8.
    apply bind_returned in Hrun as (w9 & [] & E9 & Hrun).
    unfold set_isRunning in E9. cbn [env isRunning gpuType detectedImage calls] in E9.
    inversion E9; subst w9; clear E9.
    apply bind_returned in Hrun as (w10 & healthy & E10 & Hrun).
    match type of E10 with
    | waitForHealthy _ _ ?w9 = _ =>
        destruct (waitForHealthy_probes 30 w9)
          as (w10' & healthy' & attempts & Ew & (Hr10 & Hg10 & Hd10) & I10)
    end.
    rewrite Ew in E10. inversion E10; subst w10' healthy'; clear E10 Ew.
    unfold ret in Hrun. inversion Hrun; subst w10 r; clear Hrun.
    cbn [env isRunning gpuType detectedImage calls] in Hr10, Hg10, Hd10, I10.
    cbn [start_success start_message start_gpuType start_image].
    rewrite Hr10, Hg10, Hd10, Hg6, Hd6.
    repeat split. right; right. split; [reflexivity |].
    exists image, created. split; [reflexivity |]. split; [reflexivity |].
    assert (Hall : issued w4 w'
                     (List.app (CallListImages :: pulled)
                        (List.app [CallCreate cfg; CallStart created]
                                  (repeat CallHealth attempts)))).
    { unfold issued in *. rewrite I10, I6. unfold w5. simpl.
      repeat rewrite <- app_assoc. reflexivity. }
    rewrite (mutations_after _ _ _ _ Q Hall).
    rewrite !filter_app, filter_health, app_nil_r.
    destruct Hpulled as [-> | ->]; [left | right]; reflexivity.
Qed.

Lemma start_failed_stopped (requested : option string)
    (w w' : World (X := X)) (e : string) :
  start E platform isNaN requested w = (w', Failed e) -> isRunning w' = false.
Proof.
  unfold start, try_catch.
  destruct (start_body E platform isNaN requested w) as [w1 [r1 | e1]];
    [discriminate |].
  unfold bind, set_isRunning, throw.
  destruct (includes e1 "port" && includes e1 "8091");
    intros Hrun; inversion Hrun; reflexivity.
Qed.

Lemma start_returned_running (requested : option string)
    (w w' : World (X := X)) (r : StartResult) :
  start E platform isNaN requested w = (w', Returned r) ->
  start_success r = true /\ isRunning w' = true.
Proof.
  unfold start, try_catch. intros Hrun.
  destruct (start_body E platform isNaN requested w) as [w1 [r1 | e]] eqn:Eb.
  - inversion Hrun; subst.
    destruct (start_body_returned _ _ _ _ Eb) as (Hs & Hr & _). split; assumption.
  - unfold bind, set_isRunning in Hrun.
    destruct (includes e "port" && includes e "8091"); discriminate Hrun.
Qed.

(** X23. What a successful [start] has done, told by its message.  It
    always reports success with the variant of the instance and leaves
    [isRunning] true; [Container already running] means that nothing was
    created, pulled or started; [Container started] that the existing
    container was started and nothing else; [ClaraCore started in Docker]
    that one container was created from the configuration of the detected
    variant and started, after a pull of the detected image at most. *)
Theorem start_mutations_by_result (requested : option string)
    (w w' : World (X := X)) (r : StartResult) :
  start E platform isNaN requested w = (w', Returned r) ->
  start_success r = true /\
  isRunning w' = true /\
  start_gpuType r = gpuType w' /\
  ((start_message r = "Container already running" /\ mutations w w' = []) \/
   (start_message r = "Container started" /\
    mutations w w' = [CallStart containerName]) \/
   (start_message r = "ClaraCore started in Docker" /\
    exists image created,
      detectedImage w' = Some image /\
      start_image r = Some image /\
      (mutations w w'
       = [CallCreate (containerConfig (gpuType w') (detectedImage w'));
          CallStart created] \/
       mutations w w'
       = [CallPull image;
          CallCreate (containerConfig (gpuType w') (detectedImage w'));
          CallStart created]))).
Proof.
  unfold start, try_catch. intros Hrun.
  destruct (start_body E platform isNaN requested w) as [w1 [r1 | e]] eqn:Eb.
  - inversion Hrun; subst. exact (start_body_returned _ _ _ _ Eb).
  - unfold bind, set_isRunning in Hrun.
    destruct (includes e "port" && includes e "8091"); discriminate Hrun.
Qed.

(** X24. A failed [start] always leaves [isRunning] false; when the
    engine does not answer the ping, [start] fails at once with the
    message that Docker is not running, having issued the ping and nothing
    else; and an error that mentions both [port] and [8091] is replaced
    by the advice on freeing the port. *)
Theorem failed_start_resets_isRunning (requested : option string)
    (w : World (X := X)) :
  (forall w' e, start E platform isNaN requested w = (w', Failed e) ->
                isRunning w' = false) /\
  (forall x e, ping E (env w) = (x, Failed e) ->
     exists w', start E platform isNaN requested w
                = (w', Failed docker_not_running) /\
                issued w w' [CallPing] /\ env w' = x) /\
  (forall w1 w' e e', start_body E platform isNaN requested w = (w1, Failed e) ->
     includes e "port" && includes e "8091" = true ->
     start E platform isNaN requested w = (w', Failed e') ->
     e' = port_in_use).
Proof.
  split; [| split].
  - intros w' e. apply start_failed_stopped.
  - intros x e Hping.
    unfold start, try_catch, start_body, bind at 1.
    unfold ensureDockerRunning, try_catch, bind at 1, call. rewrite Hping.
    unfold throw at 1. eexists. split; [reflexivity |]. split; reflexivity.
  - intros w1 w' e e' Eb Hport. unfold start, try_catch. rewrite Eb.
    unfold bind, set_isRunning, throw. rewrite Hport.
    intros Hrun. inversion Hrun. reflexivity.
Qed.



(** **** Stopping, removing and restarting *)

Variable L : Lifecycle X.

(** X25. [stop] and [remove] never report a failure in their result:
    whenever they return, [success] is true.  A returning [stop] leaves
    [isRunning] false, whether the container was found or not; a
    returning [remove] leaves [isRunning] false only when it removed the
    container, and untouched when there was none; and when either throws,
    [isRunning] is as before. *)
Theorem stop_and_remove_results (w : World (X := X)) :
  (forall w' r, stop E L w = (w', Returned r) ->
     op_success r = true /\ isRunning w' = false /\
     (op_message r = "Container not found" \/
      op_message r = "Container stopped")) /\
  (forall w' r, remove E L w = (w', Returned r) ->
     op_success r = true /\
     ((op_message r = "Container not found" /\ isRunning w' = isRunning w) \/
      (op_message r = "Container removed" /\ isRunning w' = false))) /\
  (forall w' e, stop E L w = (w', Failed e) -> isRunning w' = isRunning w) /\
  (forall w' e, remove E L w = (w', Failed e) -> isRunning w' = isRunning w).
Proof.
  unfold stop, remove, containerExists, try_catch, bind, call, handle,
    set_isRunning, ret, throw.
  destruct (listContainers E (env w)) as [x [containers | e0]]; simpl;
    [destruct (existsb _ containers); simpl;
     [destruct (inspect E _ x) as [x1 [info | e1]]; simpl;
      [destruct (Running info); simpl;
       [destruct (stopContainer L _ x1) as [x2 [[] | e2]]; simpl;
        [destruct (removeContainer L _ x2) as [x3 [[] | e3]] |]
       | destruct (removeContainer L _ x1) as [x3 [[] | e3]]] |] |] |];
    (split; [| split; [| split]]);
    intros w' r Hrun; inversion Hrun; subst; simpl; repeat split; auto.
Qed.

(** X26. When the engine fails to list the containers, [stop] and
    [remove] do not fail: both return success with the message
    [Container not found], the failure of the listing being taken for the
    absence of the container. *)
Theorem stop_and_remove_swallow_listing_failure (w : World (X := X))
    (x : X) (e : string) :
  listContainers E (env w) = (x, Failed e) ->
  exists w1 w2,
    stop E L w
    = (w1, Returned {| op_success := true; op_message := "Container not found" |}) /\
    remove E L w
    = (w2, Returned {| op_success := true; op_message := "Container not found" |}) /\
    env w1 = x /\ env w2 = x /\
    isRunning w1 = false /\ isRunning w2 = isRunning w.
Proof.
  intros Hlist.
  unfold stop, remove, containerExists, try_catch, bind, call, set_isRunning, ret.
  rewrite Hlist. cbn [negb env].
  eexists. eexists. split; [reflexivity |]. split; [reflexivity |].
  repeat split.
Qed.

(** X27. [restart] returns only with a successful start, [isRunning]
    being true; when it throws, either [stop] threw that very error and
    no start was attempted, or the start failed and [isRunning] is
    false. *)
Theorem restart_outcomes (w : World (X := X)) :
  match restart E L platform isNaN w with
  | (w', Returned r) => start_success r = true /\ isRunning w' = true
  | (w', Failed e) => stop E L w = (w', Failed e) \/ isRunning w' = false
  end.
Proof.
  unfold restart, bind.
  destruct (stop E L w) as [w1 [r1 | e1]]; [| left; reflexivity].
  destruct (start E platform isNaN None w1) as [w' [r | e]] eqn:Es.
  - exact (start_returned_running _ _ _ _ Es).
  - right. exact (start_failed_stopped _ _ _ _ Es).
Qed.

End General.

Lemma detectGPU_outcome_witness :
  "darwin" <> "win32" /\ "darwin" <> "linux" /\
  exists w' g,
    detectGPU simulated "darwin" (idle []) = (w', Returned g) /\
    gpu_type g = "cpu" /\ calls w' = calls (idle (X := list (string * bool)) []).
Proof.
  assert (H1 : "darwin" <> "win32") by discriminate.
  assert (H2 : "darwin" <> "linux") by discriminate.
  split; [exact H1 |]. split; [exact H2 |].
  destruct (detectGPU_outcome simulated "darwin" (idle []))
    as (w' & g & Eg & _ & _ & _ & _ & _ & _ & Hother).
  exists w', g. split; [exact Eg | exact (Hother H1 H2)].
Defined.

Lemma failed_start_resets_isRunning_witness :
  ping daemon_down (env (idle tt))
    = (tt, Failed "connect ENOENT /var/run/docker.sock") /\
  exists w',
    start daemon_down "linux" (fun _ => false) None (idle tt)
      = (w', Failed docker_not_running) /\
    issued (idle tt) w' [CallPing] /\ env w' = tt.
Proof.
  assert (Hping : ping daemon_down (env (idle tt))
                  = (tt, Failed "connect ENOENT /var/run/docker.sock")).
  { reflexivity. }
  split; [exact Hping |].
  exact (proj1 (proj2 (failed_start_resets_isRunning daemon_down "linux"
                         (fun _ => false) None (idle tt))) _ _ Hping).
Defined.

Lemma start_mutations_by_result_witness :
  exists w' r image created,
    start simulated "linux" (fun _ => false) None (idle []) = (w', Returned r) /\
    start_message r = "ClaraCore started in Docker" /\
    detectedImage w' = Some image /\
    mutations (idle []) w'
    = [CallPull image;
       CallCreate (containerConfig (gpuType w') (detectedImage w'));
       CallStart created].
Proof.
  destruct (start simulated "linux" (fun _ => false) None (idle []))
    as [w' [r | e]] eqn:Es; [| vm_compute in Es; discriminate Es].
  assert (Hmessage : start_message r = "ClaraCore started in Docker").
  { vm_compute in Es. inversion Es. reflexivity. }
  assert (Hpull : exists image, In (CallPull image) (mutations (idle []) w')).
  { vm_compute in Es. inversion Es. eexists. left. reflexivity. }
  destruct (start_mutations_by_result simulated "linux" (fun _ => false)
              None (idle []) w' r Es)
    as (_ & _ & _ & [[Hm _] | [[Hm _] | (_ & image & created & Hd & _ & Hmut)]]).
  - rewrite Hmessage in Hm. discriminate Hm.
  - rewrite Hmessage in Hm. discriminate Hm.
  - exists w', r, image, created. split; [reflexivity |].
    split; [exact Hmessage |]. split; [exact Hd |].
    destruct Hmut as [Hmut | Hmut]; [| exact Hmut].
    destruct Hpull as (pulled & Hin). rewrite Hmut in Hin.
    destruct Hin as [F | [F | []]]; discriminate F.
Defined.

Lemma stop_and_remove_results_witness :
  exists w' r,
    stop simulated simulated_handles (idle [("clara_core", true)])
      = (w', Returned r) /\
    op_success r = true /\ isRunning w' = false /\
    (op_message r = "Container not found" \/ op_message r = "Container stopped").
Proof.
  eexists. eexists.
  assert (Hrun : stop simulated simulated_handles (idle [("clara_core", true)])
                 = ({| env := [("clara_core", false)]; isRunning := false;
                       gpuType := None; detectedImage := None;
                       calls := [CallListContainers; CallInspect "clara_core"] |},
                    Returned {| op_success := true;
                                op_message := "Container stopped" |})).
  { reflexivity. }
  split; [exact Hrun |].
  exact (proj1 (stop_and_remove_results simulated simulated_handles
                  (idle [("clara_core", true)])) _ _ Hrun).
Defined.

Lemma stop_and_remove_swallow_listing_failure_witness :
  listContainers daemon_down (env (idle tt))
    = (tt, Failed "connect ENOENT /var/run/docker.sock") /\
  exists w1 w2,
    stop daemon_down unreachable_handles (idle tt)
    = (w1, Returned {| op_success := true; op_message := "Container not found" |}) /\
    remove daemon_down unreachable_handles (idle tt)
    = (w2, Returned {| op_success := true; op_message := "Container not found" |}) /\
    env w1 = tt /\ env w2 = tt /\
    isRunning w1 = false /\ isRunning w2 = isRunning (idle tt).
Proof.
  assert (Hlist : listContainers daemon_down (env (idle tt))
                  = (tt, Failed "connect ENOENT /var/run/docker.sock")).
  { reflexivity. }
  split; [exact Hlist |].
  exact (stop_and_remove_swallow_listing_failure daemon_down unreachable_handles
           (idle tt) tt _ Hlist).
Defined.

End DockerExtras.
